(** * Account-state synchronizer of the trading dashboard

    A shallow embedding of the client-side account store
    ([frontend/src/context/AccountContext.tsx]), its data-access layer
    ([frontend/src/services/account.ts], [frontend/src/services/mockData.ts])
    and the two realtime transports ([frontend/src/utils/websocket]),
    followed by the properties the specification states about them.  The
    rest of the provider, the notification center, the history pages
    ([frontend/src/pages]) and the export ([frontend/src/utils/export.ts])
    come after, with properties of their own.

    Conventions of the embedding:
    - a JavaScript [number] that the code only stores and passes around is a
      rational [Q] (the decimal literal, kept exact);
    - an ISO-8601 timestamp string is held as the instant it denotes, in epoch
      milliseconds ([Z]): this is the value [new Date(ts).getTime()] computes
      from it, and the only way the code ever looks at a timestamp;
    - an optional property [f?: T] is an [option T]; [T | null] likewise;
    - [new Date()] reads the wall clock: the reducer takes the reading as an
      explicit argument, and the services and the provider take it from the
      world they run in;
    - the code runs in a browser ([typeof window] is never ['undefined']). *)

From Stdlib Require Import ZArith QArith Sorted Permutation Lia.
From stdpp Require Import base option list strings gmap.

Local Open Scope string_scope.
Local Open Scope Z_scope.
Local Open Scope list_scope.

(** ** Entities ([types/account.ts]) *)

Definition number := Q.
Definition Timestamp := Z.

Inductive Direction := LONG | SHORT.
Inductive OrderSide := BUY | SELL.
Inductive OrderType := LIMIT | MARKET | STOP | STOP_LIMIT.
Inductive OrderStatus := FILLED | PARTIALLY_FILLED | CANCELED | OPEN | REJECTED.

(** A union [T | 'ALL'] of the filter types. *)
Inductive OrAll (T : Type) := ALL | Only (v : T).
Arguments ALL {T}.
Arguments Only {T} v.

#[global] Instance OrderSide_eq_dec : EqDecision OrderSide.
Proof. solve_decision. Defined.
#[global] Instance OrderStatus_eq_dec : EqDecision OrderStatus.
Proof. solve_decision. Defined.

Record Balance := {
  asset : string; available : number; hold : number;
  usdValue : number; allocation : number }.

Record Pnl := { value : number; percentage : number }.

Module Position.
Record t := {
  symbol : string; direction : Direction; size : number;
  entryPrice : number; markPrice : number; pnl : Pnl; margin : number;
  updatedAt : Timestamp; strategy : option string }.
End Position.

Module Order.
Record t := {
  id : string; timestamp : Timestamp; symbol : string; type : OrderType;
  side : OrderSide; price : number; quantity : number;
  filledQuantity : number; status : OrderStatus }.
End Order.

Module Trade.
Record t := {
  id : string; orderId : string; timestamp : Timestamp; symbol : string;
  side : OrderSide; price : number; quantity : number; fee : number;
  strategy : option string }.
End Trade.

Record PerformanceMetrics := {
  totalReturn : number; annualizedReturn : number; maxDrawdown : number;
  sharpeRatio : number; winRate : number; averageWin : number;
  averageLoss : number; totalTrades : number; winningTrades : number;
  losingTrades : number; profitLossToday : number; profitLossTotal : number }.

Module TimeRange.
Inductive t := _1D | _1W | _1M | _3M | _6M | _1Y | ALL.
End TimeRange.

Module PerformanceRange.
Inductive t := TODAY | WEEK | MONTH | YEAR | ALL.
End PerformanceRange.

Module AssetHistoryPoint.
Record t := {
  timestamp : Timestamp; total : number; available : number;
  btcPrice : option number; event : option string }.
End AssetHistoryPoint.

Inductive StrategyStatus := running | stopped | paused.

#[global] Instance StrategyStatus_eq_dec : EqDecision StrategyStatus.
Proof. solve_decision. Defined.

Module Strategy.
Record t := {
  id : string; name : string; status : StrategyStatus; pnl : number;
  winRate : number; trades : number; description : option string;
  lastUpdated : Timestamp }.
End Strategy.

Inductive Severity := info | success | warning | critical.
Inductive Category := order | price | strategy | system.

Module RiskEvent.
Record t := {
  id : string; timestamp : Timestamp; rule : string;
  severity : Severity; details : string }.
End RiskEvent.

Module RiskAlert.
Record t := {
  id : string; type : string; description : string;
  threshold : option number; enabled : bool }.
End RiskAlert.

Record RiskMetrics := {
  currentExposure : number; maxExposure : number; leverage : number;
  maxLeverage : number; marginUtilization : number; var : number;
  riskEvents : list RiskEvent.t; alerts : list RiskAlert.t }.

Module Notification.
Record t := {
  id : string; category : Category; title : string; message : string;
  timestamp : Timestamp; read : bool; severity : Severity }.
End Notification.

(** The filter objects of the order and trade queries.  A bound that is present
    is a timestamp, as everywhere; a symbol is any string, the empty one
    included. *)
Module OrderFilters.
Record t := {
  start : option Timestamp; end_ : option Timestamp;
  status : option (OrAll OrderStatus); symbol : option string;
  side : option (OrAll OrderSide) }.
End OrderFilters.

Module TradeFilters.
Record t := {
  start : option Timestamp; end_ : option Timestamp;
  symbol : option string; side : option (OrAll OrderSide) }.
End TradeFilters.

Record PairStatistic := {
  ps_symbol : string; ps_trades : number; ps_pnl : number; ps_winRate : number }.
Record ProfitBucket := { pb_range : string; pb_count : number }.
Record HoldingBucket := {
  hb_bucket : string; hb_count : number; hb_avgPnl : number }.
Record HeatmapCell := {
  hc_hour : number; hc_weekday : number; hc_trades : number; hc_pnl : number }.
Record StrategyPerformance := {
  sp_strategy : string; sp_pnl : number; sp_winRate : number;
  sp_sharpe : number; sp_trades : number }.
Record Totals := { volume : number; fees : number }.

Record TradeStatistics := {
  byPair : list PairStatistic;
  profitDistribution : list ProfitBucket;
  holdingDurations : list HoldingBucket;
  hourlyHeatmap : list HeatmapCell;
  strategyComparison : list StrategyPerformance;
  totals : Totals }.

(** ** The aggregate state *)

Record AccountState := {
  balance : list Balance;
  positions : list Position.t;
  orders : list Order.t;
  trades : list Trade.t;
  performance : option PerformanceMetrics;
  performanceRange : PerformanceRange.t;
  assetHistory : list AssetHistoryPoint.t;
  assetHistoryRange : TimeRange.t;
  tradeStats : option TradeStatistics;
  strategies : list Strategy.t;
  risk : option RiskMetrics;
  notifications : list Notification.t;
  loading : bool;
  error : option string;
  lastUpdated : option Timestamp }.

Definition initialState : AccountState := {|
  balance := []; positions := []; orders := []; trades := [];
  performance := None; performanceRange := PerformanceRange.ALL;
  assetHistory := []; assetHistoryRange := TimeRange._1M;
  tradeStats := None; strategies := []; risk := None; notifications := [];
  loading := false; error := None; lastUpdated := None |}.

(** [Partial<AccountState>]: every property may be missing. *)
Record PartialAccountState := {
  p_balance : option (list Balance);
  p_positions : option (list Position.t);
  p_orders : option (list Order.t);
  p_trades : option (list Trade.t);
  p_performance : option (option PerformanceMetrics);
  p_performanceRange : option PerformanceRange.t;
  p_assetHistory : option (list AssetHistoryPoint.t);
  p_assetHistoryRange : option TimeRange.t;
  p_tradeStats : option (option TradeStatistics);
  p_strategies : option (list Strategy.t);
  p_risk : option (option RiskMetrics);
  p_notifications : option (list Notification.t);
  p_loading : option bool;
  p_error : option (option string);
  p_lastUpdated : option Timestamp }.

Definition no_fields : PartialAccountState := {|
  p_balance := None; p_positions := None; p_orders := None; p_trades := None;
  p_performance := None; p_performanceRange := None; p_assetHistory := None;
  p_assetHistoryRange := None; p_tradeStats := None; p_strategies := None;
  p_risk := None; p_notifications := None; p_loading := None;
  p_error := None; p_lastUpdated := None |}.

(** [{ ...state, ...payload }]: a property of the payload that is present
    overrides the state's. *)
Definition spread (state : AccountState) (payload : PartialAccountState)
  : AccountState := {|
  balance := default (balance state) (p_balance payload);
  positions := default (positions state) (p_positions payload);
  orders := default (orders state) (p_orders payload);
  trades := default (trades state) (p_trades payload);
  performance := default (performance state) (p_performance payload);
  performanceRange :=
    default (performanceRange state) (p_performanceRange payload);
  assetHistory := default (assetHistory state) (p_assetHistory payload);
  assetHistoryRange :=
    default (assetHistoryRange state) (p_assetHistoryRange payload);
  tradeStats := default (tradeStats state) (p_tradeStats payload);
  strategies := default (strategies state) (p_strategies payload);
  risk := default (risk state) (p_risk payload);
  notifications := default (notifications state) (p_notifications payload);
  loading := default (loading state) (p_loading payload);
  error := default (error state) (p_error payload);
  lastUpdated :=
    match p_lastUpdated payload with
    | Some t => Some t
    | None => lastUpdated state
    end |}.

(** [{ ...state, f: v }] for a single property [f]. *)
Definition with_balance v (state : AccountState) : AccountState := {|
  balance := v; positions := positions state; orders := orders state;
  trades := trades state; performance := performance state;
  performanceRange := performanceRange state;
  assetHistory := assetHistory state;
  assetHistoryRange := assetHistoryRange state;
  tradeStats := tradeStats state; strategies := strategies state;
  risk := risk state; notifications := notifications state;
  loading := loading state; error := error state;
  lastUpdated := lastUpdated state |}.
Definition with_positions v (state : AccountState) : AccountState := {|
  balance := balance state; positions := v; orders := orders state;
  trades := trades state; performance := performance state;
  performanceRange := performanceRange state;
  assetHistory := assetHistory state;
  assetHistoryRange := assetHistoryRange state;
  tradeStats := tradeStats state; strategies := strategies state;
  risk := risk state; notifications := notifications state;
  loading := loading state; error := error state;
  lastUpdated := lastUpdated state |}.
Definition with_orders v (state : AccountState) : AccountState := {|
  balance := balance state; positions := positions state; orders := v;
  trades := trades state; performance := performance state;
  performanceRange := performanceRange state;
  assetHistory := assetHistory state;
  assetHistoryRange := assetHistoryRange state;
  tradeStats := tradeStats state; strategies := strategies state;
  risk := risk state; notifications := notifications state;
  loading := loading state; error := error state;
  lastUpdated := lastUpdated state |}.
Definition with_trades v (state : AccountState) : AccountState := {|
  balance := balance state; positions := positions state;
  orders := orders state; trades := v; performance := performance state;
  performanceRange := performanceRange state;
  assetHistory := assetHistory state;
  assetHistoryRange := assetHistoryRange state;
  tradeStats := tradeStats state; strategies := strategies state;
  risk := risk state; notifications := notifications state;
  loading := loading state; error := error state;
  lastUpdated := lastUpdated state |}.
Definition with_strategies v (state : AccountState) : AccountState := {|
  balance := balance state; positions := positions state;
  orders := orders state; trades := trades state;
  performance := performance state;
  performanceRange := performanceRange state;
  assetHistory := assetHistory state;
  assetHistoryRange := assetHistoryRange state;
  tradeStats := tradeStats state; strategies := v; risk := risk state;
  notifications := notifications state; loading := loading state;
  error := error state; lastUpdated := lastUpdated state |}.
Definition with_risk v (state : AccountState) : AccountState := {|
  balance := balance state; positions := positions state;
  orders := orders state; trades := trades state;
  performance := performance state;
  performanceRange := performanceRange state;
  assetHistory := assetHistory state;
  assetHistoryRange := assetHistoryRange state;
  tradeStats := tradeStats state; strategies := strategies state; risk := v;
  notifications := notifications state; loading := loading state;
  error := error state; lastUpdated := lastUpdated state |}.
Definition with_notifications v (state : AccountState) : AccountState := {|
  balance := balance state; positions := positions state;
  orders := orders state; trades := trades state;
  performance := performance state;
  performanceRange := performanceRange state;
  assetHistory := assetHistory state;
  assetHistoryRange := assetHistoryRange state;
  tradeStats := tradeStats state; strategies := strategies state;
  risk := risk state; notifications := v; loading := loading state;
  error := error state; lastUpdated := lastUpdated state |}.
Definition with_loading v (state : AccountState) : AccountState := {|
  balance := balance state; positions := positions state;
  orders := orders state; trades := trades state;
  performance := performance state;
  performanceRange := performanceRange state;
  assetHistory := assetHistory state;
  assetHistoryRange := assetHistoryRange state;
  tradeStats := tradeStats state; strategies := strategies state;
  risk := risk state; notifications := notifications state; loading := v;
  error := error state; lastUpdated := lastUpdated state |}.
Definition with_error v (state : AccountState) : AccountState := {|
  balance := balance state; positions := positions state;
  orders := orders state; trades := trades state;
  performance := performance state;
  performanceRange := performanceRange state;
  assetHistory := assetHistory state;
  assetHistoryRange := assetHistoryRange state;
  tradeStats := tradeStats state; strategies := strategies state;
  risk := risk state; notifications := notifications state;
  loading := loading state; error := v; lastUpdated := lastUpdated state |}.
Definition with_lastUpdated v (state : AccountState) : AccountState := {|
  balance := balance state; positions := positions state;
  orders := orders state; trades := trades state;
  performance := performance state;
  performanceRange := performanceRange state;
  assetHistory := assetHistory state;
  assetHistoryRange := assetHistoryRange state;
  tradeStats := tradeStats state; strategies := strategies state;
  risk := risk state; notifications := notifications state;
  loading := loading state; error := error state; lastUpdated := v |}.

(** ** [Array.prototype.sort] with a comparator

    The sort of an ECMAScript array is stable: [x] ends up after [y] only when
    [compareFn x y > 0] or when it already was after it and the two compare
    equal.  For a comparator that orders by a key this fixes the result, which
    the insertion sort below computes. *)
Section ArraySort.
Context {A : Type} (compareFn : A -> A -> Z).

Fixpoint sort_insert (x : A) (l : list A) : list A :=
  match l with
  | [] => [x]
  | y :: l' =>
      if compareFn x y <=? 0 then x :: y :: l' else y :: sort_insert x l'
  end.

Definition Array_sort (l : list A) : list A := foldr sort_insert [] l.
End ArraySort.

(** ** The store ([context/AccountContext.tsx]) *)

Inductive AccountAction :=
| SET_STATE (payload : PartialAccountState)
| SET_LOADING (payload : bool)
| SET_ERROR (payload : option string)
| UPSERT_BALANCES (payload : list Balance)
| UPSERT_POSITION (payload : Position.t)
| UPSERT_ORDER (payload : Order.t)
| UPSERT_TRADE (payload : Trade.t)
| SET_RISK (payload : RiskMetrics)
| ADD_NOTIFICATION (payload : Notification.t)
| SET_NOTIFICATIONS (payload : list Notification.t)
| MARK_NOTIFICATION (id : string) (read : bool)
| SET_STRATEGIES (payload : list Strategy.t).

(** [{ ...notification, read }] *)
Definition with_read (read : bool) (n : Notification.t) : Notification.t := {|
  Notification.id := Notification.id n;
  Notification.category := Notification.category n;
  Notification.title := Notification.title n;
  Notification.message := Notification.message n;
  Notification.timestamp := Notification.timestamp n;
  Notification.read := read;
  Notification.severity := Notification.severity n |}.

(** [accountReducer]; [now] is what [new Date().toISOString()] yields when the
    reducer runs.  The [default] branch of the switch has no case here: the
    twelve variants are all the actions the provider dispatches. *)
Definition accountReducer (now : Timestamp)
    (state : AccountState) (action : AccountAction) : AccountState :=
  match action with
  | SET_STATE payload => spread state payload
  | SET_LOADING payload => with_loading payload state
  | SET_ERROR payload => with_error payload state
  | UPSERT_BALANCES payload =>
      with_lastUpdated (Some now) (with_balance payload state)
  | UPSERT_POSITION payload =>
      let positions0 := positions state in
      let index :=
        list_find
          (λ position, Position.symbol position = Position.symbol payload)
          positions0 in
      let positions1 :=
        match index with
        | Some (i, _) => <[i := payload]> positions0
        | None => positions0 ++ [payload]
        end in
      with_lastUpdated (Some now) (with_positions positions1 state)
  | UPSERT_ORDER payload =>
      let orders1 :=
        Array_sort (λ a b, Order.timestamp b - Order.timestamp a)
          (payload ::
             filter (λ order, Order.id order ≠ Order.id payload)
               (orders state)) in
      with_lastUpdated (Some now) (with_orders orders1 state)
  | UPSERT_TRADE payload =>
      let trades1 :=
        Array_sort (λ a b, Trade.timestamp b - Trade.timestamp a)
          (payload ::
             filter (λ trade, Trade.id trade ≠ Trade.id payload)
               (trades state)) in
      with_lastUpdated (Some now) (with_trades trades1 state)
  | SET_RISK payload =>
      with_lastUpdated (Some now) (with_risk (Some payload) state)
  | ADD_NOTIFICATION payload =>
      with_lastUpdated (Some now)
        (with_notifications (take 50 (payload :: notifications state)) state)
  | SET_NOTIFICATIONS payload =>
      with_lastUpdated (Some now) (with_notifications payload state)
  | MARK_NOTIFICATION id read =>
      with_lastUpdated (Some now)
        (with_notifications
           (map (λ notification,
                   if decide (Notification.id notification = id)
                   then with_read read notification
                   else notification)
              (notifications state))
           state)
  | SET_STRATEGIES payload =>
      with_lastUpdated (Some now) (with_strategies payload state)
  end.

(** A run of the store: the actions in dispatch order, each with the clock
    reading of its evaluation. *)
Definition dispatchAll (actions : list (Timestamp * AccountAction))
    (state : AccountState) : AccountState :=
  foldl (λ s ev, accountReducer ev.1 s ev.2) state actions.

(** ** Realtime messages

    A frame that reached [handleRealtimeMessage] is an object with a [type]
    property.  The six variants of the [RealtimeMessage] union carry the
    payload their type announces; a frame with any other discriminant is kept
    with its discriminant only. *)

Definition message_types : list string :=
  [ "balance_update"; "position_update"; "order_update"; "trade_update";
    "risk_update"; "notification" ].

Module RealtimeMessage.
Inductive t :=
| balance_update (payload : list Balance)
| position_update (payload : Position.t)
| order_update (payload : Order.t)
| trade_update (payload : Trade.t)
| risk_update (payload : RiskMetrics)
| notification (payload : Notification.t)
| other (type : string) (unknown : bool_decide (type ∈ message_types) = false).

Definition type (message : t) : string :=
  match message with
  | balance_update _ => "balance_update"
  | position_update _ => "position_update"
  | order_update _ => "order_update"
  | trade_update _ => "trade_update"
  | risk_update _ => "risk_update"
  | notification _ => "notification"
  | other type _ => type
  end.
End RealtimeMessage.

(** ** Effects of the services and of the provider

    The code around the reducer runs against three pieces of mutable state:
    the store held by [useReducer], the two module-level caches of
    [services/account.ts], and the wall clock.  [World] holds them, together
    with the log of the actions handed to [dispatch] (a ghost field: no code
    reads it).  A computation either returns or throws. *)

Record World := {
  store : AccountState;
  strategyCache : list Strategy.t;
  riskCache : RiskMetrics;
  dispatched : list AccountAction;
  clock : nat -> Timestamp;
  reads : nat }.

Inductive Outcome (T : Type) :=
| Returned (v : T)
| Threw (message : option string).
Arguments Returned {T} v.
Arguments Threw {T} message.

Definition M (T : Type) : Type := World -> Outcome T * World.

#[global] Instance M_ret : MRet M := λ T v w, (Returned v, w).
#[global] Instance M_bind : MBind M := λ T U f m w,
  match m w with
  | (Returned v, w') => f v w'
  | (Threw e, w') => (Threw e, w')
  end.

(** [try { body } catch (error) { handler(error) }] *)
Definition try_catch {T} (body : M T) (handler : option string -> M T) : M T :=
  λ w, match body w with
       | (Returned v, w') => (Returned v, w')
       | (Threw e, w') => handler e w'
       end.

(** [try { body } finally { cleanup }] *)
Definition try_finally {T} (body : M T) (cleanup : M unit) : M T :=
  λ w, match body w with
       | (r, w') =>
           match cleanup w' with
           | (Returned _, w'') => (r, w'')
           | (Threw e, w'') => (Threw e, w'')
           end
       end.

Definition exec {T} (m : M T) (w : World) : World := (m w).2.

(** [new Date()]: the next reading of the clock. *)
Definition Date_now : M Timestamp :=
  λ w, (Returned (clock w (reads w)),
        {| store := store w; strategyCache := strategyCache w;
           riskCache := riskCache w; dispatched := dispatched w;
           clock := clock w; reads := S (reads w) |}).

Definition get_strategyCache : M (list Strategy.t) :=
  λ w, (Returned (strategyCache w), w).
Definition set_strategyCache (v : list Strategy.t) : M unit :=
  λ w, (Returned (),
        {| store := store w; strategyCache := v; riskCache := riskCache w;
           dispatched := dispatched w; clock := clock w; reads := reads w |}).
Definition get_riskCache : M RiskMetrics :=
  λ w, (Returned (riskCache w), w).
Definition set_riskCache (v : RiskMetrics) : M unit :=
  λ w, (Returned (),
        {| store := store w; strategyCache := strategyCache w; riskCache := v;
           dispatched := dispatched w; clock := clock w; reads := reads w |}).
Definition get_state : M AccountState :=
  λ w, (Returned (store w), w).

(** [dispatch(action)]: the reducer runs on the current store, with the clock
    as it stands at that moment. *)
Definition dispatch (action : AccountAction) : M unit :=
  λ w, (Returned (),
        {| store := accountReducer (clock w (reads w)) (store w) action;
           strategyCache := strategyCache w; riskCache := riskCache w;
           dispatched := dispatched w ++ [action];
           clock := clock w; reads := S (reads w) |}).

(** What the REST endpoints answer: a body, or a failure (network error,
    non-success status, undecodable body), which [apiClient] throws. *)
Record Backend := {
  api_account_balance : Outcome (list Balance);
  api_account_positions : Outcome (list Position.t);
  api_account_orders : option OrderFilters.t -> Outcome (list Order.t);
  api_account_trades : option TradeFilters.t -> Outcome (list Trade.t);
  api_account_performance : PerformanceRange.t -> Outcome PerformanceMetrics;
  api_account_asset_history :
    TimeRange.t -> Outcome (list AssetHistoryPoint.t);
  api_account_trade_stats : option TradeFilters.t -> Outcome TradeStatistics;
  api_strategies : Outcome (list Strategy.t);
  api_strategies_status :
    string -> StrategyStatus -> Outcome (list Strategy.t);
  api_risk_metrics : Outcome RiskMetrics;
  api_notifications : Outcome (list Notification.t);
  api_notifications_read : string -> Outcome unit }.

(** ** The fallback dataset ([services/mockData.ts]) *)

(** Truthiness of an optional string property: [undefined] and the empty
    string are falsy. *)
Definition truthy (v : option string) : bool :=
  match v with
  | Some s => negb (String.eqb s "")
  | None => false
  end.

(** The [{ start?, end? }] part of a filter object, which both filter types
    have. *)
Record RangeFilters := {
  range_start : option Timestamp; range_end : option Timestamp }.

Definition order_range (f : OrderFilters.t) : RangeFilters :=
  {| range_start := OrderFilters.start f; range_end := OrderFilters.end_ f |}.
Definition trade_range (f : TradeFilters.t) : RangeFilters :=
  {| range_start := TradeFilters.start f; range_end := TradeFilters.end_ f |}.

Definition withinRange (timestamp : Timestamp) (filters : option RangeFilters)
  : bool :=
  match filters with
  | None => true
  | Some filters =>
      let value := timestamp in
      if (match range_start filters with
          | Some start => value <? start
          | None => false
          end)
      then false
      else if (match range_end filters with
               | Some end_ => value >? end_
               | None => false
               end)
      then false
      else true
  end.

Section Dashboard.
(** [const now = new Date()], read once when the module is loaded. *)
Variable now : Timestamp.

(** Tables the module computes with [Math.sin], [Math.round] and [toFixed]
    on floating-point numbers: the heat map of [mockTradeStatistics] and the
    points of [getMockAssetHistory]. *)
Variable mockHourlyHeatmap : list HeatmapCell.
Variable getMockAssetHistory : TimeRange.t -> list AssetHistoryPoint.t.

Definition HOURS : Z := 60 * 60 * 1000.
Definition DAYS : Z := 24 * HOURS.

Definition hoursAgo (hours : Z) : Timestamp := now - hours * HOURS.
Definition daysAgo (days : Z) : Timestamp := now - days * DAYS.

Definition mockBalances : list Balance :=
  [ {| asset := "USDT"; available := 18000%Q; hold := 2500%Q;
        usdValue := 20500%Q; allocation := 0.26%Q |};
    {| asset := "BTC"; available := 0.85%Q; hold := 0.1%Q;
        usdValue := 29000%Q; allocation := 0.29%Q |};
    {| asset := "ETH"; available := 12.5%Q; hold := 1.4%Q;
        usdValue := 25000%Q; allocation := 0.22%Q |};
    {| asset := "SOL"; available := 320%Q; hold := 40%Q;
        usdValue := 12000%Q; allocation := 0.13%Q |};
    {| asset := "USDC"; available := 8000%Q; hold := 0%Q;
        usdValue := 8000%Q; allocation := 0.1%Q |} ].

Definition mockPositions : list Position.t :=
  [ {| Position.symbol := "BTC/USDT"; Position.direction := LONG;
        Position.size := 0.75%Q; Position.entryPrice := 36800%Q;
        Position.markPrice := 38250%Q;
        Position.pnl := {| value := 1087.5%Q; percentage := 0.0427%Q |};
        Position.margin := 9200%Q; Position.updatedAt := hoursAgo 2;
        Position.strategy := Some "AI Momentum" |};
    {| Position.symbol := "ETH/USDT"; Position.direction := SHORT;
        Position.size := 8.5%Q; Position.entryPrice := 2680%Q;
        Position.markPrice := 2595%Q;
        Position.pnl := {| value := 722.5%Q; percentage := 0.0338%Q |};
        Position.margin := 5200%Q; Position.updatedAt := hoursAgo 4;
        Position.strategy := Some "Mean Reversion" |};
    {| Position.symbol := "SOL/USDT"; Position.direction := LONG;
        Position.size := 250%Q; Position.entryPrice := 58.4%Q;
        Position.markPrice := 62.1%Q;
        Position.pnl := {| value := 925%Q; percentage := 0.0635%Q |};
        Position.margin := 3600%Q; Position.updatedAt := hoursAgo 1;
        Position.strategy := Some "AI Momentum" |} ].

Definition baseOrders : list Order.t :=
  [ {| Order.id := "ORD-20240301-001"; Order.timestamp := hoursAgo 2;
        Order.symbol := "BTC/USDT"; Order.type := LIMIT; Order.side := BUY;
        Order.price := 38000%Q; Order.quantity := 0.6%Q;
        Order.filledQuantity := 0.6%Q; Order.status := FILLED |};
    {| Order.id := "ORD-20240301-002"; Order.timestamp := hoursAgo 5;
        Order.symbol := "ETH/USDT"; Order.type := MARKET;
        Order.side := SELL; Order.price := 2620%Q; Order.quantity := 5%Q;
        Order.filledQuantity := 5%Q; Order.status := FILLED |};
    {| Order.id := "ORD-20240229-003"; Order.timestamp := hoursAgo 18;
        Order.symbol := "SOL/USDT"; Order.type := LIMIT; Order.side := BUY;
        Order.price := 60.5%Q; Order.quantity := 200%Q;
        Order.filledQuantity := 150%Q; Order.status := PARTIALLY_FILLED |};
    {| Order.id := "ORD-20240228-004"; Order.timestamp := daysAgo 1;
        Order.symbol := "BTC/USDT"; Order.type := STOP; Order.side := SELL;
        Order.price := 35200%Q; Order.quantity := 0.4%Q;
        Order.filledQuantity := 0%Q; Order.status := CANCELED |};
    {| Order.id := "ORD-20240228-005"; Order.timestamp := daysAgo 2;
        Order.symbol := "ETH/USDT"; Order.type := LIMIT; Order.side := BUY;
        Order.price := 2550%Q; Order.quantity := 4%Q;
        Order.filledQuantity := 4%Q; Order.status := FILLED |};
    {| Order.id := "ORD-20240227-006"; Order.timestamp := daysAgo 3;
        Order.symbol := "SOL/USDT"; Order.type := MARKET;
        Order.side := SELL; Order.price := 59.2%Q; Order.quantity := 100%Q;
        Order.filledQuantity := 100%Q; Order.status := FILLED |};
    {| Order.id := "ORD-20240225-007"; Order.timestamp := daysAgo 5;
        Order.symbol := "BTC/USDT"; Order.type := LIMIT;
        Order.side := SELL; Order.price := 39400%Q;
        Order.quantity := 0.3%Q; Order.filledQuantity := 0%Q;
        Order.status := OPEN |};
    {| Order.id := "ORD-20240222-008"; Order.timestamp := daysAgo 8;
        Order.symbol := "SOL/USDT"; Order.type := LIMIT; Order.side := BUY;
        Order.price := 56.8%Q; Order.quantity := 180%Q;
        Order.filledQuantity := 180%Q; Order.status := FILLED |};
    {| Order.id := "ORD-20240218-009"; Order.timestamp := daysAgo 12;
        Order.symbol := "BTC/USDT"; Order.type := MARKET;
        Order.side := BUY; Order.price := 37250%Q; Order.quantity := 0.5%Q;
        Order.filledQuantity := 0.5%Q; Order.status := FILLED |};
    {| Order.id := "ORD-20240210-010"; Order.timestamp := daysAgo 20;
        Order.symbol := "ETH/USDT"; Order.type := LIMIT;
        Order.side := SELL; Order.price := 2785%Q; Order.quantity := 3%Q;
        Order.filledQuantity := 0%Q; Order.status := CANCELED |};
    {| Order.id := "ORD-20240121-011"; Order.timestamp := daysAgo 39;
        Order.symbol := "SOL/USDT"; Order.type := STOP_LIMIT;
        Order.side := SELL; Order.price := 54.2%Q; Order.quantity := 200%Q;
        Order.filledQuantity := 200%Q; Order.status := FILLED |};
    {| Order.id := "ORD-20231228-012"; Order.timestamp := daysAgo 82;
        Order.symbol := "BTC/USDT"; Order.type := LIMIT; Order.side := BUY;
        Order.price := 34800%Q; Order.quantity := 0.8%Q;
        Order.filledQuantity := 0.8%Q; Order.status := FILLED |} ].

Definition baseTrades : list Trade.t :=
  [ {| Trade.id := "TRD-6001"; Trade.orderId := "ORD-20240301-001";
        Trade.timestamp := hoursAgo 2; Trade.symbol := "BTC/USDT";
        Trade.side := BUY; Trade.price := 37980%Q; Trade.quantity := 0.6%Q;
        Trade.fee := 5.2%Q; Trade.strategy := Some "AI Momentum" |};
    {| Trade.id := "TRD-6002"; Trade.orderId := "ORD-20240301-002";
        Trade.timestamp := hoursAgo 5; Trade.symbol := "ETH/USDT";
        Trade.side := SELL; Trade.price := 2624%Q; Trade.quantity := 5%Q;
        Trade.fee := 3.8%Q; Trade.strategy := Some "Mean Reversion" |};
    {| Trade.id := "TRD-6003"; Trade.orderId := "ORD-20240229-003";
        Trade.timestamp := hoursAgo 18; Trade.symbol := "SOL/USDT";
        Trade.side := BUY; Trade.price := 60.2%Q; Trade.quantity := 150%Q;
        Trade.fee := 4.1%Q; Trade.strategy := Some "AI Momentum" |};
    {| Trade.id := "TRD-6004"; Trade.orderId := "ORD-20240228-005";
        Trade.timestamp := daysAgo 2; Trade.symbol := "ETH/USDT";
        Trade.side := BUY; Trade.price := 2548%Q; Trade.quantity := 4%Q;
        Trade.fee := 2.7%Q; Trade.strategy := Some "AI Momentum" |};
    {| Trade.id := "TRD-6005"; Trade.orderId := "ORD-20240227-006";
        Trade.timestamp := daysAgo 3; Trade.symbol := "SOL/USDT";
        Trade.side := SELL; Trade.price := 59.3%Q; Trade.quantity := 100%Q;
        Trade.fee := 2.9%Q; Trade.strategy := Some "Scalper" |};
    {| Trade.id := "TRD-6006"; Trade.orderId := "ORD-20240222-008";
        Trade.timestamp := daysAgo 8; Trade.symbol := "SOL/USDT";
        Trade.side := BUY; Trade.price := 56.8%Q; Trade.quantity := 180%Q;
        Trade.fee := 4.8%Q; Trade.strategy := Some "AI Momentum" |};
    {| Trade.id := "TRD-6007"; Trade.orderId := "ORD-20240218-009";
        Trade.timestamp := daysAgo 12; Trade.symbol := "BTC/USDT";
        Trade.side := BUY; Trade.price := 37280%Q; Trade.quantity := 0.5%Q;
        Trade.fee := 4.2%Q; Trade.strategy := Some "Mean Reversion" |};
    {| Trade.id := "TRD-6008"; Trade.orderId := "ORD-20240210-010";
        Trade.timestamp := daysAgo 20; Trade.symbol := "ETH/USDT";
        Trade.side := SELL; Trade.price := 2780%Q; Trade.quantity := 3%Q;
        Trade.fee := 2.5%Q; Trade.strategy := Some "Scalper" |};
    {| Trade.id := "TRD-6009"; Trade.orderId := "ORD-20240121-011";
        Trade.timestamp := daysAgo 39; Trade.symbol := "SOL/USDT";
        Trade.side := SELL; Trade.price := 54.3%Q; Trade.quantity := 200%Q;
        Trade.fee := 5.4%Q; Trade.strategy := Some "AI Momentum" |};
    {| Trade.id := "TRD-6010"; Trade.orderId := "ORD-20231228-012";
        Trade.timestamp := daysAgo 82; Trade.symbol := "BTC/USDT";
        Trade.side := BUY; Trade.price := 34820%Q; Trade.quantity := 0.8%Q;
        Trade.fee := 5.6%Q; Trade.strategy := Some "AI Momentum" |} ].

Definition mockStrategies : list Strategy.t :=
  [ {| Strategy.id := "strat-001"; Strategy.name := "AI Momentum";
        Strategy.status := running; Strategy.pnl := 19800%Q;
        Strategy.winRate := 0.66%Q; Strategy.trades := 520%Q;
        Strategy.description := Some "Deep learning momentum strategy focusing on BTC and SOL.";
        Strategy.lastUpdated := hoursAgo 1 |};
    {| Strategy.id := "strat-002"; Strategy.name := "Mean Reversion";
        Strategy.status := paused; Strategy.pnl := 12800%Q;
        Strategy.winRate := 0.58%Q; Strategy.trades := 360%Q;
        Strategy.description := Some "Short-term mean reversion on ETH perpetuals.";
        Strategy.lastUpdated := hoursAgo 7 |};
    {| Strategy.id := "strat-003"; Strategy.name := "Scalper";
        Strategy.status := stopped; Strategy.pnl := 6200%Q;
        Strategy.winRate := 0.63%Q; Strategy.trades := 240%Q;
        Strategy.description := Some "High frequency scalping strategy on major pairs.";
        Strategy.lastUpdated := daysAgo 2 |} ].

Definition mockNotifications : list Notification.t :=
  [ {| Notification.id := "notif-001"; Notification.category := order;
        Notification.title := "订单已成交";
        Notification.message := "BTC/USDT 限价买单 0.6 BTC @ 38,000 已完全成交。";
        Notification.timestamp := hoursAgo 2; Notification.read := false;
        Notification.severity := success |};
    {| Notification.id := "notif-002"; Notification.category := price;
        Notification.title := "价格告警";
        Notification.message := "ETH/USDT 价格在 30 分钟内上涨 2.5%。";
        Notification.timestamp := hoursAgo 5; Notification.read := false;
        Notification.severity := warning |};
    {| Notification.id := "notif-003"; Notification.category := strategy;
        Notification.title := "策略状态更新";
        Notification.message := "AI Momentum 策略今日收益率 +1.7%。";
        Notification.timestamp := hoursAgo 8; Notification.read := true;
        Notification.severity := info |};
    {| Notification.id := "notif-004"; Notification.category := system;
        Notification.title := "系统公告";
        Notification.message := "系统将在周末进行维护，预计停机 1 小时。";
        Notification.timestamp := daysAgo 1; Notification.read := true;
        Notification.severity := info |} ].

Definition performanceByRange_TODAY : PerformanceMetrics :=
  {| totalReturn := 0.017%Q; annualizedReturn := 0.42%Q;
        maxDrawdown := 0.04%Q; sharpeRatio := 2.8%Q; winRate := 0.68%Q;
        averageWin := 420%Q; averageLoss := (-260)%Q; totalTrades := 6%Q;
        winningTrades := 4%Q; losingTrades := 2%Q;
        profitLossToday := 540%Q; profitLossTotal := 39680%Q |}.

Definition performanceByRange_WEEK : PerformanceMetrics :=
  {| totalReturn := 0.036%Q; annualizedReturn := 0.38%Q;
        maxDrawdown := 0.07%Q; sharpeRatio := 2.45%Q; winRate := 0.66%Q;
        averageWin := 480%Q; averageLoss := (-310)%Q; totalTrades := 24%Q;
        winningTrades := 16%Q; losingTrades := 8%Q;
        profitLossToday := 540%Q; profitLossTotal := 39680%Q |}.

Definition performanceByRange_MONTH : PerformanceMetrics :=
  {| totalReturn := 0.078%Q; annualizedReturn := 0.41%Q;
        maxDrawdown := 0.11%Q; sharpeRatio := 2.32%Q; winRate := 0.63%Q;
        averageWin := 510%Q; averageLoss := (-340)%Q; totalTrades := 92%Q;
        winningTrades := 58%Q; losingTrades := 34%Q;
        profitLossToday := 540%Q; profitLossTotal := 39680%Q |}.

Definition performanceByRange_YEAR : PerformanceMetrics :=
  {| totalReturn := 0.312%Q; annualizedReturn := 0.43%Q;
        maxDrawdown := 0.18%Q; sharpeRatio := 2.58%Q; winRate := 0.64%Q;
        averageWin := 495%Q; averageLoss := (-330)%Q; totalTrades := 860%Q;
        winningTrades := 552%Q; losingTrades := 308%Q;
        profitLossToday := 540%Q; profitLossTotal := 39680%Q |}.

Definition performanceByRange_ALL : PerformanceMetrics :=
  {| totalReturn := 0.412%Q; annualizedReturn := 0.37%Q;
        maxDrawdown := 0.21%Q; sharpeRatio := 2.34%Q; winRate := 0.61%Q;
        averageWin := 470%Q; averageLoss := (-320)%Q;
        totalTrades := 1350%Q; winningTrades := 824%Q;
        losingTrades := 526%Q; profitLossToday := 540%Q;
        profitLossTotal := 39680%Q |}.

Definition mockRiskMetrics : RiskMetrics := {|
  currentExposure := 0.46%Q;
  maxExposure := 0.75%Q;
  leverage := 4.2%Q;
  maxLeverage := 8%Q;
  marginUtilization := 0.38%Q;
  var := 0.062%Q;
  riskEvents :=
    [ {| RiskEvent.id := "risk-evt-001"; RiskEvent.timestamp := hoursAgo 3;
        RiskEvent.rule := "BTC drawdown > 3%";
        RiskEvent.severity := warning;
        RiskEvent.details := "BTC price dipped 3.5% within 30 minutes. Positions hedged automatically." |};
      {| RiskEvent.id := "risk-evt-002"; RiskEvent.timestamp := daysAgo 1;
        RiskEvent.rule := "Leverage limit breach";
        RiskEvent.severity := info;
        RiskEvent.details := "SOL leverage reached 5.5x during breakout and was reduced to 4x." |} ];
  alerts :=
    [ {| RiskAlert.id := "alert-001"; RiskAlert.type := "price";
        RiskAlert.description := "BTC drawdown exceeds 5%";
        RiskAlert.threshold := Some 0.05%Q; RiskAlert.enabled := true |};
      {| RiskAlert.id := "alert-002"; RiskAlert.type := "margin";
        RiskAlert.description := "Margin utilization exceeds 60%";
        RiskAlert.threshold := Some 0.6%Q; RiskAlert.enabled := true |};
      {| RiskAlert.id := "alert-003"; RiskAlert.type := "strategy";
        RiskAlert.description := "Strategy drawdown exceeds 12%";
        RiskAlert.threshold := Some 0.12%Q; RiskAlert.enabled := false |} ] |}.

Definition mockTradeStatistics : TradeStatistics := {|
  byPair :=
    [ {| ps_symbol := "BTC/USDT"; ps_trades := 420%Q; ps_pnl := 16800%Q;
        ps_winRate := 0.64%Q |};
      {| ps_symbol := "ETH/USDT"; ps_trades := 360%Q; ps_pnl := 13200%Q;
        ps_winRate := 0.61%Q |};
      {| ps_symbol := "SOL/USDT"; ps_trades := 210%Q; ps_pnl := 9800%Q;
        ps_winRate := 0.66%Q |};
      {| ps_symbol := "BNB/USDT"; ps_trades := 140%Q; ps_pnl := 6200%Q;
        ps_winRate := 0.58%Q |} ];
  profitDistribution :=
    [ {| pb_range := "< -5%"; pb_count := 42%Q |};
      {| pb_range := "-5% ~ 0%"; pb_count := 148%Q |};
      {| pb_range := "0% ~ 5%"; pb_count := 286%Q |};
      {| pb_range := "5% ~ 10%"; pb_count := 178%Q |};
      {| pb_range := "> 10%"; pb_count := 64%Q |} ];
  holdingDurations :=
    [ {| hb_bucket := "< 1h"; hb_count := 168%Q; hb_avgPnl := 0.014%Q |};
      {| hb_bucket := "1h - 4h"; hb_count := 214%Q; hb_avgPnl := 0.022%Q |};
      {| hb_bucket := "4h - 24h"; hb_count := 180%Q; hb_avgPnl := 0.028%Q |};
      {| hb_bucket := "> 24h"; hb_count := 128%Q; hb_avgPnl := 0.034%Q |} ];
  hourlyHeatmap := mockHourlyHeatmap;
  strategyComparison :=
    [ {| sp_strategy := "AI Momentum"; sp_pnl := 19800%Q;
        sp_winRate := 0.66%Q; sp_sharpe := 2.8%Q; sp_trades := 520%Q |};
      {| sp_strategy := "Mean Reversion"; sp_pnl := 12800%Q;
        sp_winRate := 0.58%Q; sp_sharpe := 2.2%Q; sp_trades := 360%Q |};
      {| sp_strategy := "Scalper"; sp_pnl := 6200%Q; sp_winRate := 0.63%Q;
        sp_sharpe := 1.9%Q; sp_trades := 240%Q |};
      {| sp_strategy := "Grid Bot"; sp_pnl := 3400%Q; sp_winRate := 0.55%Q;
        sp_sharpe := 1.5%Q; sp_trades := 180%Q |} ];
  totals := {| volume := 18600000%Q; fees := 11240%Q |} |}.

Definition performanceByRange (range : PerformanceRange.t)
  : PerformanceMetrics :=
  match range with
  | PerformanceRange.TODAY => performanceByRange_TODAY
  | PerformanceRange.WEEK => performanceByRange_WEEK
  | PerformanceRange.MONTH => performanceByRange_MONTH
  | PerformanceRange.YEAR => performanceByRange_YEAR
  | PerformanceRange.ALL => performanceByRange_ALL
  end.

Definition orderKept (filters : option OrderFilters.t) (order : Order.t)
  : bool :=
  if (match filters ≫= OrderFilters.status with
      | Some (Only status) =>
          negb (bool_decide (Order.status order = status))
      | _ => false
      end)
  then false
  else if truthy (filters ≫= OrderFilters.symbol)
          && negb (bool_decide (filters ≫= OrderFilters.symbol = Some "ALL"))
          && negb (bool_decide
                     (Some (Order.symbol order)
                      = filters ≫= OrderFilters.symbol))
  then false
  else if (match filters ≫= OrderFilters.side with
           | Some (Only side) => negb (bool_decide (Order.side order = side))
           | _ => false
           end)
  then false
  else if negb (withinRange (Order.timestamp order) (order_range <$> filters))
  then false
  else true.

Definition getMockOrders (filters : option OrderFilters.t) : list Order.t :=
  filter (λ order, orderKept filters order) baseOrders.

Definition tradeKept (filters : option TradeFilters.t) (trade : Trade.t)
  : bool :=
  if truthy (filters ≫= TradeFilters.symbol)
     && negb (bool_decide (filters ≫= TradeFilters.symbol = Some "ALL"))
     && negb (bool_decide
                (Some (Trade.symbol trade) = filters ≫= TradeFilters.symbol))
  then false
  else if (match filters ≫= TradeFilters.side with
           | Some (Only side) => negb (bool_decide (Trade.side trade = side))
           | _ => false
           end)
  then false
  else if negb (withinRange (Trade.timestamp trade) (trade_range <$> filters))
  then false
  else true.

Definition getMockTrades (filters : option TradeFilters.t) : list Trade.t :=
  filter (λ trade, tradeKept filters trade) baseTrades.

Definition getMockPerformance (range : PerformanceRange.t)
  : PerformanceMetrics := performanceByRange range.

Definition getMockTradeStatistics (_filters : option TradeFilters.t)
  : TradeStatistics := mockTradeStatistics.

(** ** The data-access layer ([services/account.ts]) *)

Variable backend : Backend.

(** [await apiClient.get(...)] / [await apiClient.post(...)], then
    [response.data]. *)
Definition apiClient {T} (response : Outcome T) : M T := λ w, (response, w).

Definition safeRequest {T} (request : M T) (fallback : M T) : M T :=
  try_catch request (λ _error, fallback).

Definition getAccountBalance : M (list Balance) :=
  safeRequest (apiClient (api_account_balance backend)) (mret mockBalances).

Definition getPositions : M (list Position.t) :=
  safeRequest (apiClient (api_account_positions backend)) (mret mockPositions).

Definition getOrderHistory (filters : option OrderFilters.t)
  : M (list Order.t) :=
  safeRequest (apiClient (api_account_orders backend filters))
    (mret (getMockOrders filters)).

Definition getTradeHistory (filters : option TradeFilters.t)
  : M (list Trade.t) :=
  safeRequest (apiClient (api_account_trades backend filters))
    (mret (getMockTrades filters)).

Definition getPerformanceMetrics (range : PerformanceRange.t)
  : M PerformanceMetrics :=
  safeRequest (apiClient (api_account_performance backend range))
    (mret (getMockPerformance range)).

Definition getAssetHistory (range : TimeRange.t)
  : M (list AssetHistoryPoint.t) :=
  safeRequest (apiClient (api_account_asset_history backend range))
    (mret (getMockAssetHistory range)).

Definition getTradeStatistics (filters : option TradeFilters.t)
  : M TradeStatistics :=
  safeRequest (apiClient (api_account_trade_stats backend filters))
    (mret (getMockTradeStatistics filters)).

Definition getStrategies : M (list Strategy.t) :=
  safeRequest
    (data ← apiClient (api_strategies backend);
     set_strategyCache data;;
     mret data)
    get_strategyCache.

(** [{ ...strategy, status, lastUpdated }] *)
Definition with_status (status : StrategyStatus) (lastUpdated : Timestamp)
    (s : Strategy.t) : Strategy.t := {|
  Strategy.id := Strategy.id s; Strategy.name := Strategy.name s;
  Strategy.status := status; Strategy.pnl := Strategy.pnl s;
  Strategy.winRate := Strategy.winRate s; Strategy.trades := Strategy.trades s;
  Strategy.description := Strategy.description s;
  Strategy.lastUpdated := lastUpdated |}.

(** The fallback maps over the cache; the callback reads the clock for each
    strategy it rewrites. *)
Definition updateStrategyStatus (strategyId : string) (status : StrategyStatus)
  : M (list Strategy.t) :=
  safeRequest
    (data ← apiClient (api_strategies_status backend strategyId status);
     set_strategyCache data;;
     mret data)
    (cache ← get_strategyCache;
     cache' ←
       mapM (λ strategy,
               if decide (Strategy.id strategy = strategyId)
               then t ← Date_now; mret (with_status status t strategy)
               else mret strategy)
         cache;
     set_strategyCache cache';;
     mret cache').

(** [JSON.parse(JSON.stringify(v))] copies [v]; the copy has the same
    properties. *)
Definition JSON_copy {T} (v : T) : T := v.

Definition getRiskMetrics : M RiskMetrics :=
  safeRequest
    (data ← apiClient (api_risk_metrics backend);
     set_riskCache data;;
     mret data)
    (cache ← get_riskCache; mret (JSON_copy cache)).

Definition setRiskCache (nextRisk : RiskMetrics) : M unit :=
  set_riskCache (JSON_copy nextRisk).

Definition getNotifications : M (list Notification.t) :=
  safeRequest (apiClient (api_notifications backend)) (mret mockNotifications).

Definition acknowledgeNotification (notificationId : string) : M unit :=
  safeRequest (apiClient (api_notifications_read backend notificationId))
    (mret ()).

(** The ten requests of [Promise.all] each settle through [safeRequest]; they
    touch disjoint parts of the world, so they are run in array order. *)
Definition getInitialAccountState : M PartialAccountState :=
  balance ← getAccountBalance;
  positions ← getPositions;
  orders ← getOrderHistory None;
  trades ← getTradeHistory None;
  performance ← getPerformanceMetrics PerformanceRange.ALL;
  assetHistory ← getAssetHistory TimeRange._1M;
  tradeStats ← getTradeStatistics None;
  strategies ← getStrategies;
  risk ← getRiskMetrics;
  notifications ← getNotifications;
  mret {| p_balance := Some balance; p_positions := Some positions;
          p_orders := Some orders; p_trades := Some trades;
          p_performance := Some (Some performance);
          p_performanceRange := None;
          p_assetHistory := Some assetHistory; p_assetHistoryRange := None;
          p_tradeStats := Some (Some tradeStats);
          p_strategies := Some strategies; p_risk := Some (Some risk);
          p_notifications := Some notifications; p_loading := None;
          p_error := None; p_lastUpdated := None |}.

(** ** The provider ([context/AccountContext.tsx]) *)

Definition setLoading (loading : bool) : M unit :=
  dispatch (SET_LOADING loading).

Definition setError (error : option string) : M unit :=
  dispatch (SET_ERROR error).

Definition loadInitialData : M unit :=
  setLoading true;;
  try_finally
    (try_catch
       (data ← getInitialAccountState;
        t ← Date_now;
        dispatch
          (SET_STATE
             {| p_balance := p_balance data; p_positions := p_positions data;
                p_orders := p_orders data; p_trades := p_trades data;
                p_performance := p_performance data;
                p_performanceRange := Some PerformanceRange.ALL;
                p_assetHistory := p_assetHistory data;
                p_assetHistoryRange := Some TimeRange._1M;
                p_tradeStats := p_tradeStats data;
                p_strategies := p_strategies data; p_risk := p_risk data;
                p_notifications := p_notifications data;
                p_loading := Some false; p_error := Some None;
                p_lastUpdated := Some t |}))
       (λ error,
          setError (Some (default "Failed to load account data" error))))
    (setLoading false).

Definition refreshStrategies : M unit :=
  strategies ← getStrategies;
  dispatch (SET_STRATEGIES strategies).

Definition refreshRisk : M unit :=
  risk ← getRiskMetrics;
  setRiskCache risk;;
  dispatch (SET_RISK risk).

Definition toggleStrategyStatus (strategyId : string) : M unit :=
  state ← get_state;
  let strategy :=
    snd <$> list_find (λ item, Strategy.id item = strategyId)
              (strategies state) in
  let nextStatus :=
    if decide (Strategy.status <$> strategy = Some running)
    then stopped else running in
  updatedStrategies ← updateStrategyStatus strategyId nextStatus;
  dispatch (SET_STRATEGIES updatedStrategies).

Definition markNotificationRead (notificationId : string) : M unit :=
  dispatch (MARK_NOTIFICATION notificationId true);;
  acknowledgeNotification notificationId.

Definition handleRealtimeMessage (message : RealtimeMessage.t) : M unit :=
  match message with
  | RealtimeMessage.balance_update payload =>
      dispatch (UPSERT_BALANCES payload)
  | RealtimeMessage.position_update payload =>
      dispatch (UPSERT_POSITION payload)
  | RealtimeMessage.order_update payload =>
      dispatch (UPSERT_ORDER payload)
  | RealtimeMessage.trade_update payload =>
      dispatch (UPSERT_TRADE payload)
  | RealtimeMessage.risk_update payload =>
      setRiskCache payload;;
      dispatch (SET_RISK payload)
  | RealtimeMessage.notification payload =>
      dispatch (ADD_NOTIFICATION payload)
  | RealtimeMessage.other _ _ => mret ()
  end.

(** The world when the modules have been loaded and the provider mounts:
    [strategyCache] is a copy of [mockStrategies], [riskCache] one of
    [mockRiskMetrics], and the store is [initialState]. *)
Definition startup (clock : nat -> Timestamp) : World :=
  {| store := initialState; strategyCache := mockStrategies;
     riskCache := JSON_copy mockRiskMetrics; dispatched := [];
     clock := clock; reads := 0 |}.

End Dashboard.

(** ** The realtime transports ([utils/websocket])

    The repository holds two [WebSocketClient] classes: the JavaScript one and
    the TypeScript one.  Both run against the same browser facilities: sockets
    with a [readyState], and the timeout table of [window].  Time is logical,
    in milliseconds.  Every timeout either class registers has the same
    callback, [() => this.connect()], so a pending timeout is its id and its
    due time.  Listeners registered with [on] are called by [emit] and do not
    touch the client, so they are left out. *)

Module Browser.
Inductive ReadyState := CONNECTING | OPEN | CLOSING | CLOSED.

#[global] Instance ReadyState_eq_dec : EqDecision ReadyState.
Proof. solve_decision. Defined.

Record t := {
  time : Z;
  timers : list (nat * Z);
  next_timer : nat;
  sockets : list ReadyState }.

(** [window.setTimeout(callback, delay)]: a fresh id, never zero. *)
Definition setTimeout (delay : Z) (b : t) : nat * t :=
  (next_timer b,
   {| time := time b; timers := timers b ++ [(next_timer b, time b + delay)];
      next_timer := S (next_timer b); sockets := sockets b |}).

Definition clearTimeout (id : nat) (b : t) : t :=
  {| time := time b; timers := filter (λ p, p.1 ≠ id) (timers b);
     next_timer := next_timer b; sockets := sockets b |}.

(** [new WebSocket(url)] for a well-formed url: a socket that is connecting. *)
Definition new_WebSocket (b : t) : nat * t :=
  (length (sockets b),
   {| time := time b; timers := timers b; next_timer := next_timer b;
      sockets := sockets b ++ [CONNECTING] |}).

Definition set_readyState (i : nat) (s : ReadyState) (b : t) : t :=
  {| time := time b; timers := timers b; next_timer := next_timer b;
     sockets := <[i := s]> (sockets b) |}.

(** [ws.close()]: starts the closing handshake of a socket that is connecting
    or open, and does nothing otherwise; the [close] event comes later. *)
Definition close (i : nat) (b : t) : t :=
  match sockets b !! i with
  | Some CONNECTING | Some OPEN => set_readyState i CLOSING b
  | _ => b
  end.

Definition advance (dt : Z) (b : t) : t :=
  {| time := time b + dt; timers := timers b; next_timer := next_timer b;
     sockets := sockets b |}.

(** The timeout [id] is pending and due. *)
Definition due (id : nat) (b : t) : bool :=
  bool_decide (Exists (λ p, p.1 = id ∧ p.2 <= time b) (timers b)).

Definition fresh : t :=
  {| time := 0; timers := []; next_timer := 1; sockets := [] |}.
End Browser.

(** What can happen to a client: calls of its owner, events of its sockets,
    a timeout that fires, time that passes. *)
Inductive TransportEvent :=
| call_connect
| call_disconnect
| socket_opened (i : nat)
| socket_closed (i : nat)
| timeout_fired (id : nat)
| elapsed (dt : Z).

(** *** The TypeScript class *)
Module WebSocketClientTs.
Import Browser.

Record t := {
  url_ok : bool;
  ws : option nat;
  reconnectTimer : option nat;
  manualClose : bool;
  browser : Browser.t;
  reconnects : nat }.

Definition reconnectInterval : Z := 5000.

Definition with_browser (b : Browser.t) (c : t) : t :=
  {| url_ok := url_ok c; ws := ws c; reconnectTimer := reconnectTimer c;
     manualClose := manualClose c; browser := b; reconnects := reconnects c |}.

(** [if (this.reconnectTimer)]: a number is truthy unless it is zero. *)
Definition timer_set (v : option nat) : bool :=
  match v with
  | Some id => negb (Nat.eqb id 0)
  | None => false
  end.

Definition scheduleReconnect (c : t) : t :=
  let b :=
    if timer_set (reconnectTimer c)
    then clearTimeout (default 0%nat (reconnectTimer c)) (browser c)
    else browser c in
  let (id, b') := setTimeout reconnectInterval b in
  {| url_ok := url_ok c; ws := ws c; reconnectTimer := Some id;
     manualClose := manualClose c; browser := b'; reconnects := reconnects c |}.

(** [new window.WebSocket(url)] throws on a malformed url, which the [catch]
    turns into [scheduleReconnect]. *)
Definition connect (c : t) : t :=
  if bool_decide ((ws c ≫= λ i, sockets (browser c) !! i) = Some OPEN)
  then c
  else if url_ok c then
    let (i, b') := new_WebSocket (browser c) in
    {| url_ok := url_ok c; ws := Some i; reconnectTimer := reconnectTimer c;
       manualClose := manualClose c; browser := b'; reconnects := reconnects c |}
  else scheduleReconnect c.

(** [ws.onclose] *)
Definition onclose (c : t) : t :=
  if negb (manualClose c) then scheduleReconnect c else c.

Definition disconnect (c : t) : t :=
  let b1 :=
    if timer_set (reconnectTimer c)
    then clearTimeout (default 0%nat (reconnectTimer c)) (browser c)
    else browser c in
  let timer1 :=
    if timer_set (reconnectTimer c) then None else reconnectTimer c in
  let b2 :=
    match ws c with
    | Some i => close i b1
    | None => b1
    end in
  {| url_ok := url_ok c; ws := None; reconnectTimer := timer1;
     manualClose := true; browser := b2; reconnects := reconnects c |}.

(** One event; [None] when the event cannot happen in this state. *)
Definition step (e : TransportEvent) (c : t) : option t :=
  match e with
  | call_connect => Some (connect c)
  | call_disconnect => Some (disconnect c)
  | socket_opened i =>
      if bool_decide (sockets (browser c) !! i = Some CONNECTING)
      then Some (with_browser (set_readyState i OPEN (browser c)) c)
      else None
  | socket_closed i =>
      match sockets (browser c) !! i with
      | Some CLOSED | None => None
      | Some _ =>
          Some (onclose (with_browser (set_readyState i CLOSED (browser c)) c))
      end
  | timeout_fired id =>
      if due id (browser c)
      then
        let c1 := with_browser (clearTimeout id (browser c)) c in
        Some (connect
                {| url_ok := url_ok c1; ws := ws c1;
                   reconnectTimer := reconnectTimer c1;
                   manualClose := manualClose c1; browser := browser c1;
                   reconnects := S (reconnects c1) |})
      else None
  | elapsed dt =>
      if 0 <=? dt then Some (with_browser (advance dt (browser c)) c) else None
  end.

Fixpoint run (es : list TransportEvent) (c : t) : option t :=
  match es with
  | [] => Some c
  | e :: es' =>
      match step e c with
      | Some c' => run es' c'
      | None => None
      end
  end.

Definition create (url_ok : bool) : t :=
  {| url_ok := url_ok; ws := None; reconnectTimer := None;
     manualClose := false; browser := Browser.fresh; reconnects := 0 |}.
End WebSocketClientTs.

(** *** The JavaScript class *)
Module WebSocketClientJs.
Import Browser.

Record t := {
  url_ok : bool;
  ws : option nat;
  browser : Browser.t;
  reconnects : nat }.

Definition reconnectInterval : Z := 5000.

Definition with_browser (b : Browser.t) (c : t) : t :=
  {| url_ok := url_ok c; ws := ws c; browser := b; reconnects := reconnects c |}.

(** A malformed url makes [new WebSocket(url)] throw; the [catch] only logs,
    and [this.ws] keeps its value. *)
Definition connect (c : t) : t :=
  if url_ok c then
    let (i, b') := new_WebSocket (browser c) in
    {| url_ok := url_ok c; ws := Some i; browser := b';
       reconnects := reconnects c |}
  else c.

(** [ws.onclose] *)
Definition onclose (c : t) : t :=
  with_browser (setTimeout reconnectInterval (browser c)).2 c.

Definition disconnect (c : t) : t :=
  match ws c with
  | Some i => with_browser (close i (browser c)) c
  | None => c
  end.

Definition step (e : TransportEvent) (c : t) : option t :=
  match e with
  | call_connect => Some (connect c)
  | call_disconnect => Some (disconnect c)
  | socket_opened i =>
      if bool_decide (sockets (browser c) !! i = Some CONNECTING)
      then Some (with_browser (set_readyState i OPEN (browser c)) c)
      else None
  | socket_closed i =>
      match sockets (browser c) !! i with
      | Some CLOSED | None => None
      | Some _ =>
          Some (onclose (with_browser (set_readyState i CLOSED (browser c)) c))
      end
  | timeout_fired id =>
      if due id (browser c)
      then
        let c1 := with_browser (clearTimeout id (browser c)) c in
        Some (connect
                {| url_ok := url_ok c1; ws := ws c1; browser := browser c1;
                   reconnects := S (reconnects c1) |})
      else None
  | elapsed dt =>
      if 0 <=? dt then Some (with_browser (advance dt (browser c)) c) else None
  end.

Fixpoint run (es : list TransportEvent) (c : t) : option t :=
  match es with
  | [] => Some c
  | e :: es' =>
      match step e c with
      | Some c' => run es' c'
      | None => None
      end
  end.

Definition create (url_ok : bool) : t :=
  {| url_ok := url_ok; ws := None; browser := Browser.fresh; reconnects := 0 |}.
End WebSocketClientJs.

(** * Properties *)

(** ** Sorting *)

Section ArraySortFacts.
Context {A : Type} (key : A -> Z).

Definition by_key_desc (a b : A) : Z := key b - key a.

(** Descending by key; neighbours may have equal keys. *)
Definition descending (l : list A) : Prop :=
  StronglySorted (λ a b, key b <= key a) l.

(** Descending by key with no two keys equal. *)
Definition strictly_descending (l : list A) : Prop :=
  StronglySorted (λ a b, key b < key a) l.

Lemma sort_insert_perm (x : A) (l : list A) :
  sort_insert by_key_desc x l ≡ₚ x :: l.
Proof.
  induction l as [|y l IH]; simpl; [done|].
  destruct (by_key_desc x y <=? 0); [done|].
  rewrite IH. apply Permutation_swap.
Qed.

Lemma Array_sort_perm (l : list A) : Array_sort by_key_desc l ≡ₚ l.
Proof.
  induction l as [|x l IH]; simpl; [done|].
  rewrite sort_insert_perm. by rewrite IH.
Qed.

Lemma sort_insert_descending (x : A) (l : list A) :
  descending l -> descending (sort_insert by_key_desc x l).
Proof.
  unfold descending.
  induction l as [|y l IH]; simpl; intros Hl.
  - repeat constructor.
  - destruct (Z.leb_spec (by_key_desc x y) 0) as [Hle|Hgt];
      unfold by_key_desc in *.
    + constructor; [done|].
      apply StronglySorted_inv in Hl as [_ Hy].
      constructor; [lia|].
      eapply Forall_impl; [exact Hy|]. simpl. intros; lia.
    + apply StronglySorted_inv in Hl as [Hl Hy].
      constructor; [by apply IH|].
      rewrite sort_insert_perm. constructor; [lia|done].
Qed.

Lemma Array_sort_descending (l : list A) :
  descending (Array_sort by_key_desc l).
Proof.
  induction l as [|x l IH]; simpl; [constructor|].
  by apply sort_insert_descending.
Qed.

(** The sort leaves a descending list as it is: the stable order of equal
    keys is the order they came in. *)
Lemma Array_sort_fixed (l : list A) :
  descending l -> Array_sort by_key_desc l = l.
Proof.
  unfold descending.
  induction l as [|x l IH]; simpl; intros Hl; [done|].
  apply StronglySorted_inv in Hl as [Hl Hx].
  rewrite IH by done.
  destruct l as [|y l]; simpl; [done|].
  apply Forall_cons in Hx as [Hxy _].
  unfold by_key_desc.
  destruct (Z.leb_spec (key y - key x) 0); [done|lia].
Qed.
End ArraySortFacts.

(** ** Upsert by id into a collection ordered by timestamp

    Orders and trades are handled by the same expression of the reducer; the
    interface below names what it uses of an entry. *)

Class Stamped (A : Type) := { ident : A -> string; stamp : A -> Timestamp }.

#[global] Instance Order_stamped : Stamped Order.t :=
  {| ident := Order.id; stamp := Order.timestamp |}.
#[global] Instance Trade_stamped : Stamped Trade.t :=
  {| ident := Trade.id; stamp := Trade.timestamp |}.

Section Upsert.
Context `{Stamped A}.

Definition upsert (payload : A) (l : list A) : list A :=
  Array_sort (λ a b, stamp b - stamp a)
    (payload :: filter (λ x, ident x ≠ ident payload) l).

Definition one_per_id (l : list A) : Prop := NoDup (ident <$> l).

(** The entry written last for [i] in a sequence of writes. *)
Definition lastWritten (i : string) (writes : list A) : option A :=
  last (filter (λ x, ident x = i) writes).

Lemma upsert_perm (p : A) (l : list A) :
  upsert p l ≡ₚ p :: filter (λ x, ident x ≠ ident p) l.
Proof. apply (Array_sort_perm stamp). Qed.

Lemma upsert_descending (p : A) (l : list A) : descending stamp (upsert p l).
Proof. apply (Array_sort_descending stamp). Qed.

Lemma elem_of_upsert (p x : A) (l : list A) :
  x ∈ upsert p l <-> x = p ∨ (x ∈ l ∧ ident x ≠ ident p).
Proof.
  rewrite upsert_perm, elem_of_cons, list_elem_of_filter. tauto.
Qed.

Lemma one_per_id_filter (P : A -> Prop) `{∀ x, Decision (P x)} (l : list A) :
  one_per_id l -> one_per_id (filter P l).
Proof.
  unfold one_per_id. intros Hl.
  eapply sublist_NoDup; [exact Hl|].
  apply fmap_sublist, sublist_filter.
Qed.

Lemma upsert_one_per_id (p : A) (l : list A) :
  one_per_id l -> one_per_id (upsert p l).
Proof.
  intros Hl. unfold one_per_id. rewrite upsert_perm. simpl.
  apply NoDup_cons. split.
  - rewrite list_elem_of_fmap. intros (x & Hx & Hin).
    apply list_elem_of_filter in Hin as [Hne _]. congruence.
  - by apply one_per_id_filter.
Qed.

(** Writing [p] after [writes]. *)
Lemma lastWritten_snoc (i : string) (writes : list A) (p : A) :
  lastWritten i (writes ++ [p]) =
  if decide (ident p = i) then Some p else lastWritten i writes.
Proof.
  unfold lastWritten. rewrite filter_app, filter_cons, filter_nil.
  destruct (decide (ident p = i)).
  - by rewrite last_snoc.
  - by rewrite app_nil_r.
Qed.

Lemma lastWritten_ident (i : string) (writes : list A) (x : A) :
  lastWritten i writes = Some x -> ident x = i.
Proof.
  unfold lastWritten. intros Hlast.
  apply last_Some_elem_of, list_elem_of_filter in Hlast. tauto.
Qed.

(** The collection after a sequence of upserts holds, for each id, the entry
    written last, or the initial one when the id was never written. *)
Lemma elem_of_upserts (init writes : list A) (x : A) :
  x ∈ foldl (λ l p, upsert p l) init writes <->
  lastWritten (ident x) writes = Some x
  ∨ (lastWritten (ident x) writes = None ∧ x ∈ init).
Proof.
  induction writes as [|p writes IH] using rev_ind.
  - simpl. unfold lastWritten. simpl.
    split; [by right|]. by intros [?|[_ ?]].
  - rewrite foldl_app. simpl. rewrite elem_of_upsert, IH, lastWritten_snoc.
    destruct (decide (ident p = ident x)) as [Heq|Hne].
    + split.
      * intros [->|[_ Hx]]; [by left|]. congruence.
      * intros [[= ->]|[? _]]; [by left|done].
    + split.
      * intros [->|[Hx _]]; [done|exact Hx].
      * intros Hx. right. split; [exact Hx|congruence].
Qed.

Lemma upserts_one_per_id (init writes : list A) :
  one_per_id init -> one_per_id (foldl (λ l p, upsert p l) init writes).
Proof.
  revert init. induction writes as [|p writes IH]; simpl; intros init Hinit.
  - done.
  - by apply IH, upsert_one_per_id.
Qed.

Lemma upserts_descending (init writes : list A) :
  (writes = [] -> descending stamp init) ->
  descending stamp (foldl (λ l p, upsert p l) init writes).
Proof.
  destruct writes as [|p writes _] using rev_ind; simpl; intros Hinit.
  - by apply Hinit.
  - rewrite foldl_app. simpl. apply upsert_descending.
Qed.
End Upsert.

(** ** The reducer *)

(** What a run of upserts leaves of a collection [init]: [result] is ordered
    by timestamp, newest first, holds one entry per id, and that entry is the
    one written last for the id, or the initial one when the id was never
    written. *)
Definition upserted `{Stamped A} (init writes result : list A) : Prop :=
  descending stamp result
  ∧ one_per_id result
  ∧ ∀ x, x ∈ result <->
         lastWritten (ident x) writes = Some x
         ∨ (lastWritten (ident x) writes = None ∧ x ∈ init).

Definition upsertOrders (writes : list (Timestamp * Order.t))
  : list (Timestamp * AccountAction) :=
  map (λ w, (w.1, UPSERT_ORDER w.2)) writes.

Definition upsertTrades (writes : list (Timestamp * Trade.t))
  : list (Timestamp * AccountAction) :=
  map (λ w, (w.1, UPSERT_TRADE w.2)) writes.

Definition addNotifications (adds : list (Timestamp * Notification.t))
  : list (Timestamp * AccountAction) :=
  map (λ w, (w.1, ADD_NOTIFICATION w.2)) adds.

Definition sample_order (id : string) (timestamp : Timestamp) : Order.t := {|
  Order.id := id; Order.timestamp := timestamp; Order.symbol := "BTC/USDT";
  Order.type := LIMIT; Order.side := BUY; Order.price := 38000%Q;
  Order.quantity := 1%Q; Order.filledQuantity := 0%Q; Order.status := OPEN |}.

Definition sample_trade (id : string) (timestamp : Timestamp) : Trade.t := {|
  Trade.id := id; Trade.orderId := "ORD-1"; Trade.timestamp := timestamp;
  Trade.symbol := "BTC/USDT"; Trade.side := BUY; Trade.price := 38000%Q;
  Trade.quantity := 1%Q; Trade.fee := 0.5%Q; Trade.strategy := None |}.

Definition sample_position (symbol : string) (markPrice : number)
  : Position.t := {|
  Position.symbol := symbol; Position.direction := LONG;
  Position.size := 1%Q; Position.entryPrice := 36800%Q;
  Position.markPrice := markPrice;
  Position.pnl := {| value := 0%Q; percentage := 0%Q |};
  Position.margin := 9200%Q; Position.updatedAt := 0;
  Position.strategy := None |}.

Definition sample_notification (id : string) (timestamp : Timestamp)
  : Notification.t := {|
  Notification.id := id; Notification.category := system;
  Notification.title := "notice"; Notification.message := "";
  Notification.timestamp := timestamp; Notification.read := false;
  Notification.severity := info |}.

Lemma orders_upsertOrders (writes : list (Timestamp * Order.t))
    (state : AccountState) :
  orders (dispatchAll (upsertOrders writes) state)
  = foldl (λ l p, upsert p l) (orders state) writes.*2.
Proof.
  revert state. induction writes as [|w writes IH]; intros state; [done|].
  unfold dispatchAll in *. simpl. by rewrite IH.
Qed.

Lemma trades_upsertTrades (writes : list (Timestamp * Trade.t))
    (state : AccountState) :
  trades (dispatchAll (upsertTrades writes) state)
  = foldl (λ l p, upsert p l) (trades state) writes.*2.
Proof.
  revert state. induction writes as [|w writes IH]; intros state; [done|].
  unfold dispatchAll in *. simpl. by rewrite IH.
Qed.

Lemma upserts_upserted `{Stamped A} (init writes : list A) :
  one_per_id init ->
  (writes = [] -> descending stamp init) ->
  upserted init writes (foldl (λ l p, upsert p l) init writes).
Proof.
  intros Hids Hsorted. split; [|split].
  - by apply upserts_descending.
  - by apply upserts_one_per_id.
  - intros x. apply elem_of_upserts.
Qed.

(** Scenario of the specification: the orders [A] (ts 10) and [B] (ts 20) are
    put in place, then [C] (ts 15) is upserted. *)
Example upsert_scenario :
  Order.id <$>
    orders
      (dispatchAll
         [ (1, SET_STATE
                 {| p_balance := None; p_positions := None;
                    p_orders :=
                      Some [sample_order "A" 10; sample_order "B" 20];
                    p_trades := None; p_performance := None;
                    p_performanceRange := None; p_assetHistory := None;
                    p_assetHistoryRange := None; p_tradeStats := None;
                    p_strategies := None; p_risk := None;
                    p_notifications := None; p_loading := None;
                    p_error := None; p_lastUpdated := Some 1 |});
           (2, UPSERT_ORDER (sample_order "C" 15)) ]
         initialState)
  = ["B"; "C"; "A"].
Proof. reflexivity. Qed.




(** *** Notifications *)

Lemma with_notifications_same (state : AccountState) :
  with_notifications (notifications state) state = state.
Proof. by destruct state. Qed.

Lemma mark_absent (id : string) (read : bool) (l : list Notification.t) :
  Forall (λ n, Notification.id n ≠ id) l ->
  map (λ notification,
         if decide (Notification.id notification = id)
         then with_read read notification
         else notification) l = l.
Proof.
  induction 1 as [|n l Hn _ IH]; simpl; [done|].
  rewrite IH. by destruct (decide (Notification.id n = id)).
Qed.

(** C4, as the code has it.  For every state whose notifications hold no entry
    with the given id, MarkNotificationRead with that id returns the input
    state with [lastUpdated] set to the time of the evaluation: every other
    field, the notifications included, is as it was. *)
Theorem mark_absent_notification_only_stamps
    (now : Timestamp) (state : AccountState) (id : string) (read : bool) :
  Forall (λ n, Notification.id n ≠ id) (notifications state) ->
  accountReducer now state (MARK_NOTIFICATION id read)
  = with_lastUpdated (Some now) state.
Proof.
  intros Habsent. simpl.
  by rewrite mark_absent, with_notifications_same.
Qed.

Lemma mark_absent_notification_only_stamps_witness :
  let state :=
    with_notifications [sample_notification "notif-001" 5] initialState in
  accountReducer 9 state (MARK_NOTIFICATION "notif-404" true)
  = with_lastUpdated (Some 9) state.
Proof.
  intros state.
  apply (mark_absent_notification_only_stamps 9 state "notif-404" true).
  repeat constructor. simpl. discriminate.
Defined.

(** C4 as stated fails: on the initial state, which has no notification at
    all, the action changes [lastUpdated]. *)
Lemma mark_absent_notification_changes_state :
  Forall (λ n, Notification.id n ≠ "notif-404") (notifications initialState)
  ∧ accountReducer 9 initialState (MARK_NOTIFICATION "notif-404" true)
    ≠ initialState.
Proof. split; [constructor|discriminate]. Qed.

Lemma dispatchAll_snoc (actions : list (Timestamp * AccountAction))
    (now : Timestamp) (action : AccountAction) (state : AccountState) :
  dispatchAll (actions ++ [(now, action)]) state
  = accountReducer now (dispatchAll actions state) action.
Proof. unfold dispatchAll. by rewrite foldl_app. Qed.

Lemma take_50_cons {T} (x : T) (l : list T) :
  take 50 (x :: take 50 l) = take 50 (x :: l).
Proof.
  change (take 50 (x :: take 50 l)) with (x :: take 49 (take 50 l)).
  by rewrite take_take.
Qed.

(** After at least one AddNotification the list is the additions, newest
    first, followed by what the state had, cut at fifty. *)
Lemma notifications_addNotifications
    (adds : list (Timestamp * Notification.t)) (state : AccountState) :
  adds ≠ [] ->
  notifications (dispatchAll (addNotifications adds) state)
  = take 50 (reverse adds.*2 ++ notifications state).
Proof.
  induction adds as [|[now n] adds IH] using rev_ind; [done|]. intros _.
  unfold addNotifications. rewrite map_app. simpl.
  rewrite dispatchAll_snoc, fmap_app, reverse_app. simpl.
  destruct adds as [|a adds]; [done|].
  fold (addNotifications (a :: adds)).
  rewrite IH by done.
  apply take_50_cons.
Qed.

(** C6.  From any state, fifty-one AddNotification actions in sequence leave
    exactly fifty notifications: the fifty added last, newest first. *)
Theorem add_51_notifications_keeps_last_50
    (state : AccountState) (adds : list (Timestamp * Notification.t)) :
  length adds = 51%nat ->
  let state' := dispatchAll (addNotifications adds) state in
  length (notifications state') = 50%nat
  ∧ notifications state' = reverse (drop 1 adds.*2).
Proof.
  intros Hlen state'. subst state'.
  rewrite notifications_addNotifications by (by destruct adds).
  assert (Hrev : length (reverse adds.*2) = 51%nat)
    by (by rewrite length_reverse, length_fmap).
  rewrite take_app_le by lia.
  split.
  - rewrite length_take. lia.
  - destruct adds as [|a adds]; [done|]. simpl.
    rewrite reverse_cons, drop_0, take_app_le
      by (rewrite length_reverse, length_fmap; simpl in Hlen; lia).
    apply take_ge. rewrite length_reverse, length_fmap. simpl in Hlen. lia.
Qed.

Definition fifty_one_adds : list (Timestamp * Notification.t) :=
  map (λ i, (Z.of_nat i, sample_notification "n" (Z.of_nat i))) (seq 0 51).

Lemma add_51_notifications_keeps_last_50_witness :
  let state' := dispatchAll (addNotifications fifty_one_adds) initialState in
  length (notifications state') = 50%nat
  ∧ notifications state' = reverse (drop 1 fifty_one_adds.*2).
Proof.
  apply (add_51_notifications_keeps_last_50 initialState fifty_one_adds).
  reflexivity.
Defined.

(** *** The clock in the reducer *)

(** C5, as the code has it.  The reducer is a total function of the state,
    the action and the clock reading of the evaluation: it never throws, and
    two evaluations on the same state and action agree on every field other
    than [lastUpdated].  They agree on [lastUpdated] too for SET_STATE,
    SET_LOADING and SET_ERROR; for every other action [lastUpdated] is the
    clock reading. *)
Theorem reducer_deterministic_up_to_clock
    (now1 now2 : Timestamp) (state : AccountState) (action : AccountAction) :
  with_lastUpdated None (accountReducer now1 state action)
  = with_lastUpdated None (accountReducer now2 state action)
  ∧ match action with
    | SET_STATE _ | SET_LOADING _ | SET_ERROR _ =>
        accountReducer now1 state action = accountReducer now2 state action
    | _ =>
        lastUpdated (accountReducer now1 state action) = Some now1
        ∧ lastUpdated (accountReducer now2 state action) = Some now2
    end.
Proof. by destruct action. Qed.

(** C5 as stated fails: the same state and action, reduced at two different
    times, give two different states. *)
Lemma reducer_reads_the_clock :
  let first := accountReducer 1 initialState (UPSERT_BALANCES []) in
  let second := accountReducer 2 initialState (UPSERT_BALANCES []) in
  lastUpdated first = Some 1 ∧ lastUpdated second = Some 2 ∧ first ≠ second.
Proof. split; [reflexivity|]. split; [reflexivity|discriminate]. Qed.

(** *** Positions *)

(** The list the UPSERT_POSITION case builds. *)
Definition upsertPosition (payload : Position.t) (l : list Position.t)
  : list Position.t :=
  match
    list_find (λ position, Position.symbol position = Position.symbol payload)
      l
  with
  | Some (i, _) => <[i := payload]> l
  | None => l ++ [payload]
  end.

Definition for_symbol (symbol : string) (l : list Position.t)
  : list Position.t :=
  filter (λ position, Position.symbol position = symbol) l.

Lemma positions_UPSERT_POSITION
    (now : Timestamp) (state : AccountState) (payload : Position.t) :
  positions (accountReducer now state (UPSERT_POSITION payload))
  = upsertPosition payload (positions state).
Proof. reflexivity. Qed.

(** The payload takes the place of the first entry of its symbol, or goes to
    the end when there is none. *)
Lemma for_symbol_upsertPosition (p : Position.t) (l : list Position.t) :
  for_symbol (Position.symbol p) (upsertPosition p l)
  = p :: tail (for_symbol (Position.symbol p) l).
Proof.
  unfold upsertPosition, for_symbol.
  induction l as [|x l IH]; simpl.
  - by rewrite filter_cons_True.
  - destruct (decide (Position.symbol x = Position.symbol p)) as [Heq|Hne].
    + simpl. by rewrite filter_cons_True, (filter_cons_True _ x) by done.
    + rewrite (filter_cons_False _ x) by done.
      destruct (list_find _ l) as [[i y]|]; simpl in *;
        by rewrite filter_cons_False.
Qed.

(** C9, as the code has it.  For every state whose positions hold at most one
    entry for the symbol, two UpsertPosition actions carrying that symbol,
    applied in sequence, leave exactly one entry for it, equal to the payload
    of the second. *)
Theorem upsert_position_twice
    (now1 now2 : Timestamp) (state : AccountState) (first second : Position.t) :
  Position.symbol first = Position.symbol second ->
  (length (for_symbol (Position.symbol second) (positions state)) <= 1)%nat ->
  for_symbol (Position.symbol second)
    (positions
       (accountReducer now2
          (accountReducer now1 state (UPSERT_POSITION first))
          (UPSERT_POSITION second)))
  = [second].
Proof.
  intros Hsym Hone.
  rewrite !positions_UPSERT_POSITION, for_symbol_upsertPosition.
  rewrite <- Hsym, for_symbol_upsertPosition, Hsym. simpl.
  destruct (for_symbol _ (positions state)) as [|x [|y l]];
    simpl in *; [done|done|lia].
Qed.

Lemma upsert_position_twice_witness :
  let state :=
    with_positions
      [sample_position "ETH/USDT" 2595%Q; sample_position "BTC/USDT" 38250%Q]
      initialState in
  let first := sample_position "BTC/USDT" 38300%Q in
  let second := sample_position "BTC/USDT" 38400%Q in
  for_symbol (Position.symbol second)
    (positions
       (accountReducer 2
          (accountReducer 1 state (UPSERT_POSITION first))
          (UPSERT_POSITION second)))
  = [second].
Proof.
  intros state first second.
  apply (upsert_position_twice 1 2 state first second).
  - reflexivity.
  - vm_compute. lia.
Defined.

(** C9 as stated fails on a state that already holds two entries for the
    symbol: the upserts rewrite the first of them and leave the other. *)
Lemma upsert_position_twice_keeps_duplicate :
  let state :=
    with_positions
      [sample_position "BTC/USDT" 38250%Q; sample_position "BTC/USDT" 38260%Q]
      initialState in
  let first := sample_position "BTC/USDT" 38300%Q in
  let second := sample_position "BTC/USDT" 38400%Q in
  let result :=
    for_symbol "BTC/USDT"
      (positions
         (accountReducer 2
            (accountReducer 1 state (UPSERT_POSITION first))
            (UPSERT_POSITION second))) in
  Position.symbol first = Position.symbol second
  ∧ result = [second; sample_position "BTC/USDT" 38260%Q]
  ∧ result ≠ [second].
Proof. split; [reflexivity|]. split; [reflexivity|discriminate]. Qed.

(** ** The fallback dataset *)

Section DashboardFacts.
Variable now : Timestamp.
Variable mockHourlyHeatmap : list HeatmapCell.
Variable getMockAssetHistory : TimeRange.t -> list AssetHistoryPoint.t.
Variable backend : Backend.

(** A trade passes the filters that are supplied.  A symbol filter is
    supplied when the property is present, not empty and not ['ALL']; a side
    filter when it is present and not ['ALL']; the bounds are inclusive. *)
Definition tradeMatches (filters : option TradeFilters.t) (trade : Trade.t)
  : Prop :=
  (∀ s, filters ≫= TradeFilters.symbol = Some s ->
        s ≠ "" -> s ≠ "ALL" -> Trade.symbol trade = s)
  ∧ (∀ s, filters ≫= TradeFilters.side = Some (Only s) -> Trade.side trade = s)
  ∧ (∀ t, filters ≫= TradeFilters.start = Some t -> t <= Trade.timestamp trade)
  ∧ (∀ t, filters ≫= TradeFilters.end_ = Some t -> Trade.timestamp trade <= t).

(** The same, with the symbol filter as the specification words it:
    supplied unless absent or ['ALL']. *)
Definition tradeMatches_as_stated
    (filters : option TradeFilters.t) (trade : Trade.t) : Prop :=
  (∀ s, filters ≫= TradeFilters.symbol = Some s ->
        s ≠ "ALL" -> Trade.symbol trade = s)
  ∧ (∀ s, filters ≫= TradeFilters.side = Some (Only s) -> Trade.side trade = s)
  ∧ (∀ t, filters ≫= TradeFilters.start = Some t -> t <= Trade.timestamp trade)
  ∧ (∀ t, filters ≫= TradeFilters.end_ = Some t -> Trade.timestamp trade <= t).

Lemma truthy_spec (v : option string) :
  truthy v = true <-> ∃ s, v = Some s ∧ s ≠ "".
Proof.
  destruct v as [s|]; simpl.
  - rewrite negb_true_iff. split.
    + intros Hne. exists s. split; [done|].
      intros ->. by rewrite String.eqb_refl in Hne.
    + intros (s' & [= <-] & Hne). by apply String.eqb_neq.
  - split; [done|]. by intros (s & ? & _).
Qed.

Lemma withinRange_spec (timestamp : Timestamp) (filters : option RangeFilters) :
  withinRange timestamp filters = true <->
  (∀ t, filters ≫= range_start = Some t -> t <= timestamp)
  ∧ (∀ t, filters ≫= range_end = Some t -> timestamp <= t).
Proof.
  destruct filters as [[start end_]|]; simpl; [|by split].
  destruct start as [s|], end_ as [e|]; simpl;
    repeat match goal with
      | |- context [?a <? ?b] => destruct (Z.ltb_spec a b)
      | |- context [?a >? ?b] => rewrite (Z.gtb_ltb a b)
      end;
    split; try done;
    try (intros _; split; intros t [= <-]; lia);
    try (intros _; split; [intros t [= <-]; lia|done]);
    try (intros _; split; [done|intros t [= <-]; lia]);
    try (intros [H1 H2]; try specialize (H1 _ eq_refl);
         try specialize (H2 _ eq_refl); lia).
Qed.

Lemma symbol_filter_spec (symbol : option string) (x : string) :
  truthy symbol
  && negb (bool_decide (symbol = Some "ALL"))
  && negb (bool_decide (Some x = symbol)) = false
  <-> ∀ s, symbol = Some s -> s ≠ "" -> s ≠ "ALL" -> x = s.
Proof.
  destruct (truthy symbol) eqn:Htruthy; simpl.
  - apply truthy_spec in Htruthy as (s & -> & Hne).
    repeat case_bool_decide; simpl; split; try done;
      try (intros _ s' [= <-] _ Hall; congruence).
    intros Hx. exfalso.
    assert (s ≠ "ALL") as Hall by congruence.
    specialize (Hx s eq_refl Hne Hall). congruence.
  - split; [|done]. intros _ s -> Hne.
    assert (truthy (Some s) = true) by (apply truthy_spec; eauto).
    congruence.
Qed.

Lemma side_filter_spec (side : option (OrAll OrderSide)) (x : OrderSide) :
  match side with
  | Some (Only s) => negb (bool_decide (x = s))
  | _ => false
  end = false
  <-> ∀ s, side = Some (Only s) -> x = s.
Proof.
  destruct side as [[|s]|]; simpl; try (split; [by intros _ s' [=]|done]).
  case_bool_decide; simpl; split; try done.
  - by intros _ s' [= <-].
  - intros Hx. by specialize (Hx s eq_refl).
Qed.

Lemma tradeKept_spec (filters : option TradeFilters.t) (trade : Trade.t) :
  tradeKept filters trade = true <-> tradeMatches filters trade.
Proof.
  unfold tradeKept, tradeMatches.
  rewrite <- symbol_filter_spec, <- side_filter_spec.
  assert (Hrange :
    withinRange (Trade.timestamp trade) (trade_range <$> filters) = true
    <-> (∀ t, filters ≫= TradeFilters.start = Some t ->
              t <= Trade.timestamp trade)
        ∧ (∀ t, filters ≫= TradeFilters.end_ = Some t ->
                Trade.timestamp trade <= t)).
  { rewrite withinRange_spec. by destruct filters. }
  rewrite <- Hrange.
  destruct (truthy _ && _ && _); [by split; [|intros [? _]]|].
  destruct (match filters ≫= TradeFilters.side with
            | Some (Only _) => _
            | _ => false
            end); [by split; [|intros (_ & ? & _)]|].
  destruct (withinRange _ _); simpl; [done|].
  by split; [|intros (_ & _ & ?)].
Qed.

(** C8, as the code has it.  For every filter object (or none) the filtered
    fallback list holds exactly the fallback trades that match all supplied
    filters: symbol equal unless absent, empty or ['ALL'], side equal unless
    absent or ['ALL'], timestamp within the inclusive bounds that are
    supplied; and it holds them in the order of the dataset. *)
Theorem fallback_trades_match_filters (filters : option TradeFilters.t) :
  (∀ trade,
     trade ∈ getMockTrades now filters
     <-> trade ∈ baseTrades now ∧ tradeMatches filters trade)
  ∧ getMockTrades now filters `sublist_of` baseTrades now.
Proof.
  unfold getMockTrades. split; [|apply sublist_filter].
  intros trade. rewrite list_elem_of_filter, <- tradeKept_spec.
  rewrite Is_true_true. tauto.
Qed.

End DashboardFacts.

Example fallback_trades_btc_buys :
  Trade.id
  <$> getMockTrades 1709280000000
        (Some {| TradeFilters.start := None; TradeFilters.end_ := None;
                 TradeFilters.symbol := Some "BTC/USDT";
                 TradeFilters.side := Some (Only BUY) |})
  = ["TRD-6001"; "TRD-6007"; "TRD-6010"].
Proof. reflexivity. Qed.

(** A window from ten days to two days before the load. *)
Example fallback_trades_window :
  Trade.id
  <$> getMockTrades 1709280000000
        (Some {| TradeFilters.start := Some (1709280000000 - 10 * DAYS);
                 TradeFilters.end_ := Some (1709280000000 - 2 * DAYS);
                 TradeFilters.symbol := Some "ALL";
                 TradeFilters.side := Some ALL |})
  = ["TRD-6004"; "TRD-6005"; "TRD-6006"].
Proof. reflexivity. Qed.

(** C8 as stated fails for a symbol filter that is the empty string: the code
    takes it for no filter and returns every fallback trade, none of which
    has the empty symbol. *)
Lemma fallback_trades_empty_symbol :
  let filters :=
    Some {| TradeFilters.start := None; TradeFilters.end_ := None;
            TradeFilters.symbol := Some ""; TradeFilters.side := None |} in
  getMockTrades 1709280000000 filters = baseTrades 1709280000000
  ∧ ∃ trade,
      trade ∈ getMockTrades 1709280000000 filters
      ∧ ¬ tradeMatches_as_stated filters trade.
Proof.
  split; [reflexivity|].
  eexists. split; [apply list_elem_of_here|].
  intros (Hsymbol & _). specialize (Hsymbol "" eq_refl). simpl in Hsymbol.
  discriminate Hsymbol. discriminate.
Qed.

(** ** The provider *)

(** Every endpoint of the backend fails, whatever it is asked. *)
Definition offline (b : Backend) : Prop :=
  (∃ e, api_account_balance b = Threw e)
  ∧ (∃ e, api_account_positions b = Threw e)
  ∧ (∀ f, ∃ e, api_account_orders b f = Threw e)
  ∧ (∀ f, ∃ e, api_account_trades b f = Threw e)
  ∧ (∀ r, ∃ e, api_account_performance b r = Threw e)
  ∧ (∀ r, ∃ e, api_account_asset_history b r = Threw e)
  ∧ (∀ f, ∃ e, api_account_trade_stats b f = Threw e)
  ∧ (∃ e, api_strategies b = Threw e)
  ∧ (∀ i s, ∃ e, api_strategies_status b i s = Threw e)
  ∧ (∃ e, api_risk_metrics b = Threw e)
  ∧ (∃ e, api_notifications b = Threw e)
  ∧ (∀ i, ∃ e, api_notifications_read b i = Threw e).

(** A backend that is down. *)
Definition unreachable : Backend := {|
  api_account_balance := Threw (Some "Network Error");
  api_account_positions := Threw (Some "Network Error");
  api_account_orders := λ _, Threw (Some "Network Error");
  api_account_trades := λ _, Threw (Some "Network Error");
  api_account_performance := λ _, Threw (Some "Network Error");
  api_account_asset_history := λ _, Threw (Some "Network Error");
  api_account_trade_stats := λ _, Threw (Some "Network Error");
  api_strategies := Threw (Some "Network Error");
  api_strategies_status := λ _ _, Threw (Some "Network Error");
  api_risk_metrics := Threw (Some "Network Error");
  api_notifications := Threw (Some "Network Error");
  api_notifications_read := λ _, Threw (Some "Network Error") |}.

Lemma unreachable_offline : offline unreachable.
Proof. unfold offline, unreachable; simpl. repeat split; eauto. Qed.

Section ProviderFacts.
Variable now : Timestamp.
Variable mockHourlyHeatmap : list HeatmapCell.
Variable getMockAssetHistory : TimeRange.t -> list AssetHistoryPoint.t.
Variable backend : Backend.

(** An offline load from any world: every slice gets the fallback value of
    its resource, which for the strategies and the risk metrics is what the
    service has cached. *)
Lemma loadInitialData_offline_cached (w : World) :
  offline backend ->
  let load :=
    loadInitialData now mockHourlyHeatmap getMockAssetHistory backend in
  let w' := exec load w in
  load w = (Returned (), w')
  ∧ loading (store w') = false
  ∧ error (store w') = None
  ∧ balance (store w') = mockBalances
  ∧ positions (store w') = mockPositions now
  ∧ orders (store w') = getMockOrders now None
  ∧ trades (store w') = getMockTrades now None
  ∧ performance (store w') = Some (getMockPerformance PerformanceRange.ALL)
  ∧ assetHistory (store w') = getMockAssetHistory TimeRange._1M
  ∧ tradeStats (store w')
    = Some (getMockTradeStatistics mockHourlyHeatmap None)
  ∧ strategies (store w') = strategyCache w
  ∧ risk (store w') = Some (riskCache w)
  ∧ notifications (store w') = mockNotifications now.
Proof.
  intros (Hb & Hp & Ho & Ht & Hperf & Hh & Hs & Hst & _ & Hr & Hn & _) load w'.
  destruct Hb as [? Hb], Hp as [? Hp], (Ho None) as [? Ho'],
    (Ht None) as [? Ht'], (Hperf PerformanceRange.ALL) as [? Hperf'],
    (Hh TimeRange._1M) as [? Hh'], (Hs None) as [? Hs'], Hst as [? Hst],
    Hr as [? Hr], Hn as [? Hn].
  subst w' load. unfold exec, loadInitialData, getInitialAccountState,
    getAccountBalance, getPositions, getOrderHistory, getTradeHistory,
    getPerformanceMetrics, getAssetHistory, getTradeStatistics, getStrategies,
    getRiskMetrics, getNotifications, safeRequest, try_finally, try_catch,
    apiClient, setLoading, setError, dispatch, mbind, M_bind, mret, M_ret.
  simpl. rewrite Hb, Hp, Ho', Ht', Hperf', Hh', Hs', Hst, Hr, Hn. simpl.
  repeat split.
Qed.


(** C7.  [handleRealtimeMessage] hands each message of the six known types to
    [dispatch] exactly once, with the action of the routing table, and the
    store becomes what the reducer makes of that action; a message whose type
    is none of the six is not dispatched and leaves the account state as it
    was. *)
Theorem realtime_message_routed (message : RealtimeMessage.t) (w : World) :
  let w' := exec (handleRealtimeMessage message) w in
  let routed action :=
    dispatched w' = dispatched w ++ [action]
    ∧ store w' = accountReducer (clock w (reads w)) (store w) action in
  match message with
  | RealtimeMessage.balance_update payload => routed (UPSERT_BALANCES payload)
  | RealtimeMessage.position_update payload => routed (UPSERT_POSITION payload)
  | RealtimeMessage.order_update payload => routed (UPSERT_ORDER payload)
  | RealtimeMessage.trade_update payload => routed (UPSERT_TRADE payload)
  | RealtimeMessage.risk_update payload => routed (SET_RISK payload)
  | RealtimeMessage.notification payload => routed (ADD_NOTIFICATION payload)
  | RealtimeMessage.other _ _ => dispatched w' = dispatched w
  end
  ∧ (RealtimeMessage.type message ∉ message_types -> store w' = store w).
Proof.
  split.
  - by destruct message.
  - destruct message; simpl; try done;
      intros Hnot; exfalso; apply Hnot; unfold message_types;
      repeat first [apply list_elem_of_here | apply list_elem_of_further].
Qed.

(** The fallback of [updateStrategyStatus] returns a list: one entry per
    cached strategy, in the cache's order, with the entries of the given id
    set to the status and the others as they were. *)
Definition rewritten (strategyId : string) (status : StrategyStatus)
    (cache returned : list Strategy.t) : Prop :=
  Forall2
    (λ old new,
       if decide (Strategy.id old = strategyId)
       then ∃ t, new = with_status status t old
       else new = old)
    cache returned.

Lemma rewrite_cache_returns (strategyId : string) (status : StrategyStatus)
    (cache : list Strategy.t) (w : World) :
  ∃ returned n,
    mapM (M := M)
      (λ strategy,
         if decide (Strategy.id strategy = strategyId)
         then t ← Date_now; mret (with_status status t strategy)
         else mret strategy)
      cache w
    = (Returned returned,
       {| store := store w; strategyCache := strategyCache w;
          riskCache := riskCache w; dispatched := dispatched w;
          clock := clock w; reads := (reads w + n)%nat |})
    ∧ rewritten strategyId status cache returned.
Proof.
  revert w. induction cache as [|s cache IH]; intros w.
  - exists [], 0%nat. split; [|constructor].
    destruct w. simpl. by rewrite Nat.add_0_r.
  - cbn [mapM]. unfold mbind at 1. unfold M_bind at 1.
    destruct (decide (Strategy.id s = strategyId)) as [Hid|Hid].
    + destruct (IH (Date_now w).2) as (returned & n & Hrun & Hall).
      exists (with_status status (clock w (reads w)) s :: returned), (S n).
      split.
      * unfold mbind at 1 2. unfold M_bind at 1 2. simpl in *.
        rewrite Hrun. simpl. by rewrite Nat.add_succ_r.
      * constructor; [|done]. rewrite decide_True by done. by eexists.
    + destruct (IH w) as (returned & n & Hrun & Hall).
      exists (s :: returned), n. split.
      * unfold mbind at 1. unfold M_bind at 1. simpl in *.
        by rewrite Hrun.
      * constructor; [|done]. by rewrite decide_False.
Qed.

(** [updateStrategyStatus] always returns: the answer of the backend, or the
    rewritten cache; either way the list is the new cache, and the store is
    not touched. *)
Lemma updateStrategyStatus_returns (strategyId : string)
    (status : StrategyStatus) (w : World) :
  ∃ returned w1,
    updateStrategyStatus backend strategyId status w = (Returned returned, w1)
    ∧ match api_strategies_status backend strategyId status with
      | Returned data => returned = data
      | Threw _ => rewritten strategyId status (strategyCache w) returned
      end
    ∧ strategyCache w1 = returned
    ∧ store w1 = store w
    ∧ dispatched w1 = dispatched w
    ∧ clock w1 = clock w.
Proof.
  unfold updateStrategyStatus, safeRequest, try_catch, apiClient.
  unfold mbind at 1 2. unfold M_bind at 1 2.
  destruct (api_strategies_status backend strategyId status) as [data|e].
  - simpl. by eexists _, _.
  - unfold mbind at 1 2 3. unfold M_bind at 1 2 3.
    unfold get_strategyCache. cbn beta iota.
    destruct (rewrite_cache_returns strategyId status (strategyCache w) w)
      as (returned & n & Hrun & Hall).
    rewrite Hrun. simpl. by eexists _, _.
Qed.

Lemma toggle_absent_strategy (strategyId : string) (w : World) :
  Forall (λ item, Strategy.id item ≠ strategyId) (strategies (store w)) ->
  toggleStrategyStatus backend strategyId w
  = (updatedStrategies ← updateStrategyStatus backend strategyId running;
     dispatch (SET_STRATEGIES updatedStrategies)) w.
Proof.
  intros Habsent.
  unfold toggleStrategyStatus, get_state.
  unfold mbind at 1. unfold M_bind at 1. cbn beta iota.
  rewrite (proj2 (list_find_None _ _) Habsent). reflexivity.
Qed.

(** C10.  For a strategy id that the strategies of the store do not hold,
    [toggleStrategyStatus] still goes through: it asks the remote mutation for
    the status [running] of that id, and the strategies slice becomes the
    list [updateStrategyStatus] returns, which is the answer of the backend or,
    when the request fails, the cache with that id set to [running]. *)
Theorem toggle_absent_strategy_requests_running
    (strategyId : string) (w : World) :
  Forall (λ item, Strategy.id item ≠ strategyId) (strategies (store w)) ->
  let w' := exec (toggleStrategyStatus backend strategyId) w in
  ∃ returned,
    (updateStrategyStatus backend strategyId running w).1 = Returned returned
    ∧ match api_strategies_status backend strategyId running with
      | Returned data => returned = data
      | Threw _ => rewritten strategyId running (strategyCache w) returned
      end
    ∧ toggleStrategyStatus backend strategyId w = (Returned (), w')
    ∧ strategies (store w') = returned
    ∧ dispatched w' = dispatched w ++ [SET_STRATEGIES returned]
    ∧ strategyCache w' = returned.
Proof.
  intros Habsent w'. subst w'. unfold exec.
  rewrite (toggle_absent_strategy strategyId w Habsent).
  destruct (updateStrategyStatus_returns strategyId running w)
    as (returned & w1 & Hrun & Hreturned & Hcache & Hstore & Hlog & _).
  unfold mbind, M_bind. rewrite Hrun. simpl.
  exists returned. unfold dispatch. rewrite ?Hlog.
  repeat split; done.
Qed.
End ProviderFacts.

(** The world of the witnesses below: the modules were loaded at [loadedAt],
    the computed tables are empty, and the [n]-th reading of the clock is [n]
    milliseconds later. *)
Definition loadedAt : Timestamp := 1709280000000.
Definition sample_clock (n : nat) : Timestamp := loadedAt + Z.of_nat n.
Definition sample_world : World := startup loadedAt sample_clock.


Lemma toggle_absent_strategy_requests_running_witness :
  let w' := exec (toggleStrategyStatus unreachable "strat-404") sample_world in
  strategies (store w') = mockStrategies loadedAt
  ∧ dispatched w' = [SET_STRATEGIES (mockStrategies loadedAt)].
Proof.
  destruct (toggle_absent_strategy_requests_running unreachable "strat-404"
              sample_world)
    as (returned & Hupdate & _ & _ & Hslice & Hlog & _).
  - constructor.
  - vm_compute in Hupdate. injection Hupdate as <-.
    split; [exact Hslice|exact Hlog].
Defined.

(** Before the first load the store holds no strategy, while the cache holds
    the three mock ones: toggling the stopped [strat-003] with the backend
    down sets it to [running] in the cache and in the store. *)
Example toggle_before_load :
  (λ item, (Strategy.id item, Strategy.status item))
  <$> strategies
        (store (exec (toggleStrategyStatus unreachable "strat-003")
                  sample_world))
  = [("strat-001", running); ("strat-002", paused); ("strat-003", running)].
Proof. reflexivity. Qed.

(** ** The transports *)

Module TransportFacts.
Import Browser.

(** Events other than a [connect()] of the owner. *)
Definition not_a_connect (e : TransportEvent) : Prop :=
  match e with
  | call_connect => False
  | _ => True
  end.

(** *** The TypeScript class cancels *)

(** Every pending timeout is the one the client remembers, and ids are never
    zero. *)
Definition tidy (c : WebSocketClientTs.t) : Prop :=
  next_timer (WebSocketClientTs.browser c) ≠ 0%nat
  ∧ Forall
      (λ p, WebSocketClientTs.reconnectTimer c = Some p.1 ∧ p.1 ≠ 0%nat)
      (timers (WebSocketClientTs.browser c)).

Lemma filter_timers_tidy (id : nat) (l : list (nat * Z)) :
  Forall (λ p, p.1 = id) l -> filter (λ p, p.1 ≠ id) l = [].
Proof.
  induction 1 as [|p l Hp _ IH]; [done|].
  rewrite filter_cons_False; [exact IH|]. by intros Hne.
Qed.

Lemma ts_schedule_once (c : WebSocketClientTs.t) :
  tidy c ->
  let c' := WebSocketClientTs.scheduleReconnect c in
  let b := WebSocketClientTs.browser c in
  timers (WebSocketClientTs.browser c')
  = [(next_timer b, time b + WebSocketClientTs.reconnectInterval)]
  ∧ WebSocketClientTs.reconnectTimer c' = Some (next_timer b)
  ∧ WebSocketClientTs.manualClose c' = WebSocketClientTs.manualClose c
  ∧ WebSocketClientTs.reconnects c' = WebSocketClientTs.reconnects c.
Proof.
  intros [Hnext Htimers]. unfold WebSocketClientTs.scheduleReconnect.
  destruct (WebSocketClientTs.timer_set _) eqn:Hset; simpl.
  - destruct (WebSocketClientTs.reconnectTimer c) as [id|]; [|done]. simpl.
    rewrite filter_timers_tidy; [done|].
    eapply Forall_impl; [exact Htimers|]. simpl. intros p [[= ->] _]. done.
  - destruct (timers (WebSocketClientTs.browser c)) as [|p l]; [done|].
    apply Forall_cons in Htimers as [[Hp Hnz] _]. rewrite Hp in Hset.
    simpl in Hset. apply negb_false_iff, Nat.eqb_eq in Hset. done.
Qed.

Lemma timers_close (b : Browser.t) (i : nat) : timers (close i b) = timers b.
Proof. unfold close. by destruct (sockets b !! i) as [[]|]. Qed.

(** After [disconnect()] nothing is pending, and nothing but a [connect()] of
    the owner can change that: no timeout fires, no reconnect is attempted. *)
Lemma ts_quiet_after_disconnect (es : list TransportEvent)
    (c c' : WebSocketClientTs.t) :
  WebSocketClientTs.manualClose c = true ->
  timers (WebSocketClientTs.browser c) = [] ->
  Forall not_a_connect es ->
  WebSocketClientTs.run es c = Some c' ->
  WebSocketClientTs.reconnects c' = WebSocketClientTs.reconnects c
  ∧ timers (WebSocketClientTs.browser c') = [].
Proof.
  intros Hmanual Hnone Hes. revert c Hmanual Hnone.
  induction Hes as [|e es He _ IH]; simpl; intros c Hmanual Hnone Hrun.
  - by injection Hrun as <-.
  - destruct (WebSocketClientTs.step e c) as [c1|] eqn:Hstep; [|done].
    assert (WebSocketClientTs.manualClose c1 = true
            ∧ timers (WebSocketClientTs.browser c1) = []
            ∧ WebSocketClientTs.reconnects c1 = WebSocketClientTs.reconnects c)
      as (Hmanual1 & Hnone1 & Hcount1).
    { destruct e as [| |i|i|id|dt]; simpl in Hstep.
      - done.
      - injection Hstep as <-. unfold WebSocketClientTs.disconnect. simpl.
        split; [done|]. split; [|done].
        destruct (WebSocketClientTs.ws c);
          rewrite ?timers_close; destruct (WebSocketClientTs.timer_set _);
          simpl; by rewrite ?Hnone.
      - case_bool_decide; [|done]. by injection Hstep as <-.
      - destruct (sockets (WebSocketClientTs.browser c) !! i) as [[]|];
          try done; injection Hstep as <-;
          unfold WebSocketClientTs.onclose; simpl; by rewrite Hmanual.
      - unfold due in Hstep. rewrite Hnone in Hstep.
        rewrite bool_decide_eq_false_2 in Hstep; [done|].
        by intros ?%Exists_nil.
      - destruct (0 <=? dt); [|done]. by injection Hstep as <-. }
    destruct (IH c1 Hmanual1 Hnone1 Hrun) as [Hcount Htimers].
    split; [congruence|done].
Qed.

Lemma ts_schedule_tidy (c : WebSocketClientTs.t) :
  tidy c -> tidy (WebSocketClientTs.scheduleReconnect c).
Proof.
  intros Htidy.
  destruct (ts_schedule_once c Htidy) as (Htimers & Htimer & _).
  destruct Htidy as [Hnext _]. split.
  - unfold WebSocketClientTs.scheduleReconnect.
    by destruct (WebSocketClientTs.timer_set _).
  - rewrite Htimers, Htimer. by repeat constructor.
Qed.

Lemma ts_disconnect_clears (c : WebSocketClientTs.t) :
  tidy c ->
  let c' := WebSocketClientTs.disconnect c in
  WebSocketClientTs.manualClose c' = true
  ∧ timers (WebSocketClientTs.browser c') = []
  ∧ WebSocketClientTs.reconnects c' = WebSocketClientTs.reconnects c.
Proof.
  intros [_ Htimers]. unfold WebSocketClientTs.disconnect. simpl.
  split; [done|]. split; [|done].
  assert (Hcleared :
    timers
      (if WebSocketClientTs.timer_set (WebSocketClientTs.reconnectTimer c)
       then clearTimeout (default 0%nat (WebSocketClientTs.reconnectTimer c))
              (WebSocketClientTs.browser c)
       else WebSocketClientTs.browser c) = []).
  { destruct (timers (WebSocketClientTs.browser c)) as [|p l] eqn:Hl.
    - destruct (WebSocketClientTs.timer_set _); simpl; by rewrite Hl.
    - pose proof Htimers as Hall.
      apply Forall_cons in Htimers as [[Hp Hnz] _]. rewrite Hp. simpl.
      destruct (Nat.eqb_spec p.1 0) as [?|_]; [done|]. simpl. rewrite Hl.
      apply filter_timers_tidy.
      eapply Forall_impl; [exact Hall|]. simpl. intros q [Hq _]. congruence. }
  destruct (WebSocketClientTs.ws c); by rewrite ?timers_close.
Qed.

Lemma tidy_with_browser (c : WebSocketClientTs.t) (b : Browser.t) :
  tidy c ->
  next_timer b = next_timer (WebSocketClientTs.browser c) ->
  timers b ⊆ timers (WebSocketClientTs.browser c) ->
  tidy (WebSocketClientTs.with_browser b c).
Proof.
  intros [Hnext Htimers] Hb Hsub. split; simpl.
  - by rewrite Hb.
  - rewrite Forall_forall in *. intros p Hp. apply Htimers, Hsub, Hp.
Qed.

Lemma ts_connect_tidy (c : WebSocketClientTs.t) :
  tidy c -> tidy (WebSocketClientTs.connect c).
Proof.
  intros Htidy. unfold WebSocketClientTs.connect.
  case_bool_decide; [done|].
  destruct (WebSocketClientTs.url_ok c); [|by apply ts_schedule_tidy].
  by destruct Htidy.
Qed.

(** [tidy] holds of a new client and is kept by every event: it is an
    invariant of the class. *)
Lemma ts_create_tidy (url_ok : bool) : tidy (WebSocketClientTs.create url_ok).
Proof. split; simpl; [done|constructor]. Qed.

Lemma ts_step_tidy (e : TransportEvent) (c c' : WebSocketClientTs.t) :
  tidy c -> WebSocketClientTs.step e c = Some c' -> tidy c'.
Proof.
  intros Htidy Hstep.
  destruct e as [| |i|i|id|dt]; simpl in Hstep.
  - injection Hstep as <-. by apply ts_connect_tidy.
  - injection Hstep as <-.
    destruct (ts_disconnect_clears c Htidy) as (_ & Hnone & _).
    split; [|rewrite Hnone; constructor].
    destruct Htidy as [Hnext _]. unfold WebSocketClientTs.disconnect. simpl.
    assert (Hclose : ∀ b j, next_timer (close j b) = next_timer b).
    { intros b j. unfold close. by destruct (sockets b !! j) as [[]|]. }
    destruct (WebSocketClientTs.ws c); rewrite ?Hclose;
      by destruct (WebSocketClientTs.timer_set _).
  - case_bool_decide; [|done]. injection Hstep as <-.
    by apply tidy_with_browser.
  - assert (Honclose : ∀ c0, tidy c0 -> tidy (WebSocketClientTs.onclose c0)).
    { intros c0 H0. unfold WebSocketClientTs.onclose.
      destruct (negb _); [by apply ts_schedule_tidy|done]. }
    destruct (sockets (WebSocketClientTs.browser c) !! i) as [[]|];
      try done; injection Hstep as <-;
      by apply Honclose, tidy_with_browser.
  - destruct (due id _); [|done]. injection Hstep as <-.
    apply ts_connect_tidy.
    assert (Hcleared :
      tidy (WebSocketClientTs.with_browser
              (clearTimeout id (WebSocketClientTs.browser c)) c)).
    { apply tidy_with_browser; [done|done|]. simpl.
      intros p Hp. by apply list_elem_of_filter in Hp as [_ Hp]. }
    by destruct Hcleared.
  - destruct (0 <=? dt); [|done]. injection Hstep as <-.
    by apply tidy_with_browser.
Qed.

(** What the specification asks of a transport, on the TypeScript class: an
    open transport that nobody disconnected, hit by a close event, has one
    timeout pending, due a reconnect interval later; a [disconnect()] before
    that, whatever follows short of a new [connect()], keeps the reconnect
    from ever being attempted. *)
Lemma ts_disconnect_cancels_reconnect
    (c : WebSocketClientTs.t) (i : nat) (dt : Z) (es : list TransportEvent) :
  tidy c ->
  WebSocketClientTs.manualClose c = false ->
  WebSocketClientTs.ws c = Some i ->
  sockets (WebSocketClientTs.browser c) !! i = Some OPEN ->
  0 <= dt < WebSocketClientTs.reconnectInterval ->
  Forall not_a_connect es ->
  ∃ c1,
    WebSocketClientTs.step (socket_closed i) c = Some c1
    ∧ timers (WebSocketClientTs.browser c1)
      = [(next_timer (WebSocketClientTs.browser c),
          time (WebSocketClientTs.browser c)
          + WebSocketClientTs.reconnectInterval)]
    ∧ ∀ c2,
        WebSocketClientTs.run (elapsed dt :: call_disconnect :: es) c1
        = Some c2 ->
        WebSocketClientTs.reconnects c2 = WebSocketClientTs.reconnects c.
Proof.
  intros Htidy Hmanual Hws Hopen Hdt Hes.
  cbn [WebSocketClientTs.step]. rewrite Hopen.
  unfold WebSocketClientTs.onclose.
  set (c0 := WebSocketClientTs.with_browser _ c).
  change (WebSocketClientTs.manualClose c0)
    with (WebSocketClientTs.manualClose c).
  rewrite Hmanual. cbn [negb].
  assert (Htidy0 : tidy c0) by (destruct Htidy; by split).
  destruct (ts_schedule_once c0 Htidy0) as (Htimers & _ & _ & Hcount).
  pose proof (ts_schedule_tidy c0 Htidy0) as Htidy1.
  set (c1 := WebSocketClientTs.scheduleReconnect c0) in *.
  exists c1. split; [reflexivity|]. split; [exact Htimers|].
  intros c2. cbn [WebSocketClientTs.run WebSocketClientTs.step].
  destruct (Z.leb_spec 0 dt); [|lia].
  set (c1' := WebSocketClientTs.with_browser _ c1).
  assert (Htidy1' : tidy c1') by (destruct Htidy1; by split).
  destruct (ts_disconnect_clears c1' Htidy1') as (Hm & Hnone & Hcount').
  intros Hrun.
  eapply ts_quiet_after_disconnect in Hrun as [Hcount2 _];
    [|exact Hm|exact Hnone|exact Hes].
  rewrite Hcount2, Hcount'. exact Hcount.
Qed.

(** *** The JavaScript class does not *)

(** On the JavaScript class the close event schedules the reconnect as well,
    but [disconnect()] leaves the timeout in the table: once the interval has
    passed it fires and a new socket is opened. *)
Lemma js_disconnect_keeps_reconnect
    (c : WebSocketClientJs.t) (i : nat) (dt : Z) :
  WebSocketClientJs.url_ok c = true ->
  WebSocketClientJs.ws c = Some i ->
  sockets (WebSocketClientJs.browser c) !! i = Some OPEN ->
  timers (WebSocketClientJs.browser c) = [] ->
  0 <= dt < WebSocketClientJs.reconnectInterval ->
  ∃ c2,
    WebSocketClientJs.run
      [ socket_closed i; elapsed dt; call_disconnect;
        elapsed (WebSocketClientJs.reconnectInterval - dt);
        timeout_fired (next_timer (WebSocketClientJs.browser c)) ] c
    = Some c2
    ∧ WebSocketClientJs.reconnects c2 = S (WebSocketClientJs.reconnects c)
    ∧ length (sockets (WebSocketClientJs.browser c2))
      = S (length (sockets (WebSocketClientJs.browser c))).
Proof.
  intros Hurl Hws Hopen Hnone Hdt.
  unfold WebSocketClientJs.reconnectInterval in *.
  destruct c as [url ws [t tm nt sk] n]. simpl in *. subst url ws tm.
  rewrite Hopen.
  destruct (Z.leb_spec 0 dt); [|lia].
  destruct (Z.leb_spec 0 (5000 - dt)); [|lia].
  unfold WebSocketClientJs.onclose, WebSocketClientJs.disconnect, close. simpl.
  rewrite list_lookup_insert_eq by (by eapply lookup_lt_Some). simpl.
  unfold due. simpl.
  rewrite bool_decide_eq_true_2.
  - eexists. split; [reflexivity|]. split; [reflexivity|]. simpl.
    rewrite length_app, length_insert. simpl. lia.
  - apply Exists_cons_hd. simpl. split; [done|].
    unfold WebSocketClientJs.reconnectInterval. lia.
Qed.

(** A client is created, connects, and its socket opens; later the socket
    closes unexpectedly and the owner disconnects a second after that. *)
Definition opening : list TransportEvent := [call_connect; socket_opened 0].
Definition close_then_disconnect : list TransportEvent :=
  [socket_closed 0; elapsed 1000; call_disconnect; elapsed 4000].

Definition js_after (es : list TransportEvent) : option WebSocketClientJs.t :=
  WebSocketClientJs.run (opening ++ es) (WebSocketClientJs.create true).
Definition ts_after (es : list TransportEvent) : option WebSocketClientTs.t :=
  WebSocketClientTs.run (opening ++ es) (WebSocketClientTs.create true).

Definition js_pending (c : WebSocketClientJs.t) : list (nat * Z) :=
  timers (WebSocketClientJs.browser c).
Definition ts_pending (c : WebSocketClientTs.t) : list (nat * Z) :=
  timers (WebSocketClientTs.browser c).

(** C3 on the code.  An open client of the JavaScript class loses its
    connection and is disconnected one second later: the reconnect scheduled
    by the close event is still pending when the five seconds are over, it
    fires, and a second socket is opened.  On the TypeScript class the same
    events leave nothing pending and the timeout cannot fire. *)
Theorem js_reconnect_fires_after_disconnect :
  js_pending <$> js_after [socket_closed 0] = Some [(1%nat, 5000)]
  ∧ js_pending <$> js_after close_then_disconnect = Some [(1%nat, 5000)]
  ∧ (λ c, (WebSocketClientJs.reconnects c,
           sockets (WebSocketClientJs.browser c)))
    <$> js_after (close_then_disconnect ++ [timeout_fired 1])
    = Some (1%nat, [CLOSED; CONNECTING])
  ∧ ts_pending <$> ts_after [socket_closed 0] = Some [(1%nat, 5000)]
  ∧ ts_pending <$> ts_after close_then_disconnect = Some []
  ∧ ts_after (close_then_disconnect ++ [timeout_fired 1]) = None.
Proof. repeat split; vm_compute; reflexivity. Qed.

(** The TypeScript class never takes the manual-close mark back: a client
    that was disconnected and is connected again does not schedule anything
    when its new socket closes. *)
Lemma ts_reused_client_does_not_reconnect :
  ts_pending
  <$> ts_after [ call_disconnect; socket_closed 0; call_connect;
                 socket_opened 1; socket_closed 1 ]
  = Some [].
Proof. vm_compute. reflexivity. Qed.
End TransportFacts.

(** * The rest of the provider and its callers *)

(** ** The refresh operations and the other actions of the provider
    ([context/AccountContext.tsx]) *)

Section ProviderRest.
Variable now : Timestamp.
Variable mockHourlyHeatmap : list HeatmapCell.
Variable getMockAssetHistory : TimeRange.t -> list AssetHistoryPoint.t.
Variable backend : Backend.

Definition refreshBalances : M unit :=
  balances ← getAccountBalance backend;
  dispatch (UPSERT_BALANCES balances).

Definition refreshPositions : M unit :=
  positions ← getPositions now backend;
  t ← Date_now;
  dispatch
    (SET_STATE
       {| p_balance := None; p_positions := Some positions; p_orders := None;
          p_trades := None; p_performance := None;
          p_performanceRange := None; p_assetHistory := None;
          p_assetHistoryRange := None; p_tradeStats := None;
          p_strategies := None; p_risk := None; p_notifications := None;
          p_loading := None; p_error := None; p_lastUpdated := Some t |}).

Definition refreshOrders (filters : option OrderFilters.t) : M unit :=
  orders ← getOrderHistory now backend filters;
  t ← Date_now;
  dispatch
    (SET_STATE
       {| p_balance := None; p_positions := None; p_orders := Some orders;
          p_trades := None; p_performance := None;
          p_performanceRange := None; p_assetHistory := None;
          p_assetHistoryRange := None; p_tradeStats := None;
          p_strategies := None; p_risk := None; p_notifications := None;
          p_loading := None; p_error := None; p_lastUpdated := Some t |}).

Definition refreshTrades (filters : option TradeFilters.t) : M unit :=
  trades ← getTradeHistory now backend filters;
  t ← Date_now;
  dispatch
    (SET_STATE
       {| p_balance := None; p_positions := None; p_orders := None;
          p_trades := Some trades; p_performance := None;
          p_performanceRange := None; p_assetHistory := None;
          p_assetHistoryRange := None; p_tradeStats := None;
          p_strategies := None; p_risk := None; p_notifications := None;
          p_loading := None; p_error := None; p_lastUpdated := Some t |}).

Definition refreshPerformance (range : PerformanceRange.t) : M unit :=
  performance ← getPerformanceMetrics backend range;
  t ← Date_now;
  dispatch
    (SET_STATE
       {| p_balance := None; p_positions := None; p_orders := None;
          p_trades := None; p_performance := Some (Some performance);
          p_performanceRange := Some range; p_assetHistory := None;
          p_assetHistoryRange := None; p_tradeStats := None;
          p_strategies := None; p_risk := None; p_notifications := None;
          p_loading := None; p_error := None; p_lastUpdated := Some t |}).

Definition refreshAssetHistory (range : TimeRange.t) : M unit :=
  assetHistory ← getAssetHistory getMockAssetHistory backend range;
  t ← Date_now;
  dispatch
    (SET_STATE
       {| p_balance := None; p_positions := None; p_orders := None;
          p_trades := None; p_performance := None;
          p_performanceRange := None; p_assetHistory := Some assetHistory;
          p_assetHistoryRange := Some range; p_tradeStats := None;
          p_strategies := None; p_risk := None; p_notifications := None;
          p_loading := None; p_error := None; p_lastUpdated := Some t |}).

Definition refreshTradeStats (filters : option TradeFilters.t) : M unit :=
  tradeStats ← getTradeStatistics mockHourlyHeatmap backend filters;
  t ← Date_now;
  dispatch
    (SET_STATE
       {| p_balance := None; p_positions := None; p_orders := None;
          p_trades := None; p_performance := None;
          p_performanceRange := None; p_assetHistory := None;
          p_assetHistoryRange := None;
          p_tradeStats := Some (Some tradeStats); p_strategies := None;
          p_risk := None; p_notifications := None; p_loading := None;
          p_error := None; p_lastUpdated := Some t |}).

Definition refreshNotifications : M unit :=
  notifications ← getNotifications now backend;
  dispatch (SET_NOTIFICATIONS notifications).

(** The ten refreshes of [Promise.all] settle in any order; each writes its
    own slice and cache, and they are run here in array order.  The ranges
    are those of the state the callback was made with. *)
Definition refreshAll : M unit :=
  state ← get_state;
  setLoading true;;
  try_finally
    (try_catch
       (refreshBalances;;
        refreshPositions;;
        refreshOrders None;;
        refreshTrades None;;
        refreshPerformance (performanceRange state);;
        refreshAssetHistory (assetHistoryRange state);;
        refreshTradeStats None;;
        refreshStrategies backend;;
        refreshRisk backend;;
        refreshNotifications;;
        setError None;;
        t ← Date_now;
        dispatch
          (SET_STATE
             {| p_balance := None; p_positions := None; p_orders := None;
                p_trades := None; p_performance := None;
                p_performanceRange := None; p_assetHistory := None;
                p_assetHistoryRange := None; p_tradeStats := None;
                p_strategies := None; p_risk := None;
                p_notifications := None; p_loading := None; p_error := None;
                p_lastUpdated := Some t |}))
       (λ error,
          setError
            (Some (default "刷新账户数据失败" error))))
    (setLoading false).

Definition clearNotifications : M unit := dispatch (SET_NOTIFICATIONS []).

(** [{ ...alert, enabled }] *)
Definition with_enabled (enabled : bool) (alert : RiskAlert.t) : RiskAlert.t :=
  {| RiskAlert.id := RiskAlert.id alert; RiskAlert.type := RiskAlert.type alert;
     RiskAlert.description := RiskAlert.description alert;
     RiskAlert.threshold := RiskAlert.threshold alert;
     RiskAlert.enabled := enabled |}.

(** [{ ...risk, alerts }] *)
Definition with_alerts (alerts : list RiskAlert.t) (risk : RiskMetrics)
  : RiskMetrics :=
  {| currentExposure := currentExposure risk; maxExposure := maxExposure risk;
     leverage := leverage risk; maxLeverage := maxLeverage risk;
     marginUtilization := marginUtilization risk; var := var risk;
     riskEvents := riskEvents risk; alerts := alerts |}.

Definition updateRiskAlert (alertId : string) (enabled : bool) : M unit :=
  state ← get_state;
  match risk state with
  | None => mret ()
  | Some risk =>
      let nextRisk :=
        with_alerts
          (map (λ alert,
                  if decide (RiskAlert.id alert = alertId)
                  then with_enabled enabled alert
                  else alert)
             (alerts risk))
          risk in
      setRiskCache nextRisk;;
      dispatch (SET_RISK nextRisk)
  end.

(** ** The notification center ([components/account/NotificationCenter]) *)

(** [markAllAsRead]: one [markNotificationRead] per unread notification of the
    state the component was rendered with. *)
Definition markAllAsRead : M unit :=
  state ← get_state;
  mapM (λ item, markNotificationRead backend (Notification.id item))
    (filter (λ item, Notification.read item = false) (notifications state));;
  mret ().
End ProviderRest.

(** * Further properties *)

(** ** The sort and the upsert, continued *)

Section ArraySortMore.
Context {A : Type} (key : A -> Z).

Lemma descending_filter (P : A -> Prop) `{∀ x, Decision (P x)} (l : list A) :
  descending key l -> descending key (filter P l).
Proof.
  unfold descending. induction 1 as [|x l Hl IH Hx]; [constructor|].
  rewrite filter_cons. destruct (decide (P x)); [|done].
  constructor; [done|].
  rewrite Forall_forall in *. intros y Hy.
  apply list_elem_of_filter in Hy as [_ Hy]. by apply Hx.
Qed.

(** An entry at least as new as the whole of a list goes to its front. *)
Lemma sort_insert_front (x : A) (l : list A) :
  Forall (λ y, key y <= key x) l ->
  sort_insert (by_key_desc key) x l = x :: l.
Proof.
  destruct 1 as [|y l Hy _]; simpl; [done|].
  unfold by_key_desc. destruct (Z.leb_spec (key y - key x) 0); [done|lia].
Qed.

(** Filtering commutes with the insertion into an ordered list, and so with
    the sort: entries that compare equal keep their order, so dropping some
    of them before or after the sort is the same. *)
Lemma sort_insert_filter (P : A -> Prop) `{∀ x, Decision (P x)}
    (x : A) (l : list A) :
  descending key l ->
  filter P (sort_insert (by_key_desc key) x l)
  = if decide (P x)
    then sort_insert (by_key_desc key) x (filter P l)
    else filter P l.
Proof.
  unfold descending. induction 1 as [|y l Hl IH Hy]; simpl.
  - rewrite filter_cons, filter_nil. by destruct (decide (P x)).
  - destruct (Z.leb_spec (by_key_desc key x y) 0) as [Hle|Hgt];
      unfold by_key_desc in *.
    + rewrite filter_cons. destruct (decide (P x)); [|done].
      rewrite sort_insert_front; [done|].
      rewrite Forall_forall. intros z Hz.
      apply list_elem_of_filter in Hz as [_ Hz].
      apply elem_of_cons in Hz as [->|Hz]; [lia|].
      rewrite Forall_forall in Hy. specialize (Hy z Hz). simpl in Hy. lia.
    + rewrite (filter_cons _ y), (filter_cons _ y l), IH.
      destruct (decide (P y)), (decide (P x)); simpl; try done.
      unfold by_key_desc. by destruct (Z.leb_spec (key y - key x) 0); [lia|].
Qed.

Lemma Array_sort_filter (P : A -> Prop) `{∀ x, Decision (P x)} (l : list A) :
  filter P (Array_sort (by_key_desc key) l)
  = Array_sort (by_key_desc key) (filter P l).
Proof.
  induction l as [|x l IH]; simpl; [done|].
  rewrite sort_insert_filter by apply Array_sort_descending.
  rewrite filter_cons, IH. by destruct (decide (P x)).
Qed.

Lemma Array_sort_idemp (l : list A) :
  Array_sort (by_key_desc key) (Array_sort (by_key_desc key) l)
  = Array_sort (by_key_desc key) l.
Proof. apply Array_sort_fixed, Array_sort_descending. Qed.
End ArraySortMore.

Section UpsertMore.
Context `{Stamped A}.

Lemma filter_others_idemp (i : string) (l : list A) :
  filter (λ x, ident x ≠ i) (filter (λ x, ident x ≠ i) l)
  = filter (λ x, ident x ≠ i) l.
Proof.
  induction l as [|x l IH]; [done|].
  rewrite (filter_cons _ x l). destruct (decide (ident x ≠ i)); [|done].
  by rewrite filter_cons_True, IH.
Qed.

(** What an upsert leaves of the other ids: the entries the collection had,
    in timestamp order, ties in the order they were in. *)
Lemma upsert_others (p : A) (l : list A) :
  filter (λ x, ident x ≠ ident p) (upsert p l)
  = Array_sort (λ a b, stamp b - stamp a)
      (filter (λ x, ident x ≠ ident p) l).
Proof.
  unfold upsert.
  change (λ a b : A, stamp b - stamp a) with (by_key_desc stamp).
  rewrite (Array_sort_filter stamp), filter_cons_False by (by intros ?).
  by rewrite filter_others_idemp.
Qed.

(** A later write of an id makes an earlier write of it as if it had not
    happened. *)
Lemma upsert_overrides (p1 p2 : A) (l : list A) :
  ident p1 = ident p2 -> upsert p2 (upsert p1 l) = upsert p2 l.
Proof.
  intros Hid. unfold upsert at 1. rewrite <- Hid, upsert_others, Hid.
  change (λ a b : A, stamp b - stamp a) with (by_key_desc stamp).
  simpl. rewrite (Array_sort_idemp stamp). reflexivity.
Qed.
End UpsertMore.

(** ** The reducer, continued *)

(** X1.  A second UpsertOrder (UpsertTrade) for an id makes the first one as
    if it had not happened: the state is the one the second action alone
    gives. *)
Theorem upsert_same_id_overrides
    (t1 t2 : Timestamp) (state : AccountState)
    (o1 o2 : Order.t) (x1 x2 : Trade.t) :
  Order.id o1 = Order.id o2 ->
  Trade.id x1 = Trade.id x2 ->
  accountReducer t2 (accountReducer t1 state (UPSERT_ORDER o1))
    (UPSERT_ORDER o2)
  = accountReducer t2 state (UPSERT_ORDER o2)
  ∧ accountReducer t2 (accountReducer t1 state (UPSERT_TRADE x1))
      (UPSERT_TRADE x2)
    = accountReducer t2 state (UPSERT_TRADE x2).
Proof.
  intros Ho Hx. split.
  - pose proof (upsert_overrides o1 o2 (orders state) Ho) as Heq.
    unfold upsert in Heq. simpl in *. by rewrite Heq.
  - pose proof (upsert_overrides x1 x2 (trades state) Hx) as Heq.
    unfold upsert in Heq. simpl in *. by rewrite Heq.
Qed.

Lemma upsert_same_id_overrides_witness :
  let state := with_orders [sample_order "A" 10] initialState in
  accountReducer 2 (accountReducer 1 state (UPSERT_ORDER (sample_order "B" 5)))
    (UPSERT_ORDER (sample_order "B" 30))
  = accountReducer 2 state (UPSERT_ORDER (sample_order "B" 30))
  ∧ accountReducer 2
      (accountReducer 1 state (UPSERT_TRADE (sample_trade "T" 5)))
      (UPSERT_TRADE (sample_trade "T" 30))
    = accountReducer 2 state (UPSERT_TRADE (sample_trade "T" 30)).
Proof.
  intros state.
  apply (upsert_same_id_overrides 1 2 state (sample_order "B" 5)
           (sample_order "B" 30) (sample_trade "T" 5) (sample_trade "T" 30));
    reflexivity.
Defined.

(** X2.  On an orders (trades) collection that is ordered newest first,
    UpsertOrder (UpsertTrade) leaves every entry of another id where it was,
    relative to the others: only the payload moves.  Nothing is asked of the
    other collection of the state. *)
Theorem upsert_keeps_the_rest_in_place
    (now : Timestamp) (state : AccountState) (o : Order.t) (x : Trade.t) :
  (descending stamp (orders state) ->
   filter (λ order, Order.id order ≠ Order.id o)
     (orders (accountReducer now state (UPSERT_ORDER o)))
   = filter (λ order, Order.id order ≠ Order.id o) (orders state))
  ∧ (descending stamp (trades state) ->
     filter (λ trade, Trade.id trade ≠ Trade.id x)
       (trades (accountReducer now state (UPSERT_TRADE x)))
     = filter (λ trade, Trade.id trade ≠ Trade.id x) (trades state)).
Proof.
  split.
  - intros Ho. etrans; [exact (upsert_others o (orders state))|].
    apply (Array_sort_fixed stamp). by apply descending_filter.
  - intros Hx. etrans; [exact (upsert_others x (trades state))|].
    apply (Array_sort_fixed stamp). by apply descending_filter.
Qed.

(** The orders of the first state are ordered and its trades are not; in the
    second state it is the other way round. *)
Lemma upsert_keeps_the_rest_in_place_witness :
  let state1 :=
    with_trades [sample_trade "T1" 10; sample_trade "T2" 20]
      (with_orders
         [sample_order "C" 30; sample_order "B" 20; sample_order "A" 20]
         initialState) in
  let state2 :=
    with_trades [sample_trade "T2" 20; sample_trade "T1" 20]
      (with_orders [sample_order "A" 10; sample_order "C" 30] initialState) in
  filter (λ order, Order.id order ≠ "B")
    (orders (accountReducer 1 state1 (UPSERT_ORDER (sample_order "B" 20))))
  = [sample_order "C" 30; sample_order "A" 20]
  ∧ filter (λ trade, Trade.id trade ≠ "T3")
      (trades (accountReducer 1 state2 (UPSERT_TRADE (sample_trade "T3" 20))))
    = [sample_trade "T2" 20; sample_trade "T1" 20].
Proof.
  intros state1 state2. split.
  - apply (proj1 (upsert_keeps_the_rest_in_place 1 state1
                    (sample_order "B" 20) (sample_trade "T3" 20))).
    unfold descending. simpl. repeat constructor; simpl; lia.
  - apply (proj2 (upsert_keeps_the_rest_in_place 1 state2
                    (sample_order "B" 20) (sample_trade "T3" 20))).
    unfold descending. simpl. repeat constructor; simpl; lia.
Defined.

(** *** Positions *)

Lemma others_upsertPosition (p : Position.t) (l : list Position.t) :
  filter (λ q, Position.symbol q ≠ Position.symbol p) (upsertPosition p l)
  = filter (λ q, Position.symbol q ≠ Position.symbol p) l.
Proof.
  unfold upsertPosition.
  induction l as [|x l IH]; simpl.
  - by rewrite filter_cons_False by (by intros ?).
  - destruct (decide (Position.symbol x = Position.symbol p)) as [Heq|Hne].
    + simpl. rewrite !filter_cons_False; [done| |]; by intros ?.
    + rewrite (filter_cons_True _ x l) by done.
      destruct (list_find _ l) as [[i y]|]; simpl in *;
        by rewrite filter_cons_True, IH.
Qed.

Lemma symbols_upsertPosition (p : Position.t) (l : list Position.t) :
  Position.symbol <$> upsertPosition p l
  = if decide (Position.symbol p ∈ Position.symbol <$> l)
    then Position.symbol <$> l
    else (Position.symbol <$> l) ++ [Position.symbol p].
Proof.
  unfold upsertPosition.
  destruct (list_find _ l) as [[i y]|] eqn:Hfind.
  - apply list_find_Some in Hfind as (Hi & Hy & _).
    rewrite decide_True.
    + rewrite list_fmap_insert. apply list_insert_id.
      by rewrite list_lookup_fmap, Hi, <- Hy.
    + rewrite <- Hy. apply list_elem_of_fmap. exists y. split; [done|].
      by eapply list_elem_of_lookup_2.
  - apply list_find_None in Hfind.
    rewrite decide_False; [by rewrite fmap_app|].
    intros (q & Hq & Hin)%list_elem_of_fmap.
    rewrite Forall_forall in Hfind. by apply (Hfind q).
Qed.

(** X3.  UpsertPosition keeps one position per symbol: when no two positions
    of the state share a symbol, none do afterwards; the positions of the
    other symbols are the same, in the same order; and the list grows by one
    exactly when the symbol is new. *)
Theorem upsert_position_keeps_one_per_symbol
    (now : Timestamp) (state : AccountState) (p : Position.t) :
  NoDup (Position.symbol <$> positions state) ->
  let positions' := positions (accountReducer now state (UPSERT_POSITION p)) in
  NoDup (Position.symbol <$> positions')
  ∧ filter (λ q, Position.symbol q ≠ Position.symbol p) positions'
    = filter (λ q, Position.symbol q ≠ Position.symbol p) (positions state)
  ∧ length positions'
    = if decide (Position.symbol p ∈ Position.symbol <$> positions state)
      then length (positions state)
      else S (length (positions state)).
Proof.
  intros Hnodup positions'. subst positions'.
  rewrite positions_UPSERT_POSITION. split; [|split].
  - rewrite symbols_upsertPosition.
    destruct (decide _) as [Hin|Hnin]; [done|].
    apply NoDup_app. split; [done|]. split; [|apply NoDup_singleton].
    intros s Hs ->%list_elem_of_singleton. done.
  - apply others_upsertPosition.
  - pose proof (symbols_upsertPosition p (positions state)) as Hsym.
    apply (f_equal length) in Hsym. rewrite length_fmap in Hsym.
    rewrite Hsym. destruct (decide _); rewrite ?length_app, !length_fmap;
      simpl; lia.
Qed.

Lemma upsert_position_keeps_one_per_symbol_witness :
  let state :=
    with_positions
      [sample_position "ETH/USDT" 2595%Q; sample_position "BTC/USDT" 38250%Q]
      initialState in
  let positions' :=
    positions
      (accountReducer 1 state
         (UPSERT_POSITION (sample_position "SOL/USDT" 62.1%Q))) in
  NoDup (Position.symbol <$> positions') ∧ length positions' = 3%nat.
Proof.
  intros state positions'.
  destruct (upsert_position_keeps_one_per_symbol 1 state
              (sample_position "SOL/USDT" 62.1%Q))
    as (Hnodup & _ & Hlen).
  - simpl. apply NoDup_cons. split; [|apply NoDup_singleton].
    intros ?%list_elem_of_singleton. discriminate.
  - split; [exact Hnodup|exact Hlen].
Defined.

(** *** Actions on different slices *)

(** The part of the state an action writes, [lastUpdated] aside.  SET_STATE
    may write any number of properties and has no single slice. *)
Inductive Slice :=
| balance_slice | positions_slice | orders_slice | trades_slice | risk_slice
| notifications_slice | strategies_slice | loading_slice | error_slice.

Definition slice_of (action : AccountAction) : option Slice :=
  match action with
  | SET_STATE _ => None
  | SET_LOADING _ => Some loading_slice
  | SET_ERROR _ => Some error_slice
  | UPSERT_BALANCES _ => Some balance_slice
  | UPSERT_POSITION _ => Some positions_slice
  | UPSERT_ORDER _ => Some orders_slice
  | UPSERT_TRADE _ => Some trades_slice
  | SET_RISK _ => Some risk_slice
  | ADD_NOTIFICATION _ | SET_NOTIFICATIONS _ | MARK_NOTIFICATION _ _ =>
      Some notifications_slice
  | SET_STRATEGIES _ => Some strategies_slice
  end.

(** X4.  Two actions that write different slices can be reduced in either
    order: the two results agree on every field other than [lastUpdated].  A
    realtime update of one slice and a refresh of another do not have to be
    ordered. *)
Theorem actions_on_different_slices_commute
    (t1 t2 t3 t4 : Timestamp) (state : AccountState) (a b : AccountAction)
    (x y : Slice) :
  slice_of a = Some x ->
  slice_of b = Some y ->
  x ≠ y ->
  with_lastUpdated None (accountReducer t2 (accountReducer t1 state a) b)
  = with_lastUpdated None (accountReducer t4 (accountReducer t3 state b) a).
Proof.
  intros Ha Hb Hxy.
  destruct a, b; simpl in Ha, Hb; try discriminate;
    try reflexivity; congruence.
Qed.

Lemma actions_on_different_slices_commute_witness :
  let a := UPSERT_ORDER (sample_order "A" 10) in
  let b := MARK_NOTIFICATION "notif-001" true in
  let state :=
    with_notifications [sample_notification "notif-001" 5] initialState in
  with_lastUpdated None (accountReducer 2 (accountReducer 1 state a) b)
  = with_lastUpdated None (accountReducer 4 (accountReducer 3 state b) a).
Proof.
  intros a b state.
  apply (actions_on_different_slices_commute 1 2 3 4 state a b
           orders_slice notifications_slice); [reflexivity|reflexivity|].
  discriminate.
Defined.

(** *** The cap on notifications *)

(** Actions that put a whole list of notifications in place. *)
Definition replaces_notifications (action : AccountAction) : Prop :=
  match action with
  | SET_NOTIFICATIONS _ => True
  | SET_STATE payload => is_Some (p_notifications payload)
  | _ => False
  end.

Lemma reducer_keeps_cap (now : Timestamp) (state : AccountState)
    (action : AccountAction) :
  ¬ replaces_notifications action ->
  (length (notifications state) <= 50)%nat ->
  (length (notifications (accountReducer now state action)) <= 50)%nat.
Proof.
  intros Hkeep Hlen. destruct action; simpl in *; try done.
  - destruct (p_notifications payload); [|done].
    exfalso. apply Hkeep. by eexists.
  - rewrite length_take. lia.
  - by rewrite length_map.
Qed.

(** X5.  Once the notifications are within the cap of fifty, they stay within
    it under every run of actions that does not put a whole list in place
    (SET_NOTIFICATIONS, or SET_STATE with notifications): additions drop the
    oldest entries, and nothing else makes the list longer. *)
Theorem notifications_stay_within_cap
    (actions : list (Timestamp * AccountAction)) (state : AccountState) :
  Forall (λ ev, ¬ replaces_notifications ev.2) actions ->
  (length (notifications state) <= 50)%nat ->
  (length (notifications (dispatchAll actions state)) <= 50)%nat.
Proof.
  intros Hactions. revert state.
  induction Hactions as [|[now action] actions Haction _ IH];
    intros state Hlen; [done|].
  unfold dispatchAll in *. simpl. apply IH.
  by apply reducer_keeps_cap.
Qed.

Definition adds_then_others : list (Timestamp * AccountAction) :=
  addNotifications fifty_one_adds
  ++ [(60, MARK_NOTIFICATION "n" true);
      (61, UPSERT_ORDER (sample_order "A" 10))].

Lemma notifications_stay_within_cap_witness :
  (length (notifications (dispatchAll adds_then_others initialState))
   <= 50)%nat.
Proof.
  apply notifications_stay_within_cap.
  - apply Forall_app. split.
    + unfold addNotifications. apply Forall_fmap, Forall_forall.
      intros ev _ Hrep. exact Hrep.
    + repeat constructor; simpl; by intros ?.
  - simpl. lia.
Defined.

(** ** The data-access layer, continued *)

(** A computation that always returns and leaves the store and the log of
    dispatched actions as they were. *)
Definition quiet {T} (m : M T) : Prop :=
  ∀ w, ∃ v w',
    m w = (Returned v, w')
    ∧ store w' = store w ∧ dispatched w' = dispatched w.

Definition returns {T} (m : M T) : Prop :=
  ∀ w, ∃ v w', m w = (Returned v, w').

Lemma quiet_returns {T} (m : M T) : quiet m -> returns m.
Proof. intros Hm w. destruct (Hm w) as (v & w' & Hrun & _). eauto. Qed.

Lemma returns_bind {T U} (m : M T) (f : T -> M U) :
  returns m -> (∀ v, returns (f v)) -> returns (m ≫= f).
Proof.
  intros Hm Hf w. destruct (Hm w) as (v & w1 & Hrun).
  destruct (Hf v w1) as (u & w2 & Hrun2).
  exists u, w2. unfold mbind, M_bind. by rewrite Hrun.
Qed.

Lemma quiet_bind {T U} (m : M T) (f : T -> M U) :
  quiet m -> (∀ v, quiet (f v)) -> quiet (m ≫= f).
Proof.
  intros Hm Hf w. destruct (Hm w) as (v & w1 & Hrun & Hs1 & Hd1).
  destruct (Hf v w1) as (u & w2 & Hrun2 & Hs2 & Hd2).
  exists u, w2. unfold mbind, M_bind. rewrite Hrun.
  split; [done|]. split; congruence.
Qed.

Lemma quiet_mret {T} (v : T) : quiet (mret v).
Proof. intros w. by exists v, w. Qed.

Lemma returns_dispatch (action : AccountAction) : returns (dispatch action).
Proof. intros w. by eexists _, _. Qed.

Lemma returns_Date_now : returns Date_now.
Proof. intros w. by eexists _, _. Qed.

(** A request that is a bare call of an endpoint, with a constant fallback:
    the answer of the endpoint or the fallback, and the world as it was. *)
Lemma safeRequest_apiClient {T} (response : Outcome T) (fallback : T)
    (w : World) :
  safeRequest (apiClient response) (mret fallback) w
  = (Returned match response with
              | Returned data => data
              | Threw _ => fallback
              end, w).
Proof. unfold safeRequest, try_catch, apiClient. by destruct response. Qed.

Section ServicesQuiet.
Variable now : Timestamp.
Variable mockHourlyHeatmap : list HeatmapCell.
Variable getMockAssetHistory : TimeRange.t -> list AssetHistoryPoint.t.
Variable backend : Backend.

(** What [getStrategies] and [getRiskMetrics] do, case by case: an answer
    goes to the cache and to the caller, a failure hands out the cache. *)
Lemma getStrategies_run (w : World) :
  getStrategies backend w
  = match api_strategies backend with
    | Returned data =>
        (Returned data,
         {| store := store w; strategyCache := data;
            riskCache := riskCache w; dispatched := dispatched w;
            clock := clock w; reads := reads w |})
    | Threw _ => (Returned (strategyCache w), w)
    end.
Proof.
  unfold getStrategies, safeRequest, try_catch, apiClient, mbind, M_bind.
  by destruct (api_strategies backend).
Qed.

Lemma getRiskMetrics_run (w : World) :
  getRiskMetrics backend w
  = match api_risk_metrics backend with
    | Returned data =>
        (Returned data,
         {| store := store w; strategyCache := strategyCache w;
            riskCache := data; dispatched := dispatched w;
            clock := clock w; reads := reads w |})
    | Threw _ => (Returned (riskCache w), w)
    end.
Proof.
  unfold getRiskMetrics, safeRequest, try_catch, apiClient, mbind, M_bind.
  by destruct (api_risk_metrics backend).
Qed.

Lemma quiet_getStrategies : quiet (getStrategies backend).
Proof.
  intros w. rewrite getStrategies_run.
  destruct (api_strategies backend); by eexists _, _.
Qed.

Lemma quiet_getRiskMetrics : quiet (getRiskMetrics backend).
Proof.
  intros w. rewrite getRiskMetrics_run.
  destruct (api_risk_metrics backend); by eexists _, _.
Qed.

Lemma quiet_updateStrategyStatus (strategyId : string)
    (status : StrategyStatus) :
  quiet (updateStrategyStatus backend strategyId status).
Proof.
  intros w.
  destruct (updateStrategyStatus_returns backend strategyId status w)
    as (returned & w1 & Hrun & _ & _ & Hstore & Hlog & _).
  by exists returned, w1.
Qed.

Lemma quiet_simple {T} (response : Outcome T) (fallback : T) :
  quiet (safeRequest (apiClient response) (mret fallback)).
Proof. intros w. rewrite safeRequest_apiClient. by eexists _, _. Qed.

Lemma quiet_getInitialAccountState :
  quiet
    (getInitialAccountState now mockHourlyHeatmap getMockAssetHistory backend).
Proof.
  unfold getInitialAccountState.
  repeat (apply quiet_bind; [first
    [ apply quiet_simple | apply quiet_getStrategies
    | apply quiet_getRiskMetrics ]|intros ?]).
  apply quiet_mret.
Qed.

(** X7.  No function of the data-access layer throws, touches the store or
    dispatches: the store changes through [dispatch] in the provider only. *)
Theorem services_never_touch_the_store :
  quiet (getAccountBalance backend)
  ∧ quiet (getPositions now backend)
  ∧ (∀ filters, quiet (getOrderHistory now backend filters))
  ∧ (∀ filters, quiet (getTradeHistory now backend filters))
  ∧ (∀ range, quiet (getPerformanceMetrics backend range))
  ∧ (∀ range, quiet (getAssetHistory getMockAssetHistory backend range))
  ∧ (∀ filters, quiet (getTradeStatistics mockHourlyHeatmap backend filters))
  ∧ quiet (getStrategies backend)
  ∧ (∀ id status, quiet (updateStrategyStatus backend id status))
  ∧ quiet (getRiskMetrics backend)
  ∧ (∀ risk, quiet (setRiskCache risk))
  ∧ quiet (getNotifications now backend)
  ∧ (∀ id, quiet (acknowledgeNotification backend id))
  ∧ quiet
      (getInitialAccountState now mockHourlyHeatmap getMockAssetHistory
         backend).
Proof.
  repeat split; try intros ?;
    first
      [ apply quiet_simple | apply quiet_getStrategies
      | apply quiet_getRiskMetrics | apply quiet_updateStrategyStatus
      | apply quiet_getInitialAccountState
      | intros w; by eexists _, _ ].
Qed.
End ServicesQuiet.

(** ** The provider, continued *)

Section ProviderMore.
Variable now : Timestamp.
Variable mockHourlyHeatmap : list HeatmapCell.
Variable getMockAssetHistory : TimeRange.t -> list AssetHistoryPoint.t.
Variable backend : Backend.

(** X8.  [loadInitialData] completes whatever the backend answers: every
    request settles through [safeRequest], so the [catch] branch is never
    taken.  Exactly three actions are dispatched (SET_LOADING true, one
    SET_STATE, SET_LOADING false), and the state ends with [loading] false
    and [error] null. *)
Theorem loadInitialData_always_completes (w : World) :
  let load :=
    loadInitialData now mockHourlyHeatmap getMockAssetHistory backend in
  ∃ payload w',
    load w = (Returned (), w')
    ∧ dispatched w'
      = dispatched w ++ [SET_LOADING true; SET_STATE payload; SET_LOADING false]
    ∧ loading (store w') = false
    ∧ error (store w') = None
    ∧ is_Some (lastUpdated (store w')).
Proof.
  intros load. subst load. unfold loadInitialData, setLoading, setError.
  unfold try_finally, try_catch. unfold mbind at 1 2. unfold M_bind at 1 2.
  set (w1 := (dispatch (SET_LOADING true) w).2).
  change (dispatch (SET_LOADING true) w) with (Returned (), w1).
  cbn beta iota.
  destruct (quiet_getInitialAccountState now mockHourlyHeatmap
              getMockAssetHistory backend w1)
    as (data & w2 & Hrun & Hstore & Hlog).
  rewrite Hrun. unfold mbind, M_bind, Date_now, dispatch. simpl.
  eexists _, _. split; [reflexivity|]. simpl.
  rewrite Hlog. simpl. rewrite <- !app_assoc. simpl.
  repeat split. by eexists.
Qed.
Lemma returns_setRiskCache (risk : RiskMetrics) : returns (setRiskCache risk).
Proof. intros w. eexists _, _. reflexivity. Qed.

Lemma returns_refreshes :
  returns (refreshBalances backend)
  ∧ returns (refreshPositions now backend)
  ∧ (∀ f, returns (refreshOrders now backend f))
  ∧ (∀ f, returns (refreshTrades now backend f))
  ∧ (∀ r, returns (refreshPerformance backend r))
  ∧ (∀ r, returns (refreshAssetHistory getMockAssetHistory backend r))
  ∧ (∀ f, returns (refreshTradeStats mockHourlyHeatmap backend f))
  ∧ returns (refreshStrategies backend)
  ∧ returns (refreshRisk backend)
  ∧ returns (refreshNotifications now backend).
Proof.
  unfold refreshBalances, refreshPositions, refreshOrders, refreshTrades,
    refreshPerformance, refreshAssetHistory, refreshTradeStats,
    refreshStrategies, refreshRisk, refreshNotifications, getAccountBalance,
    getPositions, getOrderHistory, getTradeHistory, getPerformanceMetrics,
    getAssetHistory, getTradeStatistics, getNotifications.
  repeat split; try intros ?;
    repeat first
      [ apply returns_bind; [|intros ?]
      | apply returns_dispatch | apply returns_Date_now
      | apply quiet_returns, quiet_simple
      | apply quiet_returns, quiet_getStrategies
      | apply quiet_returns, quiet_getRiskMetrics
      | apply returns_setRiskCache ].
Qed.

(** Runs the first computation of a sequence, which returns by [H]. *)
Ltac run_through H w w' :=
  let v := fresh "v" in
  let E := fresh "E" in
  destruct (H w) as (v & w' & E);
  unfold mbind at 1; unfold M_bind at 1; rewrite E; clear E v;
  cbn beta iota.

(** X9.  [refreshAll] completes whatever the backend answers, in the same
    way: none of the ten refreshes can throw, so the run always reaches
    [setError(null)], and the state ends with [loading] false and [error]
    null. *)
Theorem refreshAll_always_completes (w : World) :
  ∃ w',
    refreshAll now mockHourlyHeatmap getMockAssetHistory backend w
    = (Returned (), w')
    ∧ loading (store w') = false
    ∧ error (store w') = None
    ∧ is_Some (lastUpdated (store w')).
Proof.
  destruct returns_refreshes
    as (Hb & Hp & Ho & Ht & Hperf & Hh & Hstats & Hs & Hr & Hn).
  unfold refreshAll, setLoading, setError, get_state.
  unfold try_finally, try_catch. unfold mbind at 1 2. unfold M_bind at 1 2.
  cbn beta iota.
  set (w1 := (dispatch (SET_LOADING true) w).2).
  change (dispatch (SET_LOADING true) w) with (Returned (), w1).
  cbn beta iota.
  run_through Hb w1 w2.
  run_through Hp w2 w3.
  run_through (Ho None) w3 w4.
  run_through (Ht None) w4 w5.
  run_through (Hperf (performanceRange (store w))) w5 w6.
  run_through (Hh (assetHistoryRange (store w))) w6 w7.
  run_through (Hstats None) w7 w8.
  run_through Hs w8 w9.
  run_through Hr w9 w10.
  run_through Hn w10 w11.
  unfold mbind, M_bind, Date_now, dispatch. simpl.
  eexists. split; [reflexivity|]. simpl. repeat split. by eexists.
Qed.
End ProviderMore.

(** *** The operations of the provider, one by one *)

(** The calls the provider offers to the pages ([contextValue]), the ones it
    makes itself on mount, and the handling of a realtime message. *)
Inductive Operation :=
| op_loadInitialData
| op_refreshAll
| op_refreshBalances
| op_refreshPositions
| op_refreshOrders (filters : option OrderFilters.t)
| op_refreshTrades (filters : option TradeFilters.t)
| op_refreshPerformance (range : PerformanceRange.t)
| op_refreshAssetHistory (range : TimeRange.t)
| op_refreshTradeStats (filters : option TradeFilters.t)
| op_refreshStrategies
| op_refreshRisk
| op_refreshNotifications
| op_toggleStrategyStatus (strategyId : string)
| op_markNotificationRead (notificationId : string)
| op_markAllAsRead
| op_clearNotifications
| op_updateRiskAlert (alertId : string) (enabled : bool)
| op_realtime (message : RealtimeMessage.t).

Section Operations.
Variable now : Timestamp.
Variable mockHourlyHeatmap : list HeatmapCell.
Variable getMockAssetHistory : TimeRange.t -> list AssetHistoryPoint.t.

Definition perform (backend : Backend) (op : Operation) : M unit :=
  match op with
  | op_loadInitialData =>
      loadInitialData now mockHourlyHeatmap getMockAssetHistory backend
  | op_refreshAll =>
      refreshAll now mockHourlyHeatmap getMockAssetHistory backend
  | op_refreshBalances => refreshBalances backend
  | op_refreshPositions => refreshPositions now backend
  | op_refreshOrders filters => refreshOrders now backend filters
  | op_refreshTrades filters => refreshTrades now backend filters
  | op_refreshPerformance range => refreshPerformance backend range
  | op_refreshAssetHistory range =>
      refreshAssetHistory getMockAssetHistory backend range
  | op_refreshTradeStats filters =>
      refreshTradeStats mockHourlyHeatmap backend filters
  | op_refreshStrategies => refreshStrategies backend
  | op_refreshRisk => refreshRisk backend
  | op_refreshNotifications => refreshNotifications now backend
  | op_toggleStrategyStatus strategyId =>
      toggleStrategyStatus backend strategyId
  | op_markNotificationRead notificationId =>
      markNotificationRead backend notificationId
  | op_markAllAsRead => markAllAsRead backend
  | op_clearNotifications => clearNotifications
  | op_updateRiskAlert alertId enabled => updateRiskAlert alertId enabled
  | op_realtime message => handleRealtimeMessage message
  end.

(** The strategies and the risk metrics of the store are the ones the
    services have cached. *)
Definition coherent (w : World) : Prop :=
  strategies (store w) = strategyCache w
  ∧ risk (store w) = Some (riskCache w).

Lemma updateStrategyStatus_run (backend : Backend) (strategyId : string)
    (status : StrategyStatus) (w : World) :
  ∃ returned w1,
    updateStrategyStatus backend strategyId status w = (Returned returned, w1)
    ∧ strategyCache w1 = returned
    ∧ store w1 = store w
    ∧ riskCache w1 = riskCache w
    ∧ match api_strategies_status backend strategyId status with
      | Returned data => returned = data
      | Threw _ => rewritten strategyId status (strategyCache w) returned
      end.
Proof.
  unfold updateStrategyStatus, safeRequest, try_catch, apiClient.
  unfold mbind at 1 2. unfold M_bind at 1 2.
  destruct (api_strategies_status backend strategyId status) as [data|e].
  - simpl. by eexists _, _.
  - unfold mbind at 1 2 3. unfold M_bind at 1 2 3.
    unfold get_strategyCache. cbn beta iota.
    destruct (rewrite_cache_returns strategyId status (strategyCache w) w)
      as (returned & n & Hrun & Hall).
    rewrite Hrun. simpl. by eexists _, _.
Qed.

(** An action that puts no message into the error slot. *)
Definition silent (action : AccountAction) : Prop :=
  match action with
  | SET_ERROR (Some _) => False
  | SET_STATE payload =>
      match p_error payload with
      | Some (Some _) => False
      | _ => True
      end
  | _ => True
  end.

(** A computation that returns, dispatches silent actions only, and leaves
    the error slot of the store null or as it was. *)
Definition calm {T} (m : M T) : Prop :=
  ∀ w, ∃ v w' actions,
    m w = (Returned v, w')
    ∧ dispatched w' = dispatched w ++ actions
    ∧ Forall silent actions
    ∧ (error (store w') = None ∨ error (store w') = error (store w)).

Lemma reducer_silent (t : Timestamp) (state : AccountState)
    (action : AccountAction) :
  silent action ->
  error (accountReducer t state action) = None
  ∨ error (accountReducer t state action) = error state.
Proof.
  destruct action; simpl; try (intros _; by right).
  - unfold spread. simpl. destruct (p_error payload) as [[message|]|]; simpl;
      [done|by left|by right].
  - destruct payload; [done|by left].
Qed.

Lemma calm_quiet {T} (m : M T) : quiet m -> calm m.
Proof.
  intros Hm w. destruct (Hm w) as (v & w' & Hrun & Hstore & Hlog).
  exists v, w', []. rewrite app_nil_r, Hstore. by repeat split; [..|right].
Qed.

Lemma calm_bind {T U} (m : M T) (f : T -> M U) :
  calm m -> (∀ v, calm (f v)) -> calm (m ≫= f).
Proof.
  intros Hm Hf w.
  destruct (Hm w) as (v & w1 & l1 & Hrun1 & Hlog1 & Hall1 & Herr1).
  destruct (Hf v w1) as (u & w2 & l2 & Hrun2 & Hlog2 & Hall2 & Herr2).
  exists u, w2, (l1 ++ l2). unfold mbind, M_bind. rewrite Hrun1.
  split; [done|]. split; [by rewrite Hlog2, Hlog1, app_assoc|].
  split; [by apply Forall_app|].
  destruct Herr2 as [-> | ->]; [by left|done].
Qed.

Lemma calm_dispatch (action : AccountAction) :
  silent action -> calm (dispatch action).
Proof.
  intros Hsilent w. exists (), (dispatch action w).2, [action].
  split; [done|]. split; [done|]. split; [by apply Forall_singleton|].
  by apply reducer_silent.
Qed.

Lemma calm_mapM {T U} (f : T -> M U) (l : list T) :
  (∀ x, calm (f x)) -> calm (mapM f l).
Proof.
  intros Hf. induction l as [|x l IH]; simpl; [apply calm_quiet, quiet_mret|].
  apply calm_bind; [apply Hf|]. intros y.
  apply calm_bind; [apply IH|]. intros k. apply calm_quiet, quiet_mret.
Qed.

(** A body that is calm never reaches the handler of its [catch]. *)
Lemma calm_try {T} (body : M T) (handler : option string -> M T)
    (cleanup : M unit) :
  calm body -> calm cleanup ->
  calm (try_finally (try_catch body handler) cleanup).
Proof.
  intros Hbody Hcleanup w.
  destruct (Hbody w) as (v & w1 & l1 & Hrun1 & Hlog1 & Hall1 & Herr1).
  destruct (Hcleanup w1) as (u & w2 & l2 & Hrun2 & Hlog2 & Hall2 & Herr2).
  exists v, w2, (l1 ++ l2). unfold try_finally, try_catch.
  rewrite Hrun1, Hrun2.
  split; [done|]. split; [by rewrite Hlog2, Hlog1, app_assoc|].
  split; [by apply Forall_app|].
  destruct Herr2 as [-> | ->]; [by left|done].
Qed.

Lemma quiet_Date_now : quiet Date_now.
Proof. intros w. by eexists _, _. Qed.

Lemma quiet_get_state : quiet get_state.
Proof. intros w. by eexists _, _. Qed.

Lemma quiet_setRiskCache (risk : RiskMetrics) : quiet (setRiskCache risk).
Proof. intros w. by eexists _, _. Qed.

(** One step of the proof that an operation is calm: the services are quiet,
    and every action the provider dispatches is silent. *)
Ltac calm_step :=
  first
    [ apply calm_quiet, quiet_simple
    | apply calm_quiet, quiet_getStrategies
    | apply calm_quiet, quiet_getRiskMetrics
    | apply calm_quiet, quiet_updateStrategyStatus
    | apply calm_quiet, quiet_getInitialAccountState
    | apply calm_quiet, quiet_Date_now
    | apply calm_quiet, quiet_get_state
    | apply calm_quiet, quiet_setRiskCache
    | apply calm_quiet, quiet_mret
    | (apply calm_dispatch; exact I)
    | (apply calm_bind; [|intros ?])
    | apply calm_try
    | (apply calm_mapM; intros ?) ].

Lemma calm_perform (backend : Backend) (op : Operation) :
  calm (perform backend op).
Proof.
  destruct op; unfold perform;
    unfold loadInitialData, refreshAll, refreshBalances, refreshPositions,
      refreshOrders, refreshTrades, refreshPerformance, refreshAssetHistory,
      refreshTradeStats, refreshStrategies, refreshRisk, refreshNotifications,
      toggleStrategyStatus, markNotificationRead, markAllAsRead,
      clearNotifications, setLoading, setError, getAccountBalance,
      getPositions, getOrderHistory, getTradeHistory, getPerformanceMetrics,
      getAssetHistory, getTradeStatistics, getNotifications,
      acknowledgeNotification;
    cbv zeta.
  all: try solve [repeat calm_step].
  - (* updateRiskAlert *)
    unfold updateRiskAlert.
    apply calm_bind; [apply calm_quiet, quiet_get_state|]. intros state.
    destruct (risk state); repeat calm_step.
  - (* a realtime message *)
    destruct message; simpl; repeat calm_step.
Qed.

(** X10.  No operation of the provider fails or reports an error.  Whatever
    the backend answers and whatever the state, the initial load, every
    refresh, the toggle of a strategy, the marking and the clearing of
    notifications, the update of a risk alert and the handling of a realtime
    message return.  None of them dispatches SET_ERROR with a message, or a
    SET_STATE that carries one, and the error slot of the store ends null or
    as it was: the [catch] branches of [loadInitialData] and [refreshAll] are
    never taken, every failure of a request being absorbed by
    [safeRequest]. *)
Theorem provider_never_reports_an_error
    (backend : Backend) (op : Operation) (w : World) :
  ∃ w' actions,
    perform backend op w = (Returned (), w')
    ∧ dispatched w' = dispatched w ++ actions
    ∧ Forall silent actions
    ∧ (error (store w') = None ∨ error (store w') = error (store w)).
Proof.
  destruct (calm_perform backend op w) as ([] & w' & actions & Hrun).
  by exists w', actions.
Qed.

(** X11.  The last answer survives an outage.  When the store and the caches
    agree, a refresh of the strategies or of the risk metrics against a
    backend that fails leaves those slices as they are. *)
Theorem refresh_offline_keeps_last_answer (backend : Backend) (w : World) :
  coherent w ->
  (∃ e, api_strategies backend = Threw e) ->
  (∃ e, api_risk_metrics backend = Threw e) ->
  strategies (store (exec (refreshStrategies backend) w))
  = strategies (store w)
  ∧ risk (store (exec (refreshRisk backend) w)) = risk (store w).
Proof.
  intros [Hs Hr] [e1 H1] [e2 H2].
  unfold exec, refreshStrategies, refreshRisk, mbind, M_bind.
  rewrite getStrategies_run, getRiskMetrics_run, H1, H2. simpl.
  by rewrite Hs, Hr.
Qed.
End Operations.

(** A backend that answers: one strategy, and the mock risk metrics with a
    higher leverage. *)
Definition answered_strategies : list Strategy.t :=
  [ {| Strategy.id := "strat-900"; Strategy.name := "Grid Bot";
       Strategy.status := running; Strategy.pnl := 3400%Q;
       Strategy.winRate := 0.55%Q; Strategy.trades := 180%Q;
       Strategy.description := None; Strategy.lastUpdated := loadedAt |} ].

Definition reachable : Backend := {|
  api_account_balance := Returned [];
  api_account_positions := Returned [];
  api_account_orders := λ _, Returned [sample_order "A" 10];
  api_account_trades := λ _, Returned [];
  api_account_performance := λ r, Returned (getMockPerformance r);
  api_account_asset_history := λ _, Returned [];
  api_account_trade_stats := λ _, Threw None;
  api_strategies := Returned answered_strategies;
  api_strategies_status := λ _ _, Returned answered_strategies;
  api_risk_metrics := Returned (mockRiskMetrics loadedAt);
  api_notifications := Returned [sample_notification "n-1" 5];
  api_notifications_read := λ _, Returned () |}.

(** The world after a load against the backend that answers. *)
Definition loaded_world : World :=
  exec (loadInitialData loadedAt [] (λ _, []) reachable) sample_world.

Lemma refresh_offline_keeps_last_answer_witness :
  strategies (store (exec (refreshStrategies unreachable) loaded_world))
  = answered_strategies
  ∧ risk (store (exec (refreshRisk unreachable) loaded_world))
    = Some (mockRiskMetrics loadedAt).
Proof.
  destruct (refresh_offline_keeps_last_answer unreachable loaded_world)
    as [Hs Hr].
  - split; reflexivity.
  - by eexists.
  - by eexists.
  - split; [exact Hs|exact Hr].
Defined.

(** *** Strategies, risk alerts and notifications *)

Definition sample_strategy : Strategy.t :=
  {| Strategy.id := "strat-000"; Strategy.name := "None";
     Strategy.status := stopped; Strategy.pnl := 0%Q;
     Strategy.winRate := 0%Q; Strategy.trades := 0%Q;
     Strategy.description := None; Strategy.lastUpdated := 0 |}.

(** The status [toggleStrategyStatus] asks for. *)
Definition nextStatus (status : StrategyStatus) : StrategyStatus :=
  if decide (status = running) then stopped else running.

(** X12.  For a strategy the store holds, [toggleStrategyStatus] asks the
    remote mutation to stop it when it is running and to run it when it is
    stopped or paused, going by the first strategy of that id; the strategies
    slice becomes the list [updateStrategyStatus] returns, which is the answer
    of the backend or, when the request fails, the cache with that id set to
    the status asked for. *)
Theorem toggle_present_strategy
    (backend : Backend) (strategyId : string) (w : World)
    (i : nat) (s : Strategy.t) :
  list_find (λ item, Strategy.id item = strategyId) (strategies (store w))
  = Some (i, s) ->
  let asked := nextStatus (Strategy.status s) in
  let w' := exec (toggleStrategyStatus backend strategyId) w in
  ∃ returned,
    (updateStrategyStatus backend strategyId asked w).1 = Returned returned
    ∧ match api_strategies_status backend strategyId asked with
      | Returned data => returned = data
      | Threw _ => rewritten strategyId asked (strategyCache w) returned
      end
    ∧ toggleStrategyStatus backend strategyId w = (Returned (), w')
    ∧ strategies (store w') = returned
    ∧ dispatched w' = dispatched w ++ [SET_STRATEGIES returned].
Proof.
  intros Hfind asked w'. subst asked w'. unfold exec.
  assert (Hrun :
    toggleStrategyStatus backend strategyId w
    = (updatedStrategies ←
         updateStrategyStatus backend strategyId
           (nextStatus (Strategy.status s));
       dispatch (SET_STRATEGIES updatedStrategies)) w).
  { unfold toggleStrategyStatus, get_state, nextStatus.
    unfold mbind at 1. unfold M_bind at 1. cbn beta iota.
    rewrite Hfind. simpl.
    by destruct (Strategy.status s). }
  rewrite Hrun.
  destruct (updateStrategyStatus_run backend strategyId
              (nextStatus (Strategy.status s)) w)
    as (returned & w1 & Hupdate & Hcache & Hstore & _ & Hreturned).
  unfold mbind, M_bind. rewrite Hupdate. simpl.
  exists returned. unfold dispatch. simpl.
  destruct (updateStrategyStatus_returns backend strategyId
              (nextStatus (Strategy.status s)) w)
    as (returned' & w1' & Hupdate' & _ & _ & _ & Hlog & _).
  rewrite Hupdate in Hupdate'. injection Hupdate' as <- <-.
  rewrite Hlog. repeat split; done.
Qed.

Lemma toggle_present_strategy_witness :
  let w := exec (loadInitialData loadedAt [] (λ _, []) unreachable)
             sample_world in
  let w' := exec (toggleStrategyStatus unreachable "strat-001") w in
  (λ item, (Strategy.id item, Strategy.status item))
  <$> strategies (store w')
  = [("strat-001", stopped); ("strat-002", paused); ("strat-003", stopped)].
Proof.
  intros w w'.
  destruct (toggle_present_strategy unreachable "strat-001" w 0%nat
              (default (sample_strategy) (head (mockStrategies loadedAt))))
    as (returned & Hupdate & _ & _ & Hslice & _).
  - reflexivity.
  - subst w'. rewrite Hslice. vm_compute in Hupdate.
    injection Hupdate as <-. reflexivity.
Defined.

(** X13.  [updateRiskAlert] does nothing at all while no risk metrics are
    loaded.  Otherwise the risk metrics of the store keep every field but the
    alerts, and the alerts keep their number and order.  An alert of the
    given id has its [enabled] flag set to the value handed over, an alert of
    another id keeps its flag, and every alert keeps its other fields.  The
    cache of the service gets the same value, so a later refresh against a
    failing backend still shows the change. *)
Theorem updateRiskAlert_changes_only_the_flag
    (alertId : string) (enabled : bool) (w : World) :
  match risk (store w) with
  | None => updateRiskAlert alertId enabled w = (Returned (), w)
  | Some before =>
      ∃ after w',
        updateRiskAlert alertId enabled w = (Returned (), w')
        ∧ risk (store w') = Some after
        ∧ riskCache w' = after
        ∧ (currentExposure after = currentExposure before
           ∧ maxExposure after = maxExposure before
           ∧ leverage after = leverage before
           ∧ maxLeverage after = maxLeverage before
           ∧ marginUtilization after = marginUtilization before
           ∧ var after = var before
           ∧ riskEvents after = riskEvents before)
        ∧ Forall2
            (λ old new,
               RiskAlert.id new = RiskAlert.id old
               ∧ RiskAlert.type new = RiskAlert.type old
               ∧ RiskAlert.description new = RiskAlert.description old
               ∧ RiskAlert.threshold new = RiskAlert.threshold old
               ∧ RiskAlert.enabled new
                 = if decide (RiskAlert.id old = alertId)
                   then enabled
                   else RiskAlert.enabled old)
            (alerts before) (alerts after)
        ∧ ∀ backend e,
            api_risk_metrics backend = Threw e ->
            risk (store (exec (refreshRisk backend) w')) = Some after
  end.
Proof.
  assert (Hrun :
    updateRiskAlert alertId enabled w
    = match risk (store w) with
      | Some before =>
          let after :=
            with_alerts
              (map (λ alert,
                      if decide (RiskAlert.id alert = alertId)
                      then with_enabled enabled alert
                      else alert)
                 (alerts before))
              before in
          (setRiskCache after;; dispatch (SET_RISK after)) w
      | None => (Returned (), w)
      end).
  { unfold updateRiskAlert, get_state, mbind at 1, M_bind at 1.
    by destruct (risk (store w)). }
  rewrite Hrun. clear Hrun.
  destruct (risk (store w)) as [before|]; [|done].
  eexists _, _. split; [reflexivity|]. simpl.
  split; [done|]. split; [done|]. split; [done|].
  split.
  - apply Forall2_fmap_r, Forall_Forall2_diag, Forall_forall.
    intros alert _. unfold compose.
    by destruct (decide (RiskAlert.id alert = alertId)).
  - intros backend e He.
    unfold exec, refreshRisk, mbind, M_bind.
    rewrite getRiskMetrics_run, He. reflexivity.
Qed.

(** The first of the three mock alerts is switched off after a load. *)
Lemma updateRiskAlert_changes_only_the_flag_witness :
  ∃ after w',
    updateRiskAlert "alert-001" false loaded_world = (Returned (), w')
    ∧ risk (store w') = Some after
    ∧ RiskAlert.id <$> alerts after = ["alert-001"; "alert-002"; "alert-003"]
    ∧ RiskAlert.enabled <$> alerts after = [false; true; false]
    ∧ RiskAlert.enabled <$> alerts (mockRiskMetrics loadedAt)
      = [true; true; false].
Proof.
  pose proof (updateRiskAlert_changes_only_the_flag "alert-001" false
                loaded_world) as Hupdate.
  change (risk (store loaded_world))
    with (Some (mockRiskMetrics loadedAt)) in Hupdate.
  cbv beta iota in Hupdate.
  destruct Hupdate as (after & w' & Hrun & Hrisk & _ & _ & Hall & _).
  exists after, w'. split; [exact Hrun|]. split; [exact Hrisk|].
  change (alerts (mockRiskMetrics loadedAt)) with
    [ {| RiskAlert.id := "alert-001"; RiskAlert.type := "price";
         RiskAlert.description := "BTC drawdown exceeds 5%";
         RiskAlert.threshold := Some 0.05%Q; RiskAlert.enabled := true |};
      {| RiskAlert.id := "alert-002"; RiskAlert.type := "margin";
         RiskAlert.description := "Margin utilization exceeds 60%";
         RiskAlert.threshold := Some 0.6%Q; RiskAlert.enabled := true |};
      {| RiskAlert.id := "alert-003"; RiskAlert.type := "strategy";
         RiskAlert.description := "Strategy drawdown exceeds 12%";
         RiskAlert.threshold := Some 0.12%Q; RiskAlert.enabled := false |} ]
    in Hall.
  apply Forall2_cons_inv_l in Hall as (n1 & k1 & (I1 & _ & _ & _ & E1) & Hall & ->).
  apply Forall2_cons_inv_l in Hall as (n2 & k2 & (I2 & _ & _ & _ & E2) & Hall & ->).
  apply Forall2_cons_inv_l in Hall as (n3 & k3 & (I3 & _ & _ & _ & E3) & Hall & ->).
  apply Forall2_nil_inv_l in Hall as ->.
  intros. simpl in *.
  rewrite I1, I2, I3, E1, E2, E3. by repeat split.
Defined.

(** *** Marking every notification as read *)

Lemma bind_returned {T U} (m : M T) (f : T -> M U) (w w1 : World) (v : T) :
  m w = (Returned v, w1) -> (m ≫= f) w = f v w1.
Proof. intros Hrun. unfold mbind, M_bind. by rewrite Hrun. Qed.

Definition mark_read (id : string) (n : Notification.t) : Notification.t :=
  if decide (Notification.id n = id) then with_read true n else n.

Lemma with_read_read (n : Notification.t) :
  Notification.read n = true -> with_read true n = n.
Proof. destruct n. simpl. by intros ->. Qed.

Lemma marks_fold (items l : list Notification.t) :
  foldl (λ l item, map (mark_read (Notification.id item)) l) l items
  = map (λ n,
           if decide (Notification.id n ∈ Notification.id <$> items)
           then with_read true n else n) l.
Proof.
  revert l. induction items as [|item items IH]; intros l; cbn [foldl].
  - rewrite <- (map_id l) at 1. apply map_ext. intros n.
    rewrite decide_False; [done|]. rewrite fmap_nil. by intros ?%elem_of_nil.
  - rewrite IH, map_map, fmap_cons. apply map_ext. intros n. unfold mark_read.
    destruct (decide (Notification.id n = Notification.id item)) as [Heq|Hne].
    + rewrite (decide_True (P := _ ∈ _ :: _))
        by (rewrite Heq; apply list_elem_of_here).
      destruct (decide _); [by destruct n|done].
    + destruct (decide (Notification.id n ∈ Notification.id <$> items)).
      * rewrite decide_True; [done|]. by apply list_elem_of_further.
      * rewrite decide_False; [done|].
        intros [?|?]%elem_of_cons; done.
Qed.

Lemma marks_of_unread (l : list Notification.t) :
  foldl (λ l item, map (mark_read (Notification.id item)) l) l
    (filter (λ item, Notification.read item = false) l)
  = with_read true <$> l.
Proof.
  rewrite marks_fold. apply map_ext_in. intros n Hn.
  destruct (decide _) as [Hin|Hnin]; [done|].
  destruct (Notification.read n) eqn:Hread; [by rewrite with_read_read|].
  exfalso. apply Hnin. apply list_elem_of_fmap. exists n. split; [done|].
  apply list_elem_of_filter. split; [done|]. by apply list_elem_of_In.
Qed.

Lemma markNotificationRead_run (backend : Backend) (id : string) (w : World) :
  ∃ w',
    markNotificationRead backend id w = (Returned (), w')
    ∧ notifications (store w') = map (mark_read id) (notifications (store w)).
Proof.
  unfold markNotificationRead, acknowledgeNotification, mbind, M_bind.
  unfold dispatch at 1. cbn beta iota. rewrite safeRequest_apiClient.
  eexists. split; [by destruct (api_notifications_read backend id) as [[]|]|].
  reflexivity.
Qed.

Lemma mark_each_run (backend : Backend) (items : list Notification.t)
    (w : World) :
  ∃ done w',
    mapM (λ item, markNotificationRead backend (Notification.id item)) items w
    = (Returned done, w')
    ∧ notifications (store w')
      = foldl (λ l item, map (mark_read (Notification.id item)) l)
          (notifications (store w)) items.
Proof.
  revert w. induction items as [|item items IH]; intros w.
  - by eexists _, _.
  - cbn [mapM]. unfold mbind at 1. unfold M_bind at 1.
    destruct (markNotificationRead_run backend (Notification.id item) w)
      as (w1 & Hrun & Hnotes).
    rewrite Hrun. destruct (IH w1) as (done & w2 & Hrun2 & Hnotes2).
    unfold mbind at 1. unfold M_bind at 1. simpl in *. rewrite Hrun2.
    eexists _, _. split; [reflexivity|]. simpl. by rewrite Hnotes2, Hnotes.
Qed.

(** X14.  [markAllAsRead] returns and leaves every notification of the store
    read: the list is the one it was, entry by entry and in the same order,
    with every [read] flag set. *)
Theorem markAllAsRead_marks_every_notification
    (backend : Backend) (w : World) :
  ∃ w',
    markAllAsRead backend w = (Returned (), w')
    ∧ notifications (store w') = with_read true <$> notifications (store w)
    ∧ Forall (λ n, Notification.read n = true) (notifications (store w')).
Proof.
  unfold markAllAsRead, get_state. unfold mbind at 1. unfold M_bind at 1.
  cbn beta iota.
  destruct (mark_each_run backend
              (filter (λ item, Notification.read item = false)
                 (notifications (store w))) w)
    as (done & w' & Hrun & Hnotes).
  rewrite (bind_returned _ _ _ _ _ Hrun).
  exists w'. split; [done|].
  rewrite Hnotes, marks_of_unread. split; [done|].
  apply Forall_fmap, Forall_forall. done.
Qed.

(** ** The fallback dataset, continued *)

(** An order passes the filters that are supplied: a status or side filter
    is supplied when present and not ['ALL'], a symbol filter when present,
    not empty and not ['ALL']; the bounds are inclusive. *)
Definition orderMatches (filters : option OrderFilters.t) (order : Order.t)
  : Prop :=
  (∀ s, filters ≫= OrderFilters.status = Some (Only s) ->
        Order.status order = s)
  ∧ (∀ s, filters ≫= OrderFilters.symbol = Some s ->
          s ≠ "" -> s ≠ "ALL" -> Order.symbol order = s)
  ∧ (∀ s, filters ≫= OrderFilters.side = Some (Only s) -> Order.side order = s)
  ∧ (∀ t, filters ≫= OrderFilters.start = Some t -> t <= Order.timestamp order)
  ∧ (∀ t, filters ≫= OrderFilters.end_ = Some t -> Order.timestamp order <= t).

Lemma status_filter_spec (status : option (OrAll OrderStatus))
    (x : OrderStatus) :
  match status with
  | Some (Only s) => negb (bool_decide (x = s))
  | _ => false
  end = false
  <-> ∀ s, status = Some (Only s) -> x = s.
Proof.
  destruct status as [[|s]|]; simpl; try (split; [by intros _ s' [=]|done]).
  case_bool_decide; simpl; split; try done.
  - by intros _ s' [= <-].
  - intros Hx. by specialize (Hx s eq_refl).
Qed.

Lemma orderKept_spec (filters : option OrderFilters.t) (order : Order.t) :
  orderKept filters order = true <-> orderMatches filters order.
Proof.
  unfold orderKept, orderMatches.
  rewrite <- status_filter_spec, <- symbol_filter_spec, <- side_filter_spec.
  assert (Hrange :
    withinRange (Order.timestamp order) (order_range <$> filters) = true
    <-> (∀ t, filters ≫= OrderFilters.start = Some t ->
              t <= Order.timestamp order)
        ∧ (∀ t, filters ≫= OrderFilters.end_ = Some t ->
                Order.timestamp order <= t)).
  { rewrite withinRange_spec. by destruct filters. }
  rewrite <- Hrange.
  destruct (match filters ≫= OrderFilters.status with
            | Some (Only _) => _
            | _ => false
            end); [by split; [|intros [? _]]|].
  destruct (truthy _ && _ && _); [by split; [|intros (_ & ? & _)]|].
  destruct (match filters ≫= OrderFilters.side with
            | Some (Only _) => _
            | _ => false
            end); [by split; [|intros (_ & _ & ? & _)]|].
  destruct (withinRange _ _); simpl; [done|].
  by split; [|intros (_ & _ & _ & ?)].
Qed.

(** X15.  The filtered fallback orders are exactly the fallback orders that
    pass every supplied filter (status, symbol, side, inclusive bounds), in
    the order of the dataset; without a filter object they are all twelve. *)
Theorem fallback_orders_match_filters
    (now : Timestamp) (filters : option OrderFilters.t) :
  (∀ order,
     order ∈ getMockOrders now filters
     <-> order ∈ baseOrders now ∧ orderMatches filters order)
  ∧ getMockOrders now filters `sublist_of` baseOrders now
  ∧ getMockOrders now None = baseOrders now.
Proof.
  unfold getMockOrders. split; [|split; [apply sublist_filter|done]].
  intros order. rewrite list_elem_of_filter, <- orderKept_spec.
  rewrite Is_true_true. tauto.
Qed.

Example fallback_orders_open_sells :
  Order.id
  <$> getMockOrders 1709280000000
        (Some {| OrderFilters.start := None; OrderFilters.end_ := None;
                 OrderFilters.status := Some (Only CANCELED);
                 OrderFilters.symbol := Some "";
                 OrderFilters.side := Some (Only SELL) |})
  = ["ORD-20240228-004"; "ORD-20240210-010"].
Proof. reflexivity. Qed.

(** The two datasets are written newest first, with ids that differ. *)
Lemma baseOrders_ordered (now : Timestamp) :
  descending stamp (baseOrders now) ∧ one_per_id (baseOrders now).
Proof.
  split.
  - unfold descending, baseOrders, hoursAgo, daysAgo, DAYS, HOURS.
    repeat (constructor; [|repeat (constructor; [simpl; lia|])]).
    all: constructor.
  - unfold one_per_id. simpl. by apply (bool_decide_unpack _).
Qed.

Lemma baseTrades_ordered (now : Timestamp) :
  descending stamp (baseTrades now) ∧ one_per_id (baseTrades now).
Proof.
  split.
  - unfold descending, baseTrades, hoursAgo, daysAgo, DAYS, HOURS.
    repeat (constructor; [|repeat (constructor; [simpl; lia|])]).
    all: constructor.
  - unfold one_per_id. simpl. by apply (bool_decide_unpack _).
Qed.

(** X16.  Whatever the load time and the filters, the fallback orders and
    trades come ordered by timestamp, newest first, with one entry per id;
    and so does every collection that upsert actions make of them in the
    store. *)
Theorem fallback_collections_are_ordered
    (now : Timestamp) (state : AccountState)
    (orderFilters : option OrderFilters.t)
    (tradeFilters : option TradeFilters.t)
    (orderWrites : list (Timestamp * Order.t))
    (tradeWrites : list (Timestamp * Trade.t)) :
  let orders' :=
    orders
      (dispatchAll (upsertOrders orderWrites)
         (with_orders (getMockOrders now orderFilters) state)) in
  let trades' :=
    trades
      (dispatchAll (upsertTrades tradeWrites)
         (with_trades (getMockTrades now tradeFilters) state)) in
  descending stamp orders' ∧ one_per_id orders'
  ∧ descending stamp trades' ∧ one_per_id trades'.
Proof.
  destruct (baseOrders_ordered now) as [Ho1 Ho2].
  destruct (baseTrades_ordered now) as [Ht1 Ht2].
  intros orders' trades'. subst orders' trades'.
  rewrite orders_upsertOrders, trades_upsertTrades.
  unfold getMockOrders, getMockTrades.
  split; [|split; [|split]].
  - apply upserts_descending. intros _. by apply descending_filter.
  - apply upserts_one_per_id. by apply one_per_id_filter.
  - apply upserts_descending. intros _. by apply descending_filter.
  - apply upserts_one_per_id. by apply one_per_id_filter.
Qed.

(** ** The transports, continued *)

Module TransportMore.
Import Browser.
Import TransportFacts.

(** *** The TypeScript class: one timeout at most *)

Lemma ts_step_single (e : TransportEvent) (c c' : WebSocketClientTs.t) :
  tidy c ->
  (length (timers (WebSocketClientTs.browser c)) <= 1)%nat ->
  WebSocketClientTs.step e c = Some c' ->
  (length (timers (WebSocketClientTs.browser c')) <= 1)%nat.
Proof.
  intros Htidy Hlen Hstep.
  assert (Hschedule : ∀ c0, tidy c0 ->
    (length (timers (WebSocketClientTs.browser
                       (WebSocketClientTs.scheduleReconnect c0))) <= 1)%nat).
  { intros c0 H0. destruct (ts_schedule_once c0 H0) as (-> & _). simpl. lia. }
  assert (Hconnect : ∀ c0, tidy c0 ->
    (length (timers (WebSocketClientTs.browser c0)) <= 1)%nat ->
    (length (timers (WebSocketClientTs.browser
                       (WebSocketClientTs.connect c0))) <= 1)%nat).
  { intros c0 H0 Hl. unfold WebSocketClientTs.connect.
    case_bool_decide; [done|].
    destruct (WebSocketClientTs.url_ok c0); [done|by apply Hschedule]. }
  destruct e as [| |i|i|id|dt]; simpl in Hstep.
  - injection Hstep as <-. by apply Hconnect.
  - injection Hstep as <-.
    destruct (ts_disconnect_clears c Htidy) as (_ & -> & _). simpl. lia.
  - case_bool_decide; [|done]. by injection Hstep as <-.
  - destruct (sockets (WebSocketClientTs.browser c) !! i) as [[]|];
      try done; injection Hstep as <-; unfold WebSocketClientTs.onclose;
      (destruct (negb _); [apply Hschedule; by apply tidy_with_browser|done]).
  - destruct (due id _); [|done]. injection Hstep as <-.
    assert (Hsub :
      (length (filter (λ p, p.1 ≠ id) (timers (WebSocketClientTs.browser c)))
       <= 1)%nat).
    { etrans; [apply length_filter|done]. }
    apply Hconnect; [|done].
    assert (Hcleared :
      tidy (WebSocketClientTs.with_browser
              (clearTimeout id (WebSocketClientTs.browser c)) c)).
    { apply tidy_with_browser; [done|done|]. simpl.
      intros p Hp. by apply list_elem_of_filter in Hp as [_ Hp]. }
    by destruct Hcleared.
  - destruct (0 <=? dt); [|done]. by injection Hstep as <-.
Qed.

Lemma ts_run_single (es : list TransportEvent) (c c' : WebSocketClientTs.t) :
  tidy c ->
  (length (timers (WebSocketClientTs.browser c)) <= 1)%nat ->
  WebSocketClientTs.run es c = Some c' ->
  tidy c' ∧ (length (timers (WebSocketClientTs.browser c')) <= 1)%nat.
Proof.
  revert c. induction es as [|e es IH]; simpl; intros c Htidy Hlen Hrun.
  - by injection Hrun as <-.
  - destruct (WebSocketClientTs.step e c) as [c1|] eqn:Hstep; [|done].
    apply (IH c1); [by eapply ts_step_tidy|by eapply ts_step_single|done].
Qed.

(** X17.  A client of the TypeScript class never has two reconnects pending:
    whatever its owner and its sockets do from its creation on, at most one
    timeout is in the table, and it is the one the client remembers. *)
Theorem ts_at_most_one_reconnect_pending
    (url_ok : bool) (es : list TransportEvent) (c : WebSocketClientTs.t) :
  WebSocketClientTs.run es (WebSocketClientTs.create url_ok) = Some c ->
  (length (timers (WebSocketClientTs.browser c)) <= 1)%nat
  ∧ Forall
      (λ p, WebSocketClientTs.reconnectTimer c = Some p.1)
      (timers (WebSocketClientTs.browser c)).
Proof.
  intros Hrun.
  destruct (ts_run_single es _ c (ts_create_tidy url_ok)) as [[_ Ht] Hlen];
    [simpl; lia|done|].
  split; [done|]. eapply Forall_impl; [exact Ht|]. by intros p [? _].
Qed.

(** Two sockets are opened in a row and both are lost. *)
Definition two_sockets_lost : list TransportEvent :=
  [ call_connect; call_connect; socket_closed 0; elapsed 100;
    socket_closed 1 ].

Lemma ts_at_most_one_reconnect_pending_witness :
  ∃ c,
    WebSocketClientTs.run two_sockets_lost (WebSocketClientTs.create true)
    = Some c
    ∧ timers (WebSocketClientTs.browser c) = [(2%nat, 5100)]
    ∧ (length (timers (WebSocketClientTs.browser c)) <= 1)%nat.
Proof.
  eexists. split; [reflexivity|]. split; [reflexivity|].
  eapply (ts_at_most_one_reconnect_pending true two_sockets_lost).
  reflexivity.
Defined.

(** *** The TypeScript class: a disconnect is for good *)

Lemma ts_run_after_disconnect (es : list TransportEvent)
    (c c' : WebSocketClientTs.t) :
  WebSocketClientTs.url_ok c = true ->
  WebSocketClientTs.manualClose c = true ->
  timers (WebSocketClientTs.browser c) = [] ->
  WebSocketClientTs.run es c = Some c' ->
  WebSocketClientTs.reconnects c' = WebSocketClientTs.reconnects c
  ∧ timers (WebSocketClientTs.browser c') = []
  ∧ WebSocketClientTs.manualClose c' = true.
Proof.
  revert c. induction es as [|e es IH]; simpl; intros c Hurl Hmanual Hnone Hrun.
  - by injection Hrun as <-.
  - destruct (WebSocketClientTs.step e c) as [c1|] eqn:Hstep; [|done].
    assert (WebSocketClientTs.url_ok c1 = true
            ∧ WebSocketClientTs.manualClose c1 = true
            ∧ timers (WebSocketClientTs.browser c1) = []
            ∧ WebSocketClientTs.reconnects c1 = WebSocketClientTs.reconnects c)
      as (Hurl1 & Hmanual1 & Hnone1 & Hcount1).
    { destruct e as [| |i|i|id|dt]; simpl in Hstep.
      - injection Hstep as <-. unfold WebSocketClientTs.connect.
        case_bool_decide; [done|]. by rewrite Hurl.
      - injection Hstep as <-. unfold WebSocketClientTs.disconnect. simpl.
        split; [done|]. split; [done|]. split; [|done].
        destruct (WebSocketClientTs.ws c);
          rewrite ?timers_close; destruct (WebSocketClientTs.timer_set _);
          simpl; by rewrite ?Hnone.
      - case_bool_decide; [|done]. by injection Hstep as <-.
      - destruct (sockets (WebSocketClientTs.browser c) !! i) as [[]|];
          try done; injection Hstep as <-;
          unfold WebSocketClientTs.onclose; simpl; by rewrite Hmanual.
      - unfold due in Hstep. rewrite Hnone in Hstep.
        rewrite bool_decide_eq_false_2 in Hstep; [done|].
        by intros ?%Exists_nil.
      - destruct (0 <=? dt); [|done]. by injection Hstep as <-. }
    destruct (IH c1 Hurl1 Hmanual1 Hnone1 Hrun) as (Hcount & Htimers & Hm).
    split; [congruence|done].
Qed.

Lemma ts_schedule_url (c : WebSocketClientTs.t) :
  WebSocketClientTs.url_ok (WebSocketClientTs.scheduleReconnect c)
  = WebSocketClientTs.url_ok c.
Proof.
  unfold WebSocketClientTs.scheduleReconnect.
  by destruct (setTimeout _ _).
Qed.

Lemma ts_connect_url (c : WebSocketClientTs.t) :
  WebSocketClientTs.url_ok (WebSocketClientTs.connect c)
  = WebSocketClientTs.url_ok c.
Proof.
  unfold WebSocketClientTs.connect. case_bool_decide; [done|].
  destruct (WebSocketClientTs.url_ok c) eqn:Hu.
  - by destruct (new_WebSocket _).
  - by rewrite ts_schedule_url.
Qed.

Lemma ts_run_url (es : list TransportEvent) (c c' : WebSocketClientTs.t) :
  WebSocketClientTs.run es c = Some c' ->
  WebSocketClientTs.url_ok c' = WebSocketClientTs.url_ok c.
Proof.
  revert c. induction es as [|e es IH]; simpl; intros c Hrun.
  - by injection Hrun as <-.
  - destruct (WebSocketClientTs.step e c) as [c1|] eqn:Hstep; [|done].
    rewrite (IH c1 Hrun).
    destruct e as [| |i|i|id|dt]; simpl in Hstep.
    + injection Hstep as <-. apply ts_connect_url.
    + by injection Hstep as <-.
    + case_bool_decide; [|done]. by injection Hstep as <-.
    + destruct (sockets (WebSocketClientTs.browser c) !! i) as [[]|];
        try done; injection Hstep as <-; unfold WebSocketClientTs.onclose;
        (destruct (negb _); [by rewrite ts_schedule_url|done]).
    + destruct (due id _); [|done]. injection Hstep as <-.
      by rewrite ts_connect_url.
    + destruct (0 <=? dt); [|done]. by injection Hstep as <-.
Qed.

(** X18.  On the TypeScript class a [disconnect()] is for good.  Once a
    client with a well-formed url has been disconnected, nothing makes it
    reconnect by itself again: whatever happens afterwards, a new [connect()]
    of the owner and the loss of that connection included, no timeout is ever
    pending and no reconnect is attempted. *)
Theorem ts_disconnect_is_for_good
    (es before : list TransportEvent) (c c' : WebSocketClientTs.t) :
  WebSocketClientTs.run before (WebSocketClientTs.create true) = Some c ->
  WebSocketClientTs.run (call_disconnect :: es) c = Some c' ->
  WebSocketClientTs.reconnects c' = WebSocketClientTs.reconnects c
  ∧ timers (WebSocketClientTs.browser c') = [].
Proof.
  intros Hbefore Hrun. simpl in Hrun.
  destruct (ts_run_single before _ c (ts_create_tidy true)) as [Htidy _];
    [simpl; lia|done|].
  destruct (ts_disconnect_clears c Htidy) as (Hmanual & Hnone & Hcount).
  assert (Hurl : WebSocketClientTs.url_ok c = true).
  { by rewrite (ts_run_url _ _ _ Hbefore). }
  destruct (ts_run_after_disconnect es (WebSocketClientTs.disconnect c) c')
    as (Hcount' & Hnone' & _); [done|done|done|done|].
  split; [congruence|done].
Qed.

Lemma ts_disconnect_is_for_good_witness :
  ∃ c c',
    WebSocketClientTs.run opening (WebSocketClientTs.create true) = Some c
    ∧ WebSocketClientTs.run
        [ call_disconnect; socket_closed 0; call_connect; socket_opened 1;
          socket_closed 1; elapsed 60000 ] c
      = Some c'
    ∧ WebSocketClientTs.reconnects c' = WebSocketClientTs.reconnects c
    ∧ timers (WebSocketClientTs.browser c') = [].
Proof.
  eexists _, _. split; [reflexivity|]. split; [reflexivity|].
  eapply (ts_disconnect_is_for_good
            [ socket_closed 0; call_connect; socket_opened 1;
              socket_closed 1; elapsed 60000 ] opening);
    reflexivity.
Defined.
(** *** The JavaScript class: every close is answered *)

(** The [close] events among the events. *)
Fixpoint closes (es : list TransportEvent) : nat :=
  match es with
  | [] => 0
  | socket_closed _ :: es' => S (closes es')
  | _ :: es' => closes es'
  end.

(** The timeout ids in the table are distinct and were all handed out. *)
Definition timers_distinct (b : Browser.t) : Prop :=
  NoDup (timers b).*1 ∧ Forall (λ p, (p.1 < next_timer b)%nat) (timers b).

Lemma clearTimeout_one (id : nat) (l : list (nat * Z)) :
  NoDup l.*1 ->
  Exists (λ p, p.1 = id) l ->
  S (length (filter (λ p, p.1 ≠ id) l)) = length l.
Proof.
  induction l as [|p l IH]; intros Hnd Hex.
  - by apply Exists_nil in Hex.
  - rewrite fmap_cons in Hnd. apply NoDup_cons in Hnd as [Hp Hnd].
    rewrite filter_cons. destruct (decide (p.1 ≠ id)) as [Hne|Heq].
    + simpl. f_equal. apply IH; [done|].
      apply Exists_cons in Hex as [Hex|Hex]; [done|done].
    + apply dec_stable in Heq. simpl. f_equal.
      assert (Hall : Forall (λ q, q.1 ≠ id) l).
      { apply Forall_forall. intros q Hq Hq1. apply Hp. rewrite Heq, <- Hq1.
        by apply list_elem_of_fmap_2. }
      clear -Hall. induction Hall as [|q l Hq Hall IH]; [done|].
      rewrite filter_cons, decide_True by done. simpl. by rewrite IH.
Qed.

Lemma clearTimeout_distinct (id : nat) (b : Browser.t) :
  timers_distinct b -> timers_distinct (clearTimeout id b).
Proof.
  intros [Hnd Hlt]. split; simpl.
  - eapply sublist_NoDup; [exact Hnd|].
    apply fmap_sublist, sublist_filter.
  - apply Forall_forall. intros p Hp. apply list_elem_of_filter in Hp as [_ Hp].
    by eapply Forall_forall in Hlt.
Qed.

Lemma setTimeout_distinct (delay : Z) (b : Browser.t) :
  timers_distinct b -> timers_distinct (setTimeout delay b).2.
Proof.
  intros [Hnd Hlt]. split; simpl.
  - rewrite fmap_app. apply NoDup_app. split; [done|]. split.
    + intros id Hid Hnew. apply list_elem_of_fmap in Hid as (p & -> & Hp).
      apply list_elem_of_singleton in Hnew.
      eapply Forall_forall in Hlt; [|exact Hp]. simpl in Hnew. lia.
    + apply NoDup_singleton.
  - apply Forall_app. split.
    + eapply Forall_impl; [exact Hlt|]. simpl. intros p Hp. lia.
    + apply Forall_singleton. simpl. lia.
Qed.

Lemma js_connect_timers (c : WebSocketClientJs.t) :
  timers (WebSocketClientJs.browser (WebSocketClientJs.connect c))
  = timers (WebSocketClientJs.browser c)
  ∧ next_timer (WebSocketClientJs.browser (WebSocketClientJs.connect c))
    = next_timer (WebSocketClientJs.browser c)
  ∧ WebSocketClientJs.reconnects (WebSocketClientJs.connect c)
    = WebSocketClientJs.reconnects c.
Proof.
  unfold WebSocketClientJs.connect.
  by destruct (WebSocketClientJs.url_ok c).
Qed.

Lemma js_step_answers (e : TransportEvent) (c c' : WebSocketClientJs.t) :
  timers_distinct (WebSocketClientJs.browser c) ->
  WebSocketClientJs.step e c = Some c' ->
  timers_distinct (WebSocketClientJs.browser c')
  ∧ (length (timers (WebSocketClientJs.browser c'))
     + WebSocketClientJs.reconnects c'
     = length (timers (WebSocketClientJs.browser c))
       + WebSocketClientJs.reconnects c + closes [e])%nat.
Proof.
  intros Hd Hstep.
  destruct e as [| |i|i|id|dt]; simpl in Hstep.
  - injection Hstep as <-.
    destruct (js_connect_timers c) as (Ht & Hn & Hr).
    unfold timers_distinct. rewrite Ht, Hn, Hr. simpl. split; [done|lia].
  - injection Hstep as <-. unfold WebSocketClientJs.disconnect.
    destruct (WebSocketClientJs.ws c) as [i|]; simpl; [|split; [done|lia]].
    unfold close.
    destruct (sockets (WebSocketClientJs.browser c) !! i) as [[]|];
      simpl; (split; [done|lia]).
  - case_bool_decide; [|done]. injection Hstep as <-. simpl.
    split; [done|lia].
  - assert (Hclosed :
      timers_distinct
        (WebSocketClientJs.browser
           (WebSocketClientJs.onclose
              (WebSocketClientJs.with_browser
                 (set_readyState i CLOSED (WebSocketClientJs.browser c)) c)))
      ∧ (length
           (timers
              (WebSocketClientJs.browser
                 (WebSocketClientJs.onclose
                    (WebSocketClientJs.with_browser
                       (set_readyState i CLOSED (WebSocketClientJs.browser c))
                       c))))
         + WebSocketClientJs.reconnects c
         = length (timers (WebSocketClientJs.browser c))
           + WebSocketClientJs.reconnects c + 1)%nat).
    { split.
      - apply (setTimeout_distinct WebSocketClientJs.reconnectInterval
                 (set_readyState i CLOSED (WebSocketClientJs.browser c))).
        exact Hd.
      - simpl. rewrite length_app. simpl. lia. }
    destruct (sockets (WebSocketClientJs.browser c) !! i) as [[]|];
      try done; by injection Hstep as <-.
  - destruct (due id _) eqn:Hdue; [|done]. injection Hstep as <-.
    unfold due in Hdue. apply bool_decide_eq_true_1 in Hdue.
    assert (Hex : Exists (λ p, p.1 = id)
                    (timers (WebSocketClientJs.browser c))).
    { eapply Exists_impl; [exact Hdue|]. by intros p [? _]. }
    pose proof (clearTimeout_one id _ (proj1 Hd) Hex) as Hone.
    match goal with
    | |- context [WebSocketClientJs.connect ?c0] =>
        destruct (js_connect_timers c0) as (Ht & Hn & Hr)
    end.
    unfold timers_distinct. rewrite Ht, Hn, Hr. simpl. split.
    + apply (clearTimeout_distinct id _ Hd).
    + lia.
  - destruct (0 <=? dt); [|done]. injection Hstep as <-. simpl.
    split; [done|lia].
Qed.

Lemma closes_cons (e : TransportEvent) (es : list TransportEvent) :
  closes (e :: es) = (closes [e] + closes es)%nat.
Proof. by destruct e. Qed.

Lemma js_run_answers (es : list TransportEvent) (c c' : WebSocketClientJs.t) :
  timers_distinct (WebSocketClientJs.browser c) ->
  WebSocketClientJs.run es c = Some c' ->
  (length (timers (WebSocketClientJs.browser c'))
   + WebSocketClientJs.reconnects c'
   = length (timers (WebSocketClientJs.browser c))
     + WebSocketClientJs.reconnects c + closes es)%nat.
Proof.
  revert c. induction es as [|e es IH]; intros c Hd Hrun.
  - simpl in Hrun. injection Hrun as <-. simpl. lia.
  - simpl in Hrun.
    destruct (WebSocketClientJs.step e c) as [c1|] eqn:Hstep; [|done].
    destruct (js_step_answers e c c1 Hd Hstep) as [Hd1 Hone].
    rewrite (IH c1 Hd1 Hrun), closes_cons. lia.
Qed.

(** X19.  The JavaScript class answers every close of a socket with a
    reconnect, whether the owner disconnected or not: at any moment, the
    reconnects attempted so far and the timeouts still pending are together as
    many as the [close] events the client has seen. *)
Theorem js_every_close_is_answered
    (url_ok : bool) (es : list TransportEvent) (c : WebSocketClientJs.t) :
  WebSocketClientJs.run es (WebSocketClientJs.create url_ok) = Some c ->
  (WebSocketClientJs.reconnects c
   + length (timers (WebSocketClientJs.browser c)))%nat
  = closes es.
Proof.
  intros Hrun.
  pose proof (js_run_answers es (WebSocketClientJs.create url_ok) c) as H.
  simpl in H. rewrite Nat.add_comm. apply H; [|done].
  split; [apply NoDup_nil_2|apply Forall_nil_2].
Qed.

(** A socket is lost, the client is disconnected, and the reconnect opens a
    socket that is lost too; a second [connect()] of the owner opens a third. *)
Definition three_closes : list TransportEvent :=
  [ call_connect; socket_opened 0; socket_closed 0; call_disconnect;
    elapsed 5000; timeout_fired 1; call_connect; socket_closed 1;
    socket_closed 2 ].

Lemma js_every_close_is_answered_witness :
  ∃ c,
    WebSocketClientJs.run three_closes (WebSocketClientJs.create true)
    = Some c
    ∧ (WebSocketClientJs.reconnects c
       + length (timers (WebSocketClientJs.browser c)))%nat
      = closes three_closes.
Proof.
  eexists. split; [reflexivity|].
  apply (js_every_close_is_answered true three_closes).
  reflexivity.
Defined.
End TransportMore.

(** * The listeners, the history pages and the export

    ** The listeners of a transport ([utils/websocket], [on] and [emit])

    Both classes keep a [Map] from event names to arrays of callbacks.  A
    callback is known by a number here, and [emit] gives the calls it makes,
    in order, each with the payload handed over.  Callbacks are taken not to
    register listeners themselves while they are called. *)

Module Listeners.
Definition Callback : Type := nat.
Definition t : Type := gmap string (list Callback).

Definition create : t := ∅.

Definition on (event : string) (callback : Callback) (listeners : t) : t :=
  let listeners1 :=
    if decide (is_Some (listeners !! event)) then listeners
    else <[event := []]> listeners in
  match listeners1 !! event with
  | Some callbacks => <[event := callbacks ++ [callback]]> listeners1
  | None => listeners1
  end.

Definition emit {D : Type} (event : string) (data : D) (listeners : t)
    : list (Callback * D) :=
  match listeners !! event with
  | Some callbacks => (λ callback, (callback, data)) <$> callbacks
  | None => []
  end.

(** The listeners after a series of [on(event, callback)]. *)
Definition registered (calls : list (string * Callback)) (listeners : t) : t :=
  foldl (λ m call, on call.1 call.2 m) listeners calls.
End Listeners.

(** ** The history pages ([pages/OrderHistory.tsx], [pages/TradeHistory.tsx])

    The two pages are the same code over orders and over trades, with page
    sizes of ten and twelve rows. *)

Module Pages.
Inductive HistoryPage := OrderHistory | TradeHistory.

Definition PAGE_SIZE (view : HistoryPage) : nat :=
  match view with
  | OrderHistory => 10
  | TradeHistory => 12
  end.

(** [array.slice(start, end)] for indices that are not negative. *)
Definition Array_slice {A : Type} (start finish : nat) (l : list A) : list A :=
  take (finish - start) (drop start l).

(** [Math.ceil(n / d)] for a length [n] and a page size [d] above zero. *)
Definition Math_ceil_div (n d : nat) : nat := (n + (d - 1)) / d.

Section Page.
Context `{Stamped A} (view : HistoryPage).

(** [sortedOrders], [sortedTrades] *)
Definition sorted (rows : list A) : list A :=
  Array_sort (λ a b, stamp b - stamp a) rows.

Definition totalPages (rows : list A) : nat :=
  Nat.max 1 (Math_ceil_div (length (sorted rows)) (PAGE_SIZE view)).

(** [paginatedOrders], [paginatedTrades] *)
Definition paginated (currentPage : nat) (rows : list A) : list A :=
  Array_slice ((currentPage - 1) * PAGE_SIZE view) (currentPage * PAGE_SIZE view)
    (sorted rows).

(** The two buttons under the table. *)
Definition previousPage (page : nat) : nat := Nat.max 1 (page - 1).
Definition nextPage (rows : list A) (page : nat) : nat :=
  Nat.min (totalPages rows) (page + 1).
End Page.
End Pages.

(** ** The export ([utils/export.ts])

    A value is given by the string [String(value)] makes of it, or is absent
    ([null], [undefined]). *)

Module ExportCsv.
(** The double quote, the line feed and the comma, by their codes. *)
Definition quote : Ascii.ascii := Ascii.ascii_of_nat 34.
Definition newline : Ascii.ascii := Ascii.ascii_of_nat 10.
Definition comma : Ascii.ascii := Ascii.ascii_of_nat 44.

(** [s.includes(c)] for a string of one character *)
Fixpoint includes (c : Ascii.ascii) (s : string) : bool :=
  match s with
  | EmptyString => false
  | String c' s' => if Ascii.eqb c' c then true else includes c s'
  end.

(** [replace] with the global pattern of one double quote: every double
    quote of the string is written twice. *)
Fixpoint double_quotes (s : string) : string :=
  match s with
  | EmptyString => EmptyString
  | String c s' =>
      if Ascii.eqb c quote
      then String quote (String quote (double_quotes s'))
      else String c (double_quotes s')
  end.

Definition escapeValue (value : option string) : string :=
  match value with
  | None => EmptyString
  | Some stringValue =>
      if includes comma stringValue || includes newline stringValue
         || includes quote stringValue
      then String quote (double_quotes stringValue +:+ String quote EmptyString)
      else stringValue
  end.
End ExportCsv.

(** * Properties of the listeners, the pages and the export *)

Module ListenersFacts.
Import Listeners.

Definition callbacks_of (event : string) (listeners : t) : list Callback :=
  default [] (listeners !! event).

Lemma callbacks_of_on (event event' : string) (callback : Callback)
    (listeners : t) :
  callbacks_of event' (on event callback listeners)
  = if decide (event = event')
    then callbacks_of event' listeners ++ [callback]
    else callbacks_of event' listeners.
Proof.
  unfold callbacks_of, on, t in *.
  destruct (decide (is_Some (listeners !! event))) as [[cbs Hcbs]|Hnone].
  - rewrite Hcbs. destruct (decide (event = event')) as [<-|Hne].
    + by rewrite lookup_insert_eq, Hcbs.
    + by rewrite lookup_insert_ne.
  - apply eq_None_not_Some in Hnone.
    rewrite (lookup_insert_eq listeners event []).
    destruct (decide (event = event')) as [<-|Hne].
    + by rewrite lookup_insert_eq, Hnone.
    + by rewrite !lookup_insert_ne.
Qed.

Lemma callbacks_of_registered (event : string)
    (calls : list (string * Callback)) (listeners : t) :
  callbacks_of event (registered calls listeners)
  = callbacks_of event listeners ++ (filter (λ call, call.1 = event) calls).*2.
Proof.
  revert listeners. unfold registered.
  induction calls as [|[e c] calls IH]; intros listeners; simpl.
  - by rewrite app_nil_r.
  - rewrite IH, callbacks_of_on, filter_cons. simpl.
    destruct (decide (e = event)); [|done].
    by rewrite fmap_cons, <- app_assoc.
Qed.

Lemma emit_callbacks_of {D : Type} (event : string) (data : D)
    (listeners : t) :
  emit event data listeners
  = (λ callback, (callback, data)) <$> callbacks_of event listeners.
Proof.
  unfold emit, callbacks_of. by destruct (listeners !! event).
Qed.

(** X20.  An [emit] calls the callbacks registered for its event, each with
    the payload, once for every [on] that registered it and in the order of
    the registrations; a callback registered for another event is not
    called. *)
Theorem emit_calls_the_registered_in_order {D : Type}
    (calls : list (string * Listeners.Callback)) (event : string) (data : D) :
  Listeners.emit event data (Listeners.registered calls Listeners.create)
  = (λ call, (call.2, data)) <$> filter (λ call, call.1 = event) calls.
Proof.
  rewrite emit_callbacks_of, callbacks_of_registered.
  unfold callbacks_of, create, t. rewrite lookup_empty. simpl.
  by rewrite <- list_fmap_compose.
Qed.
End ListenersFacts.

Module PagesFacts.
Import Pages.

Lemma Math_ceil_div_covers (n d : nat) :
  (0 < d)%nat -> (n <= Math_ceil_div n d * d)%nat.
Proof.
  intros Hd. unfold Math_ceil_div.
  pose proof (Nat.div_mod_eq (n + (d - 1)) d) as Hdiv.
  pose proof (Nat.mod_upper_bound (n + (d - 1)) d) as Hmod.
  nia.
Qed.

Lemma Math_ceil_div_tight (n d : nat) :
  (0 < d)%nat -> (0 < n)%nat -> ((Math_ceil_div n d - 1) * d < n)%nat.
Proof.
  intros Hd Hn. unfold Math_ceil_div.
  pose proof (Nat.div_mod_eq (n + (d - 1)) d) as Hdiv.
  pose proof (Nat.mod_upper_bound (n + (d - 1)) d) as Hmod.
  nia.
Qed.

Lemma Array_slice_page {A : Type} (size page : nat) (l : list A) :
  (1 <= page)%nat ->
  Array_slice ((page - 1) * size) (page * size) l
  = take size (drop ((page - 1) * size) l).
Proof.
  intros Hpage. unfold Array_slice. f_equal. nia.
Qed.

Lemma pages_concat {A : Type} (size pages : nat) (l : list A) :
  (length l <= pages * size)%nat ->
  concat ((λ page, Array_slice ((page - 1) * size) (page * size) l)
            <$> seq 1 pages)
  = l.
Proof.
  revert l. induction pages as [|pages IH]; intros l Hlen.
  - simpl in *. by destruct l; [|simpl in Hlen; lia].
  - rewrite <- cons_seq, fmap_cons, <- fmap_S_seq, <- list_fmap_compose.
    rewrite concat_cons. cbv beta.
    rewrite (Array_slice_page size 1 l) by lia.
    change ((1 - 1) * size)%nat with 0%nat. rewrite drop_0.
    transitivity (take size l ++ drop size l); [|apply take_drop].
    f_equal.
    assert (Hrest : (length (drop size l) <= pages * size)%nat).
    { rewrite length_drop. simpl in Hlen. lia. }
    rewrite <- (IH (drop size l) Hrest).
    f_equal. apply list_fmap_ext. intros i page Hpage.
    apply lookup_seq in Hpage as [-> _]. simpl.
    unfold Array_slice. rewrite drop_drop, Nat.sub_0_r.
    f_equal. lia.
Qed.

Section Page.
Context `{Stamped A} (view : HistoryPage).

Lemma PAGE_SIZE_positive : (0 < PAGE_SIZE view)%nat.
Proof. destruct view; simpl; lia. Qed.

Lemma totalPages_covers (rows : list A) :
  (length (sorted rows) <= totalPages view rows * PAGE_SIZE view)%nat.
Proof.
  unfold totalPages.
  pose proof (Math_ceil_div_covers (length (sorted rows)) (PAGE_SIZE view)
                PAGE_SIZE_positive).
  nia.
Qed.

Lemma paginated_length (page : nat) (rows : list A) :
  (length (paginated view page rows) <= PAGE_SIZE view)%nat.
Proof.
  unfold paginated, Array_slice. rewrite length_take. nia.
Qed.

Lemma paginated_not_empty (page : nat) (rows : list A) :
  rows ≠ [] ->
  (1 <= page <= totalPages view rows)%nat ->
  paginated view page rows ≠ [].
Proof.
  intros Hrows [Hlow Hhigh] Hempty.
  apply (f_equal length) in Hempty.
  unfold paginated in Hempty. rewrite Array_slice_page in Hempty by done.
  rewrite length_take, length_drop in Hempty. simpl in Hempty.
  assert (Hsome : (0 < length (sorted rows))%nat).
  { pose proof (Permutation_length (Array_sort_perm stamp rows)) as Hperm.
    unfold sorted. unfold by_key_desc in Hperm. rewrite Hperm.
    destruct rows; [done|simpl; lia]. }
  pose proof PAGE_SIZE_positive as Hsize.
  pose proof (Math_ceil_div_tight _ _ Hsize Hsome) as Htight.
  unfold totalPages in Hhigh. nia.
Qed.
End Page.

(** X21.  On either history page the pages one to [totalPages], one after the
    other, show every row of the sorted history once and in its order.  No
    page holds more rows than the page size, no page is blank unless the
    history is empty, and the two buttons never lead out of the pages. *)
Theorem history_pages_show_every_row_once `{Stamped A}
    (view : Pages.HistoryPage) (rows : list A) :
  concat ((λ page, Pages.paginated view page rows)
            <$> seq 1 (Pages.totalPages view rows))
  = Pages.sorted rows
  ∧ ∀ page : nat,
      (1 <= page <= Pages.totalPages view rows)%nat ->
      (length (Pages.paginated view page rows) <= Pages.PAGE_SIZE view)%nat
      ∧ (rows ≠ [] -> Pages.paginated view page rows ≠ [])
      ∧ (1 <= Pages.previousPage page <= Pages.totalPages view rows)%nat
      ∧ (1 <= Pages.nextPage view rows page <= Pages.totalPages view rows)%nat.
Proof.
  split.
  - apply pages_concat, totalPages_covers.
  - intros page Hpage. split; [apply paginated_length|].
    split; [intros Hrows; by apply paginated_not_empty|].
    unfold previousPage, nextPage. lia.
Qed.

(** X22.  The history pages sort the rows of the store again, with the
    comparator of the reducer.  Whatever the store holds, the table shows
    the same rows, newest first; and once an order or a trade has been
    upserted, the table shows the collection of the store as it is. *)
Theorem history_page_shows_the_store
    (now : Timestamp) (state : AccountState) :
  (Pages.sorted (orders state) ≡ₚ orders state
   ∧ descending stamp (Pages.sorted (orders state))
   ∧ Pages.sorted (trades state) ≡ₚ trades state
   ∧ descending stamp (Pages.sorted (trades state)))
  ∧ (∀ payload : Order.t,
       Pages.sorted (orders (accountReducer now state (UPSERT_ORDER payload)))
       = orders (accountReducer now state (UPSERT_ORDER payload)))
  ∧ (∀ payload : Trade.t,
       Pages.sorted (trades (accountReducer now state (UPSERT_TRADE payload)))
       = trades (accountReducer now state (UPSERT_TRADE payload))).
Proof.
  split; [|split].
  - split; [apply (Array_sort_perm stamp)|].
    split; [apply (Array_sort_descending stamp)|].
    split; [apply (Array_sort_perm stamp)|apply (Array_sort_descending stamp)].
  - intros payload. apply (Array_sort_fixed stamp).
    exact (upsert_descending payload (orders state)).
  - intros payload. apply (Array_sort_fixed stamp).
    exact (upsert_descending payload (trades state)).
Qed.
End PagesFacts.

Module ExportFacts.
Import ExportCsv.

Lemma double_quotes_inj (s1 s2 : string) :
  double_quotes s1 +:+ String quote EmptyString
  = double_quotes s2 +:+ String quote EmptyString ->
  s1 = s2.
Proof.
  revert s2. induction s1 as [|c1 s1 IH]; intros [|c2 s2]; simpl; try done.
  - destruct (Ascii.eqb c2 quote) eqn:Hc2; simpl; intros Heq.
    + by injection Heq.
    + injection Heq as Heq _. apply Ascii.eqb_neq in Hc2. by subst.
  - destruct (Ascii.eqb c1 quote) eqn:Hc1; simpl; intros Heq.
    + by injection Heq.
    + injection Heq as Heq _. apply Ascii.eqb_neq in Hc1. by subst.
  - destruct (Ascii.eqb c1 quote) eqn:Hc1, (Ascii.eqb c2 quote) eqn:Hc2;
      simpl; intros Heq.
    + apply Ascii.eqb_eq in Hc1, Hc2. subst. injection Heq as Heq.
      by rewrite (IH s2 Heq).
    + injection Heq as Heq _. apply Ascii.eqb_neq in Hc2. by subst.
    + injection Heq as Heq _. apply Ascii.eqb_neq in Hc1. by subst.
    + injection Heq as -> Heq. by rewrite (IH s2 Heq).
Qed.

Lemma escapeValue_plain (s : string) :
  includes quote s = false ->
  includes comma s = false ->
  includes newline s = false ->
  escapeValue (Some s) = s.
Proof. intros Hq Hc Hn. unfold escapeValue. by rewrite Hq, Hc, Hn. Qed.

Lemma escapeValue_quoted (s : string) :
  escapeValue (Some s) = s
  ∨ escapeValue (Some s)
    = String quote (double_quotes s +:+ String quote EmptyString).
Proof.
  unfold escapeValue. destruct (_ || _); [by right|by left].
Qed.

Lemma length_append (s1 s2 : string) :
  String.length (s1 +:+ s2) = (String.length s1 + String.length s2)%nat.
Proof. induction s1 as [|c s1 IH]; simpl; [done|by rewrite IH]. Qed.

Lemma double_quotes_length (s : string) :
  (String.length s <= String.length (double_quotes s))%nat.
Proof.
  induction s as [|c s IH]; simpl; [done|].
  destruct (Ascii.eqb c quote); simpl; lia.
Qed.

Lemma escapeValue_same (s : string) :
  escapeValue (Some s) = s ->
  includes comma s || includes newline s || includes quote s = false.
Proof.
  unfold escapeValue. destruct (_ || _); [|done]. intros Hsame.
  apply (f_equal String.length) in Hsame. simpl in Hsame.
  rewrite length_append in Hsame. simpl in Hsame.
  pose proof (double_quotes_length s). lia.
Qed.

Lemma escapeValue_keeps_unquoted (s : string) :
  escapeValue (Some s) = s -> includes quote s = false.
Proof.
  intros Hsame%escapeValue_same.
  by apply orb_false_elim in Hsame as [_ ?].
Qed.

(** X23.  The escaping of the export loses nothing: two values whose
    strings differ are written as different fields.  A value without a
    comma, a line feed or a quote is written as it is, and an absent value is
    written like the empty string. *)
Theorem escapeValue_tells_values_apart (s1 s2 : string) :
  (ExportCsv.escapeValue (Some s1) = ExportCsv.escapeValue (Some s2) <-> s1 = s2)
  ∧ (ExportCsv.includes ExportCsv.comma s1
     || ExportCsv.includes ExportCsv.newline s1
     || ExportCsv.includes ExportCsv.quote s1 = false
     <-> ExportCsv.escapeValue (Some s1) = s1)
  ∧ ExportCsv.escapeValue None = ExportCsv.escapeValue (Some EmptyString).
Proof.
  split; [|split; [|done]].
  - split; [|by intros ->].
    intros Heq.
    destruct (escapeValue_quoted s1) as [H1|H1],
      (escapeValue_quoted s2) as [H2|H2].
    + congruence.
    + apply escapeValue_keeps_unquoted in H1 as Hq.
      rewrite Heq, H2 in H1. rewrite <- H1 in Hq. by vm_compute in Hq.
    + apply escapeValue_keeps_unquoted in H2 as Hq.
      rewrite <- Heq, H1 in H2. rewrite <- H2 in Hq. by vm_compute in Hq.
    + rewrite H1, H2 in Heq. injection Heq as Heq.
      by apply double_quotes_inj.
  - split.
    + intros Hplain. unfold escapeValue. by rewrite Hplain.
    + apply escapeValue_same.
Qed.
End ExportFacts.
